(** * setup_github_issues.py: the gh command runner and its three batch phases

    A shallow embedding of [run_gh_command], [create_labels],
    [create_milestones], [create_issues] and [main] of
    [src/setup_github_issues.py], and the properties of the driver that the
    specification states about them.

    Conventions of the embedding.
    - A Python [str] is the list of its Unicode code points ([list N]); the
      ASCII literals of the source are written [py "..."].
    - A Python [dict] with string keys is a [gmap str _]: the driver only
      inserts, tests membership, looks up and takes [len], so the insertion
      order of the dict is never observed.
    - The outside world (the [gh] executable and the service behind it) is a
      state [World] with a transition [spawn]: it receives the argument
      vector and answers with the completed process and the next state. The
      executable is taken to be present, every spawned process to exit and
      its output to decode as text, which is what the script is run under.
    - The script runs on a POSIX system under a UTF-8 locale. There
      [subprocess.run] encodes each argument for the operating system before
      it starts anything and raises [ValueError] on an argument that holds
      U+0000, or that holds a surrogate the escape of undecodable bytes does
      not cover; and [print] raises [UnicodeEncodeError], a [ValueError], on
      a text for standard output that holds a surrogate. The error stream
      escapes what it cannot encode and takes every text. The limits of the
      operating system on the size of an argument vector, and of the machine
      on memory, are not modelled.
    - Effects are explicit: a computation maps a world to the events it
      performed (processes spawned, lines printed), the next world and either
      a value or the Python exception that escaped it.
    - [json.loads] and the builtin [str] on a decoded value belong to the
      Python runtime; the driver is parametrised by them, and by the three
      record lists that the functions read as module globals. [Repo] holds
      the lists as the script declares them and [Runs] runs over them. *)

From Stdlib Require Import ZArith NArith Ascii DecimalString.
From stdpp Require Import gmap list strings.

(** ** Text *)

Abbreviation str := (list N).

(** The code points of an ASCII literal. *)
Definition py (s : string) : str :=
  map N_of_ascii (String.list_ascii_of_string s).
Arguments py s%_string : simpl never.

(** [str.isspace] on one code point: the code points CPython classifies as
    whitespace (general category Zs, or bidirectional class WS, B or S). *)
Definition isspace (c : N) : bool :=
  ((9 <=? c) && (c <=? 13) || (28 <=? c) && (c <=? 32)
   || (c =? 133) || (c =? 160) || (c =? 5760)
   || (8192 <=? c) && (c <=? 8202)
   || (c =? 8232) || (c =? 8233) || (c =? 8239) || (c =? 8287)
   || (c =? 12288))%N.

Fixpoint lstrip (s : str) : str :=
  match s with
  | c :: s' => if isspace c then lstrip s' else s
  | [] => []
  end.

Definition rstrip (s : str) : str := rev (lstrip (rev s)).

(** [s.strip()] *)
Definition strip (s : str) : str := rstrip (lstrip s).

(** [s.split(sep)] for a separator of one code point. *)
Fixpoint split (sep : N) (s : str) : list str :=
  match s with
  | [] => [[]]
  | c :: s' =>
      if (c =? sep)%N then [] :: split sep s'
      else match split sep s' with
           | seg :: segs => (c :: seg) :: segs
           | [] => [[c]]
           end
  end.

(** [sep.join(xs)] *)
Fixpoint join (sep : str) (xs : list str) : str :=
  match xs with
  | [] => []
  | [x] => x
  | x :: rest => x ++ sep ++ join sep rest
  end.

(** [str(n)] for a length, and for an [int]. *)
Definition str_of_nat (n : nat) : str :=
  py (NilZero.string_of_uint (Nat.to_uint n)).

Definition str_of_int (z : Z) : str :=
  py (NilZero.string_of_int (Z.to_int z)).

(** A surrogate code point, U+D800 to U+DFFF. *)
Definition is_surrogate (c : N) : bool := ((55296 <=? c) && (c <=? 57343))%N.

(** A surrogate that stands for an undecodable byte, U+DC80 to U+DCFF: the
    only kind the encoding of a process argument lets through. *)
Definition is_escaped_byte (c : N) : bool := ((56448 <=? c) && (c <=? 56575))%N.

(** A text [subprocess.run] can hand to a process as an argument: it holds
    no U+0000 (the argument is a C string) and no surrogate but those that
    stand for a byte. On any other text the call raises before a process is
    started. *)
Definition passable (arg : str) : bool :=
  forallb (fun c => negb (c =? 0)%N && (negb (is_surrogate c) || is_escaped_byte c))
          arg.

(** A text [print] can write to standard output: UTF-8 encodes every code
    point but the surrogates. *)
Definition printable (text : str) : bool :=
  forallb (fun c => negb (is_surrogate c)) text.

(** A text with neither U+0000 nor a surrogate: it can be passed to a
    process and printed. The texts the script declares are of this kind. *)
Definition plain (text : str) : bool :=
  forallb (fun c => negb (c =? 0)%N && negb (is_surrogate c)) text.

Arguments passable : simpl never.
Arguments printable : simpl never.
Arguments plain : simpl never.

Definition slash : N := 47.
Definition comma : str := py ",".
Definition check_mark : str := [10003%N].       (* U+2713 *)
Definition white_check_mark : str := [9989%N].  (* U+2705 *)
Definition newline : str := [10%N].

(** ** Python values and exceptions *)

(** What [json.loads] can return. The driver never computes with a float,
    which is kept as the numeral it was decoded from. *)
#[warnings="-register-all"]
Inductive pyval : Type :=
  | PNone
  | PBool (b : bool)
  | PInt (z : Z)
  | PFloat (r : str)
  | PStr (s : str)
  | PList (l : list pyval)
  | PDict (d : gmap str pyval).

(** The exceptions of the run: of [subprocess.run] with [check=True], of
    [json.loads], of a subscript, and [ValueError], which stands for itself
    and for its subclass [UnicodeEncodeError]: raised by [subprocess.run] on
    an argument it cannot pass, by [print] on a text it cannot encode, and
    by [json.loads] on an integer of too many digits. *)
Inductive exn : Type :=
  | CalledProcessError (returncode : Z) (output stderr : str)
  | JSONDecodeError
  | RecursionError
  | KeyError (key : str)
  | TypeError
  | IndexError
  | ValueError.

Inductive result (A : Type) : Type :=
  | Ok (a : A)
  | Raise (e : exn).
Arguments Ok {A} a.
Arguments Raise {A} e.

(** Whether a result is a value, and the value of a result that is one. *)
Definition returned {A} (r : result A) : bool :=
  match r with
  | Ok _ => true
  | Raise _ => false
  end.

Definition returned_value {A} (default : A) (r : result A) : A :=
  match r with
  | Ok a => a
  | Raise _ => default
  end.

(** [data[key]] with a string key: only a dict accepts it. *)
Definition getitem (data : pyval) (key : str) : result pyval :=
  match data with
  | PDict d =>
      match d !! key with
      | Some v => Ok v
      | None => Raise (KeyError key)
      end
  | _ => Raise TypeError
  end.

(** [xs[-1]] *)
Definition getitem_last {A} (xs : list A) : result A :=
  match last xs with
  | Some x => Ok x
  | None => Raise IndexError
  end.

(** [r is not None] *)
Definition is_not_none (r : option str) : bool :=
  match r with
  | Some _ => true
  | None => false
  end.

(** ** The static records *)

Record LabelSpec := {
  label_name : str;
  label_color : str;
  label_description : str
}.

Record MilestoneSpec := {
  milestone_title : str;
  milestone_description : str;
  milestone_due_on : option str
}.

(** The ["milestone"] key of an issue is optional: the driver tests
    ["milestone" in issue]. *)
Record IssueSpec := {
  issue_title : str;
  issue_body : str;
  issue_labels : list str;
  issue_milestone : option str
}.

Definition label (name color description : string) : LabelSpec :=
  {| label_name := py name; label_color := py color;
     label_description := py description |}.

Definition milestone (title description : string) (due_on : option string)
    : MilestoneSpec :=
  {| milestone_title := py title; milestone_description := py description;
     milestone_due_on := py <$> due_on |}.

Definition issue (title body : string) (labels : list string)
    (milestone : option string) : IssueSpec :=
  {| issue_title := py title; issue_body := py body;
     issue_labels := py <$> labels; issue_milestone := py <$> milestone |}.

Definition OWNER : str := py "DubiWork".
Definition REPO : str := py "maaser-tracker".

(** [f"{OWNER}/{REPO}"] *)
Definition owner_repo : str := OWNER ++ py "/" ++ REPO.

(** ** The records the script declares

    [LABELS], [MILESTONES] and [ISSUES] as the module declares them. *)

Module Repo.

Definition LABELS : list LabelSpec := [
    label "epic" "7057ff" "Epic-level issue";
    label "story" "0e8a16" "User story";
    label "task" "1d76db" "Technical task";
    label "bug" "d73a4a" "Bug fix";
    label "P0-critical" "b60205" "Critical priority";
    label "P1-high" "d93f0b" "High priority";
    label "P2-medium" "fbca04" "Medium priority";
    label "P3-low" "c2e0c6" "Low priority";
    label "frontend" "bfdadc" "Frontend work";
    label "backend" "fef2c0" "Backend/data work";
    label "testing" "d4c5f9" "Testing work";
    label "infrastructure" "f9d0c4" "CI/CD, DevOps";
    label "pwa" "5319e7" "PWA related";
    label "i18n" "bfd4f2" "Internationalization"
].

Definition MILESTONES : list MilestoneSpec := [
    milestone "v0.2.0 - Foundation" "Foundation and Infrastructure + PWA" None;
    milestone "v0.3.0 - Core Features" "Core Feature Enhancements + Settings" None;
    milestone "v0.4.0 - Cloud & Analytics" "Cloud Sync + Analytics and Reporting" None;
    milestone "v1.0.0 - Production Release" "Polish and Production Release" None
].

Definition ISSUES : list IssueSpec := [
    issue "Epic 1: Foundation and Infrastructure"
      "## Description
Establish the technical foundation for a production-ready application including proper data persistence, testing infrastructure, and CI/CD.

## Goals
- Migrate from LocalStorage to IndexedDB for robust data persistence
- Set up React Query for data management
- Establish comprehensive testing infrastructure
- Configure CI/CD pipeline with GitHub Actions

## Success Criteria
- [ ] All data stored in IndexedDB with migration from LocalStorage
- [ ] React Query integrated for data operations
- [ ] >80% test coverage on critical paths
- [ ] Automated CI/CD pipeline operational

## Stories
- #2 - IndexedDB Migration
- #3 - React Query Integration
- #4 - Testing Infrastructure
- #5 - CI/CD Setup
"
      ["epic"; "P0-critical"; "backend"; "infrastructure"]
      (Some "v0.2.0 - Foundation");

    issue "Migrate from LocalStorage to IndexedDB"
      "## Description
Replace LocalStorage with IndexedDB for more robust data persistence that can handle larger datasets and structured queries.

## Business Value
Enables offline-first functionality, better performance with large datasets, and foundation for future features like search and filtering.

## Acceptance Criteria
- [ ] All existing data types (income, donation) are stored in IndexedDB
- [ ] Data is automatically migrated from LocalStorage on first load
- [ ] Application works offline after initial load
- [ ] Storage quota warnings are handled gracefully
- [ ] No data loss during migration

## Sub-tasks
1. Create IndexedDB service layer [4h]
   - File: `src/services/db.js`
   - Define database schema version 1
   - Create `entries` object store with indexes for `date`, `type`, `amount`
   - Implement CRUD operations: `addEntry`, `updateEntry`, `deleteEntry`, `getAllEntries`, `getEntriesByDateRange`

2. Implement migration utility [2h]
   - File: `src/services/migration.js`
   - Detect existing LocalStorage data
   - Migrate to IndexedDB with validation
   - Clear LocalStorage after successful migration

3. Create custom React hooks for data access [3h]
   - File: `src/hooks/useEntries.js`
   - `useEntries()` - fetch all entries
   - `useAddEntry()` - mutation hook
   - `useUpdateEntry()` - mutation hook
   - `useDeleteEntry()` - mutation hook

4. Update App.jsx to use new data layer [2h]
   - Remove LocalStorage functions
   - Replace with React Query hooks
   - Add QueryClientProvider wrapper

5. Add error boundaries for data layer failures [1h]
   - File: `src/components/ErrorBoundary.jsx`
   - Graceful degradation if IndexedDB unavailable

## Dependencies
None

## Estimate
12 hours / 3 story points
"
      ["story"; "P0-critical"; "backend"]
      (Some "v0.2.0 - Foundation");

    issue "Integrate React Query"
      "## Description
Set up React Query for data fetching, caching, and synchronization with IndexedDB.

## Business Value
Provides consistent data fetching patterns, automatic caching, and prepares for cloud sync integration.

## Acceptance Criteria
- [ ] QueryClient configured with sensible defaults
- [ ] All data operations use React Query hooks
- [ ] Optimistic updates for better UX
- [ ] Query invalidation works correctly
- [ ] DevTools available in development

## Sub-tasks
1. Configure QueryClient [1h]
   - File: `src/lib/queryClient.js`
   - Set default staleTime, cacheTime
   - Configure retry logic

2. Create query keys factory [1h]
   - File: `src/lib/queryKeys.js`
   - Consistent key structure

3. Add React Query DevTools [0.5h]
   - Conditional loading in development

## Dependencies
Requires: #2 (IndexedDB Migration)

## Estimate
2.5 hours / 1 story point
"
      ["story"; "P0-critical"; "backend"]
      (Some "v0.2.0 - Foundation");

    issue "Set Up Testing Infrastructure"
      "## Description
Establish testing framework and create initial test suite for critical functionality.

## Business Value
Ensures reliability, catches regressions, and enables confident refactoring.

## Acceptance Criteria
- [ ] Vitest configured for unit testing
- [ ] React Testing Library configured for component tests
- [ ] At least 80% coverage on data service layer
- [ ] CI runs tests on every push
- [ ] Test utilities for common scenarios

## Sub-tasks
1. Configure Vitest and React Testing Library [2h]
   - Add dev dependencies
   - Create `vitest.config.js`
   - Add test scripts to package.json

2. Create test utilities and mocks [2h]
   - File: `src/test/utils.jsx`
   - File: `src/test/mocks/db.js`

3. Write unit tests for data service [3h]
   - Test IndexedDB CRUD operations
   - Test migration logic

4. Write component tests for critical paths [4h]
   - Dashboard calculations
   - Form validation

## Dependencies
Requires: #2 (IndexedDB Migration)

## Estimate
11 hours / 3 story points
"
      ["story"; "P0-critical"; "testing"]
      (Some "v0.2.0 - Foundation");

    issue "Configure GitHub Actions CI/CD"
      "## Description
Set up automated testing and deployment pipeline.

## Business Value
Ensures code quality, automates deployment, and enables team collaboration.

## Acceptance Criteria
- [ ] Tests run on every PR
- [ ] Lint checks run on every PR
- [ ] Build succeeds before merge
- [ ] Auto-deploy to GitHub Pages on main branch merge
- [ ] Branch protection rules configured

## Sub-tasks
1. Create CI workflow [2h]
   - File: `.github/workflows/ci.yml`
   - Run lint, type check, tests

2. Create CD workflow [2h]
   - File: `.github/workflows/deploy.yml`
   - Build for production
   - Deploy to GitHub Pages

3. Configure branch protection [0.5h]
   - Require PR reviews
   - Require status checks

## Dependencies
Requires: #4 (Testing Infrastructure)

## Estimate
4.5 hours / 1 story point
"
      ["story"; "P0-critical"; "infrastructure"]
      (Some "v0.2.0 - Foundation");

    issue "Epic 2: PWA and Offline Functionality"
      "## Description
Complete PWA implementation for installable, offline-capable application.

## Goals
- Make app installable on all platforms
- Enable full offline functionality
- Add sync status indicators
- Proper service worker caching

## Success Criteria
- [ ] App installable on iOS, Android, desktop
- [ ] Works fully offline after first load
- [ ] Users see connection status
- [ ] Auto-updates when new version available

## Stories
- #6 - Complete PWA Configuration
- #7 - Offline Status Indicator
"
      ["epic"; "P0-critical"; "pwa"]
      (Some "v0.2.0 - Foundation");

    issue "Complete PWA Configuration"
      "## Description
Finalize PWA manifest and service worker for app installation and offline use.

## Business Value
Users can install the app on their devices and use it without internet connection.

## Acceptance Criteria
- [ ] App is installable on iOS, Android, and desktop
- [ ] Proper icons for all platforms (192px, 512px, maskable)
- [ ] Splash screen configured
- [ ] Works offline after first load
- [ ] Updates automatically when new version available

## Sub-tasks
1. Create proper PWA icons [2h]
   - Generate PNG icons: 192x192, 512x512
   - Create maskable icons for Android

2. Update PWA manifest [1h]
   - File: `vite.config.js` VitePWA configuration
   - Add all icon variations

3. Configure service worker caching strategy [2h]
   - Cache static assets
   - NetworkFirst for API calls

4. Add PWA install prompt [2h]
   - File: `src/components/InstallPrompt.jsx`
   - Detect installability

5. Test PWA on multiple platforms [2h]
   - iOS Safari, Android Chrome, Desktop

## Dependencies
Requires: #2 (IndexedDB Migration)

## Estimate
9 hours / 2 story points
"
      ["story"; "P0-critical"; "pwa"]
      (Some "v0.2.0 - Foundation");

    issue "Add Offline Status Indicator"
      "## Description
Show users their online/offline status and sync state.

## Business Value
Users understand when data will sync and can trust the app to work offline.

## Acceptance Criteria
- [ ] Visual indicator when offline
- [ ] Indicator when data is syncing
- [ ] Toast notification on connection change
- [ ] Graceful handling of failed operations

## Sub-tasks
1. Create online status hook [1h]
   - File: `src/hooks/useOnlineStatus.js`
   - Track navigator.onLine

2. Create status indicator component [2h]
   - File: `src/components/ConnectionStatus.jsx`
   - Subtle banner when offline

3. Add toast notifications [2h]
   - Notify on connection loss/recovery

## Dependencies
Requires: #6 (PWA Configuration)

## Estimate
5 hours / 1 story point
"
      ["story"; "P0-critical"; "pwa"; "frontend"]
      (Some "v0.2.0 - Foundation");

    issue "Epic 3: Core Feature Enhancements"
      "## Description
Enhance existing features and add commonly requested functionality.

## Goals
- Date range filtering for historical data
- Donation categories for organization
- Recurring income support
- Multi-currency support

## Success Criteria
- [ ] Users can view data for custom date ranges
- [ ] Donations categorized by recipient type
- [ ] Automatic recurring income entries
- [ ] Support for multiple currencies

## Stories
- #8 - Date Range Filtering
- #9 - Donation Categories
- #10 - Recurring Income Support
- #11 - Multi-Currency Support
"
      ["epic"; "P1-high"; "frontend"; "backend"]
      (Some "v0.3.0 - Core Features");

    issue "Add Date Range Filtering"
      "## Description
Allow users to view entries and statistics for custom date ranges, not just current month.

## Business Value
Users can review historical data and track year-to-date obligations.

## Acceptance Criteria
- [ ] Date range picker on Dashboard and History
- [ ] Preset options: This month, Last month, This year, Custom
- [ ] Statistics recalculate for selected range
- [ ] Selection persists during session
- [ ] Hebrew/English date formats supported

## Sub-tasks
1. Create DateRangePicker component [3h]
   - File: `src/components/DateRangePicker.jsx`
   - MUI DatePicker integration
   - Bilingual date formatting

2. Update Dashboard for date filtering [2h]
   - Accept dateRange prop
   - Recalculate stats

3. Update History for date filtering [2h]
   - Filter entries by range

4. Create date range context [1h]
   - File: `src/contexts/DateRangeContext.jsx`
   - Share selected range

## Dependencies
Requires: #2 (IndexedDB Migration)

## Estimate
8 hours / 2 story points
"
      ["story"; "P1-high"; "frontend"]
      (Some "v0.3.0 - Core Features");

    issue "Add Categories for Donations"
      "## Description
Allow users to categorize donations by recipient type (synagogue, charity, individual, etc.).

## Business Value
Users can track where their tzedakah goes and report for tax purposes.

## Acceptance Criteria
- [ ] Predefined categories in Hebrew/English
- [ ] Optional custom categories
- [ ] Category selection in donation form
- [ ] Category visible in History
- [ ] Filter/group by category in reports

## Sub-tasks
1. Define category data structure [1h]
   - Predefined categories with translations

2. Update IndexedDB schema [2h]
   - Add category field
   - Migration for existing entries

3. Update AddDonation form [2h]
   - Category dropdown with icons

4. Update History display [1h]
   - Show category chip

5. Add category breakdown to Dashboard [2h]
   - Pie chart or list

## Dependencies
Requires: #2 (IndexedDB Migration)

## Estimate
8 hours / 2 story points
"
      ["story"; "P1-high"; "frontend"; "backend"]
      (Some "v0.3.0 - Core Features");

    issue "Add Recurring Income Support"
      "## Description
Allow users to set up recurring income entries that automatically create entries.

## Business Value
Reduces manual entry for salaried users, ensures consistent tracking.

## Acceptance Criteria
- [ ] Define recurring income (monthly, bi-weekly, weekly)
- [ ] Auto-generate entries on schedule
- [ ] Edit/delete recurring templates
- [ ] Visual indicator for auto-generated entries
- [ ] Option to skip specific occurrences

## Sub-tasks
1. Design recurring entry schema [2h]
   - Separate `recurringTemplates` store

2. Create RecurringIncomeForm component [3h]
   - File: `src/components/RecurringIncome.jsx`
   - Frequency selector

3. Implement entry generation logic [3h]
   - File: `src/services/recurring.js`
   - Check on app load

4. Add recurring section to Dashboard [2h]
   - Show active recurring entries

## Dependencies
Requires: #2, #8

## Estimate
10 hours / 3 story points
"
      ["story"; "P1-high"; "frontend"; "backend"]
      (Some "v0.3.0 - Core Features");

    issue "Multi-Currency Support"
      "## Description
Allow users to enter income and donations in multiple currencies.

## Business Value
Users with international income can track accurately without manual conversion.

## Acceptance Criteria
- [ ] Currency selector in forms (ILS default)
- [ ] Common currencies: USD, EUR, GBP, ILS
- [ ] Manual exchange rate entry
- [ ] All calculations in base currency (ILS)
- [ ] Display original + converted amounts

## Sub-tasks
1. Update entry schema for currency [1h]
   - Add `currency` and `originalAmount` fields

2. Create currency selector component [2h]
   - File: `src/components/CurrencyInput.jsx`

3. Update forms with currency support [2h]
   - AddIncome/AddDonation

4. Update Dashboard calculations [2h]
   - Convert all to base currency

5. Add settings for default currency [1h]
   - User preference

## Dependencies
Requires: #2

## Estimate
8 hours / 2 story points
"
      ["story"; "P1-high"; "frontend"; "backend"; "i18n"]
      (Some "v0.3.0 - Core Features");

    issue "Epic 4: User Preferences and Settings"
      "## Description
Add settings screen and user preferences persistence.

## Goals
- Comprehensive settings page
- Theme customization (light/dark)
- Configurable ma'aser percentage
- Data export/import capabilities

## Success Criteria
- [ ] Settings page accessible from app bar
- [ ] All preferences persist across sessions
- [ ] Users can backup/restore data
- [ ] Dark mode support

## Stories
- #12 - Create Settings Screen
- #13 - Data Export/Import
"
      ["epic"; "P1-high"; "frontend"]
      (Some "v0.3.0 - Core Features");

    issue "Create Settings Screen"
      "## Description
Add a settings page for user preferences.

## Business Value
Users can customize the app to their needs without changing code.

## Acceptance Criteria
- [ ] Accessible from app bar menu
- [ ] Language selection
- [ ] Default currency
- [ ] Ma'aser percentage (10% default, allow custom)
- [ ] Theme selection (light/dark/auto)
- [ ] Settings persist across sessions

## Sub-tasks
1. Create Settings component [3h]
   - File: `src/components/Settings.jsx`
   - Form with all preferences

2. Create settings context and hook [2h]
   - File: `src/contexts/SettingsContext.jsx`
   - Load from DB on mount

3. Add settings navigation [1h]
   - Settings icon in app bar

4. Implement dark mode [2h]
   - MUI theme switcher

5. Make ma'aser percentage configurable [2h]
   - Update calculations

## Dependencies
Requires: #2

## Estimate
10 hours / 3 story points
"
      ["story"; "P1-high"; "frontend"]
      (Some "v0.3.0 - Core Features");

    issue "Add Data Export/Import"
      "## Description
Allow users to export and import their data for backup and transfer.

## Business Value
Users can backup data, transfer to new device, and use data in spreadsheets.

## Acceptance Criteria
- [ ] Export to JSON file
- [ ] Export to CSV file
- [ ] Import from JSON
- [ ] Merge or replace options
- [ ] Validation on import

## Sub-tasks
1. Create export utilities [2h]
   - File: `src/services/export.js`
   - Export to JSON/CSV

2. Create import utilities [3h]
   - File: `src/services/import.js`
   - Parse and validate

3. Add export/import UI in Settings [2h]
   - Buttons and file picker

## Dependencies
Requires: #12

## Estimate
7 hours / 2 story points
"
      ["story"; "P1-high"; "backend"]
      (Some "v0.3.0 - Core Features");

    issue "Epic 5: Cloud Sync with Google"
      "## Description
Optional Google authentication and cloud backup/sync.

## Goals
- Google OAuth integration
- Automatic sync to Google Sheets
- Multi-device support
- Cloud backup

## Success Criteria
- [ ] Users can sign in with Google
- [ ] Data syncs to Google Sheets
- [ ] Works across multiple devices
- [ ] Offline-first with eventual sync

## Stories
- #14 - Implement Google OAuth
- #15 - Google Sheets Sync
"
      ["epic"; "P2-medium"; "backend"]
      (Some "v0.4.0 - Cloud & Analytics");

    issue "Implement Google OAuth"
      "## Description
Add Google sign-in for cloud features.

## Business Value
Users can sync data across devices and have cloud backup.

## Acceptance Criteria
- [ ] Google sign-in button in settings
- [ ] OAuth flow completes successfully
- [ ] User profile displayed when signed in
- [ ] Sign out functionality
- [ ] Token refresh handling
- [ ] Works without sign-in (offline-first)

## Sub-tasks
1. Configure Google OAuth client [2h]
   - Create Google Cloud project
   - Generate client ID

2. Implement OAuth flow [3h]
   - File: `src/services/auth.js`
   - Using @react-oauth/google

3. Create AuthContext [2h]
   - File: `src/contexts/AuthContext.jsx`

4. Add sign-in UI [2h]
   - Settings integration

## Dependencies
Requires: #12

## Estimate
9 hours / 2 story points
"
      ["story"; "P2-medium"; "backend"]
      (Some "v0.4.0 - Cloud & Analytics");

    issue "Google Sheets Sync"
      "## Description
Sync data to Google Sheets for backup and advanced analysis.

## Business Value
Users get automatic cloud backup and can analyze data in familiar spreadsheet interface.

## Acceptance Criteria
- [ ] Create dedicated spreadsheet on first sync
- [ ] Bi-directional sync
- [ ] Conflict resolution (last-write-wins)
- [ ] Manual sync trigger
- [ ] Sync status indicator

## Sub-tasks
1. Implement Google Sheets API integration [4h]
   - File: `src/services/sheets.js`

2. Create sync engine [4h]
   - File: `src/services/sync.js`
   - Track changes

3. Add sync UI [2h]
   - Sync button, status

4. Handle offline sync [2h]
   - Queue changes

## Dependencies
Requires: #14

## Estimate
12 hours / 3 story points
"
      ["story"; "P2-medium"; "backend"]
      (Some "v0.4.0 - Cloud & Analytics");

    issue "Epic 6: Analytics and Reporting"
      "## Description
Add comprehensive reporting and analytics features.

## Goals
- Monthly/yearly summary reports
- Tax-ready documentation
- Charts and visualizations
- PDF export

## Success Criteria
- [ ] Generate monthly/yearly reports
- [ ] Tax reports with proper formatting
- [ ] Print-friendly layouts
- [ ] Hebrew/English reports

## Stories
- #16 - Monthly/Yearly Reports
- #17 - Tax Report Generation
"
      ["epic"; "P2-medium"; "frontend"]
      (Some "v0.4.0 - Cloud & Analytics");

    issue "Monthly/Yearly Reports"
      "## Description
Generate summary reports for different time periods.

## Business Value
Users can review giving patterns and prepare for tax reporting.

## Acceptance Criteria
- [ ] Monthly summary view
- [ ] Yearly summary view
- [ ] Print-friendly format
- [ ] PDF export option
- [ ] Hebrew/English reports

## Sub-tasks
1. Create ReportView component [4h]
   - File: `src/components/Reports.jsx`

2. Add charts [3h]
   - Income vs donation over time

3. Implement PDF export [3h]
   - Install jsPDF

4. Add reports navigation [1h]

## Dependencies
Requires: #8

## Estimate
11 hours / 3 story points
"
      ["story"; "P2-medium"; "frontend"]
      (Some "v0.4.0 - Cloud & Analytics");

    issue "Tax Report Generation"
      "## Description
Generate reports suitable for tax deduction documentation.

## Business Value
Users can easily provide documentation for charitable donation tax deductions.

## Acceptance Criteria
- [ ] Summary by recipient/category
- [ ] Totals by tax year
- [ ] Print-ready format
- [ ] Include donation dates and amounts
- [ ] Option to include notes

## Sub-tasks
1. Create TaxReport component [4h]
   - File: `src/components/TaxReport.jsx`

2. Add tax-specific formatting [2h]
   - Formal document layout

3. PDF generation [2h]
   - Receipt numbers

## Dependencies
Requires: #16, #9

## Estimate
8 hours / 2 story points
"
      ["story"; "P2-medium"; "frontend"]
      (Some "v0.4.0 - Cloud & Analytics");

    issue "Epic 7: Polish and UX Improvements"
      "## Description
UI/UX refinements and accessibility improvements.

## Goals
- WCAG 2.1 AA compliance
- Smooth animations
- Mobile haptic feedback
- Professional polish

## Success Criteria
- [ ] Passes accessibility audit
- [ ] Smooth transitions throughout
- [ ] Mobile-optimized experience

## Stories
- #18 - Improve Accessibility
- #19 - Add Animations and Transitions
- #20 - Haptic Feedback (Mobile)
"
      ["epic"; "P3-low"; "frontend"]
      (Some "v1.0.0 - Production Release");

    issue "Improve Accessibility"
      "## Description
Ensure app meets WCAG 2.1 AA standards.

## Acceptance Criteria
- [ ] All interactive elements keyboard accessible
- [ ] Proper ARIA labels
- [ ] Color contrast compliance
- [ ] Screen reader compatible
- [ ] Focus management

## Sub-tasks
1. Audit current accessibility [2h]
2. Fix contrast issues [2h]
3. Add ARIA labels [2h]
4. Test with screen reader [2h]

## Estimate
8 hours / 2 story points
"
      ["story"; "P3-low"; "frontend"]
      (Some "v1.0.0 - Production Release");

    issue "Add Animations and Transitions"
      "## Description
Subtle animations to improve perceived performance and UX.

## Acceptance Criteria
- [ ] Page transitions
- [ ] Card hover effects
- [ ] Loading skeletons
- [ ] Success/error animations

## Sub-tasks
1. Add MUI transitions [2h]
2. Create loading skeletons [2h]
3. Add micro-interactions [2h]

## Estimate
6 hours / 1 story point
"
      ["story"; "P3-low"; "frontend"]
      (Some "v1.0.0 - Production Release");

    issue "Haptic Feedback (Mobile)"
      "## Description
Add vibration feedback for actions on mobile.

## Acceptance Criteria
- [ ] Vibrate on entry save
- [ ] Vibrate on delete
- [ ] Optional in settings

## Estimate
2 hours / 0.5 story points
"
      ["story"; "P3-low"; "frontend"]
      (Some "v1.0.0 - Production Release")
].

End Repo.

(** ** The outside world *)

(** [subprocess.CompletedProcess], captured as text. *)
Record CompletedProcess := {
  returncode : Z;
  stdout : str;
  stderr : str
}.

(** What a run does, in order: a process started with [argv] and awaited,
    with what it exited with; a line printed; a line printed to
    [sys.stderr]. *)
Inductive event : Type :=
  | EvSpawn (argv : list str) (p : CompletedProcess)
  | EvPrint (text : str)
  | EvPrintErr (text : str).

(** ** Effects: a trace of events, the world, and exceptions *)

Section Effects.
Context {World : Type}.

Definition M (A : Type) : Type := World -> list event * World * result A.

Definition ret {A} (a : A) : M A := fun w => ([], w, Ok a).

Definition lift {A} (r : result A) : M A := fun w => ([], w, r).

Definition bind {A B} (m : M A) (k : A -> M B) : M B := fun w =>
  match m w with
  | (t1, w1, Ok a) => let '(t2, w2, r) := k a w1 in (t1 ++ t2, w2, r)
  | (t1, w1, Raise e) => (t1, w1, Raise e)
  end.

(** [try: m  except <handled>: h]; [handler e = None] when the [except]
    clause does not match [e], which then keeps propagating. *)
Definition try_except {A} (m : M A) (handler : exn -> option (M A)) : M A :=
  fun w =>
    match m w with
    | (t1, w1, Ok a) => (t1, w1, Ok a)
    | (t1, w1, Raise e) =>
        match handler e with
        | Some h => let '(t2, w2, r) := h w1 in (t1 ++ t2, w2, r)
        | None => (t1, w1, Raise e)
        end
    end.

(** [print(text)]: the line is written, or nothing is and the encoder
    raises. *)
Definition print (text : str) : M unit := fun w =>
  if printable text then ([EvPrint text], w, Ok tt)
  else ([], w, Raise ValueError).

(** [print(text, file=sys.stderr)] *)
Definition print_stderr (text : str) : M unit :=
  fun w => ([EvPrintErr text], w, Ok tt).

(** [for x in xs: body], the loop state threaded through the iterations;
    an exception leaves the loop at once. *)
Fixpoint for_each {A S} (xs : list A) (body : A -> S -> M S) (s : S) : M S :=
  match xs with
  | [] => ret s
  | x :: xs' => bind (body x s) (for_each xs' body)
  end.
End Effects.

Notation "x <- m ;; k" := (bind m (fun x => k))
  (at level 90, m at next level, right associativity).
Notation "m ;;; k" := (bind m (fun _ => k))
  (at level 90, right associativity).

(** [enumerate(xs, start)] *)
Fixpoint enumerate {A} (start : nat) (xs : list A) : list (nat * A) :=
  match xs with
  | [] => []
  | x :: xs' => (start, x) :: enumerate (S start) xs'
  end.

(** The outcome of a computation: its events, the world it leaves, and its
    value or the exception that escaped. *)
Definition events {W A} (o : list event * W * result A) : list event := o.1.1.
Definition world_after {W A} (o : list event * W * result A) : W := o.1.2.
Definition value {W A} (o : list event * W * result A) : result A := o.2.

(** The argument vectors of the processes a trace started, in order. *)
Fixpoint spawned (t : list event) : list (list str) :=
  match t with
  | EvSpawn argv _ :: t' => argv :: spawned t'
  | _ :: t' => spawned t'
  | [] => []
  end.

(** The captured standard error of the processes of a trace that exited
    with a non-zero code, in order. *)
Fixpoint failed_stderr (t : list event) : list str :=
  match t with
  | EvSpawn _ p :: t' =>
      if (returncode p =? 0)%Z then failed_stderr t'
      else stderr p :: failed_stderr t'
  | _ :: t' => failed_stderr t'
  | [] => []
  end.

(** What a trace wrote to standard output and to the error stream. *)
Fixpoint printed (t : list event) : list str :=
  match t with
  | EvPrint s :: t' => s :: printed t'
  | _ :: t' => printed t'
  | [] => []
  end.

Fixpoint printed_stderr (t : list event) : list str :=
  match t with
  | EvPrintErr s :: t' => s :: printed_stderr t'
  | _ :: t' => printed_stderr t'
  | [] => []
  end.

(** ** The driver *)

Section Driver.
Context {World : Type}.

(** The world's answer to starting [argv] and waiting for it. *)
Variable spawn : World -> list str -> CompletedProcess * World.

(** [json.loads] and the builtin [str] on what it decoded. *)
Variable json_loads : str -> result pyval.
Variable py_str : pyval -> str.

(** The module-level record lists, read as globals by the functions. *)
Variable LABELS : list LabelSpec.
Variable MILESTONES : list MilestoneSpec.
Variable ISSUES : list IssueSpec.

(** [subprocess.run(argv, capture_output=True, text=True, check=True)]:
    when an argument cannot be passed the call raises and no process is
    started; otherwise the process runs to its end, and a non-zero exit code
    is raised as [CalledProcessError]. *)
Definition subprocess_run (argv : list str) : M CompletedProcess := fun w =>
  if forallb passable argv then
    let '(p, w') := spawn w argv in
    ([EvSpawn argv p], w',
     if (returncode p =? 0)%Z then Ok p
     else Raise (CalledProcessError (returncode p) (stdout p) (stderr p)))
  else ([], w, Raise ValueError).

(** [None] stands for Python's [None], [Some text] for the stripped
    output. Only [CalledProcessError] is caught. *)
Definition run_gh_command (args : list str) : M (option str) :=
  try_except
    (result <- subprocess_run ([py "gh"] ++ args) ;;
     ret (Some (strip (stdout result))))
    (fun e =>
       match e with
       | CalledProcessError _ _ e_stderr =>
           Some (print_stderr (py "Error running gh command: " ++ e_stderr) ;;;
                 ret None)
       | _ => None
       end).

Definition label_args (label : LabelSpec) : list str :=
  [py "label"; py "create";
   label_name label;
   py "--color"; label_color label;
   py "--description"; label_description label;
   py "--repo"; owner_repo;
   py "--force"].

(** The body of the loop of [create_labels]. *)
Definition create_label (label : LabelSpec) (_ : unit) : M unit :=
  result <- run_gh_command (label_args label) ;;
  if is_not_none result
  then print (py "  " ++ check_mark ++ py " Created label: " ++ label_name label)
  else ret tt.

Definition create_labels : M unit :=
  print (py "Creating labels...") ;;;
  for_each LABELS create_label tt.

Definition milestone_args (milestone : MilestoneSpec) : list str :=
  [py "api";
   py "/repos/" ++ OWNER ++ py "/" ++ REPO ++ py "/milestones";
   py "-f"; py "title=" ++ milestone_title milestone;
   py "-f"; py "description=" ++ milestone_description milestone;
   py "-f"; py "state=open"].

(** The body of the loop of [create_milestones], on the dict it fills.
    [if result:] holds of a string that is not empty. *)
Definition create_milestone (milestone : MilestoneSpec)
    (milestone_numbers : gmap str pyval) : M (gmap str pyval) :=
  result <- run_gh_command (milestone_args milestone) ;;
  match result with
  | Some ((_ :: _) as text) =>
      data <- lift (json_loads text) ;;
      number <- lift (getitem data (py "number")) ;;
      let milestone_numbers := <[milestone_title milestone := number]> milestone_numbers in
      print (py "  " ++ check_mark ++ py " Created milestone: "
             ++ milestone_title milestone ++ py " (#" ++ py_str number ++ py ")") ;;;
      ret milestone_numbers
  | _ => ret milestone_numbers
  end.

Definition create_milestones : M (gmap str pyval) :=
  print (newline ++ py "Creating milestones...") ;;;
  for_each MILESTONES create_milestone ∅.

(** [milestone_arg]: the two arguments when ["milestone" in issue] and
    [issue["milestone"] in milestone_numbers], and the empty list otherwise. *)
Definition milestone_arg (milestone_numbers : gmap str pyval)
    (issue : IssueSpec) : list str :=
  match issue_milestone issue with
  | Some title =>
      match milestone_numbers !! title with
      | Some number => [py "--milestone"; py_str number]
      | None => []
      end
  | None => []
  end.

(** [args]: the fixed part, then [milestone_arg]. *)
Definition issue_base_args (issue : IssueSpec) : list str :=
  [py "issue"; py "create";
   py "--title"; issue_title issue;
   py "--body"; issue_body issue;
   py "--label"; join comma (issue_labels issue);
   py "--repo"; owner_repo].

Definition issue_args (milestone_numbers : gmap str pyval)
    (issue : IssueSpec) : list str :=
  issue_base_args issue ++ milestone_arg milestone_numbers issue.

(** The body of the loop of [create_issues] on one item of
    [enumerate(ISSUES, 1)], whose index it does not use. *)
Definition create_issue (milestone_numbers : gmap str pyval)
    (i_issue : nat * IssueSpec) (issue_numbers : gmap str str)
    : M (gmap str str) :=
  let issue := i_issue.2 in
  result <- run_gh_command (issue_args milestone_numbers issue) ;;
  match result with
  | Some ((_ :: _) as text) =>
      issue_number <- lift (getitem_last (split slash text)) ;;
      let issue_numbers := <[issue_title issue := issue_number]> issue_numbers in
      print (py "  " ++ check_mark ++ py " Created issue #" ++ issue_number
             ++ py ": " ++ issue_title issue) ;;;
      ret issue_numbers
  | _ => ret issue_numbers
  end.

Definition create_issues (milestone_numbers : gmap str pyval)
    : M (gmap str str) :=
  print (newline ++ py "Creating issues...") ;;;
  for_each (enumerate 1 ISSUES) (create_issue milestone_numbers) ∅.

Definition main : M unit :=
  print (py "Setting up GitHub issues for " ++ owner_repo ++ newline) ;;;
  create_labels ;;;
  milestone_numbers <- create_milestones ;;
  issue_numbers <- create_issues milestone_numbers ;;
  print (newline ++ white_check_mark ++ py " Setup complete!") ;;;
  print (py "   Created " ++ str_of_nat (length LABELS) ++ py " labels") ;;;
  print (py "   Created " ++ str_of_nat (length MILESTONES) ++ py " milestones") ;;;
  print (py "   Created " ++ str_of_nat (size issue_numbers) ++ py " issues") ;;;
  print (newline ++ py "View at: https://github.com/" ++ owner_repo ++ py "/issues").

(** The status the interpreter exits with after [main()]: 0 when it
    returns, 1 when an exception escapes it. *)
Definition exit_status (r : result unit) : Z :=
  match r with
  | Ok _ => 0
  | Raise _ => 1
  end.

End Driver.

(** ** A runtime to run the driver on

    The theorems below hold for every [json_loads] and [py_str]. To evaluate
    the driver on concrete runs, [JsonRef.loads] decodes a JSON text the way
    [json.loads] does (objects, arrays, strings with their escapes, numbers,
    [true], [false], [null] and the three non-finite literals it also
    accepts; a repeated key keeps its last value; an int of more than 4300
    digits raises [ValueError]), except that it puts no bound on the depth
    of nesting, where CPython raises [RecursionError] at a depth that
    depends on the interpreter; and [JsonRef.to_str] is [str] on [None],
    bools, ints and strings only. The runs below decode flat objects and
    print ints and strings. *)

Module JsonRef.

Definition is_ws (c : N) : bool :=
  ((c =? 32) || (c =? 9) || (c =? 10) || (c =? 13))%N.

Fixpoint skip_ws (s : str) : str :=
  match s with
  | c :: s' => if is_ws c then skip_ws s' else s
  | [] => []
  end.

Definition is_digit (c : N) : bool := ((48 <=? c) && (c <=? 57))%N.

Definition hex_digit (c : N) : option N :=
  if is_digit c then Some (c - 48)%N
  else if ((65 <=? c) && (c <=? 70))%N then Some (c - 55)%N
  else if ((97 <=? c) && (c <=? 102))%N then Some (c - 87)%N
  else None.

(** Four hexadecimal digits of a u-escape. *)
Definition hex4 (s : str) : option (N * str) :=
  match s with
  | a :: b :: c :: d :: rest =>
      match hex_digit a, hex_digit b, hex_digit c, hex_digit d with
      | Some a, Some b, Some c, Some d =>
          Some (((a * 16 + b) * 16 + c) * 16 + d, rest)%N
      | _, _, _, _ => None
      end
  | _ => None
  end.

Definition simple_escape (c : N) : option N :=
  if (c =? 34)%N then Some 34%N            (* quotation mark *)
  else if (c =? 92)%N then Some 92%N       (* reverse solidus *)
  else if (c =? 47)%N then Some 47%N       (* solidus *)
  else if (c =? 98)%N then Some 8%N        (* b: backspace *)
  else if (c =? 102)%N then Some 12%N      (* f: form feed *)
  else if (c =? 110)%N then Some 10%N      (* n: line feed *)
  else if (c =? 114)%N then Some 13%N      (* r: carriage return *)
  else if (c =? 116)%N then Some 9%N       (* t: tab *)
  else None.

(** The text of a string after its opening quote; [acc] is reversed. A
    high surrogate followed by an escaped low surrogate is one code point. *)
Fixpoint scan_string (fuel : nat) (s : str) (acc : str) : option (str * str) :=
  match fuel with
  | O => None
  | S fuel =>
      match s with
      | [] => None
      | c :: s' =>
          if (c =? 34)%N then Some (rev acc, s')
          else if (c <? 32)%N then None
          else if (c =? 92)%N then
            match s' with
            | [] => None
            | e :: s'' =>
                if (e =? 117)%N then
                  match hex4 s'' with
                  | None => None
                  | Some (u, rest) =>
                      if ((55296 <=? u) && (u <=? 56319))%N then
                        match rest with
                        | 92%N :: 117%N :: rest2 =>
                            match hex4 rest2 with
                            | Some (u2, rest3) =>
                                if ((56320 <=? u2) && (u2 <=? 57343))%N then
                                  scan_string fuel rest3
                                    ((65536 + (u - 55296) * 1024 + (u2 - 56320))%N :: acc)
                                else scan_string fuel rest (u :: acc)
                            | None => scan_string fuel rest (u :: acc)
                            end
                        | _ => scan_string fuel rest (u :: acc)
                        end
                      else scan_string fuel rest (u :: acc)
                  end
                else
                  match simple_escape e with
                  | Some x => scan_string fuel s'' (x :: acc)
                  | None => None
                  end
            end
          else scan_string fuel s' (c :: acc)
      end
  end.

Fixpoint take_digits (s : str) : str * str :=
  match s with
  | c :: s' =>
      if is_digit c then let '(ds, rest) := take_digits s' in (c :: ds, rest)
      else ([], s)
  | [] => ([], [])
  end.

Definition digits_value (ds : str) : Z :=
  fold_left (fun v c => (v * 10 + Z.of_N (c - 48))%Z) ds 0%Z.

(** A number: an optional minus sign, then 0 or a digit string that does
    not start with 0, then an optional fraction (a dot and digits) and an
    optional exponent (e or E, an optional sign, digits). Without fraction
    and exponent it is an int, else a float kept as its numeral. An int of
    more than 4300 digits is refused by the conversion to [int]. *)
Definition scan_number (s : str) : result (pyval * str) :=
  let '(neg, s1) := match s with
                    | 45%N :: s1 => (true, s1)
                    | _ => (false, s)
                    end in
  let '(ds, s2) := take_digits s1 in
  let '(int_ds, s2) := match ds with
                       | 48%N :: _ :: _ => ([48%N], drop 1 s1)
                       | _ => (ds, s2)
                       end in
  match int_ds with
  | [] => Raise JSONDecodeError
  | _ =>
      let '(frac, s3) :=
        match s2 with
        | 46%N :: s2' =>
            match take_digits s2' with
            | ([], _) => ([], s2)
            | (fs, rest) => (46%N :: fs, rest)
            end
        | _ => ([], s2)
        end in
      let '(expo, s4) :=
        match s3 with
        | e :: s3' =>
            if ((e =? 101) || (e =? 69))%N then
              let '(sign, s3'') :=
                match s3' with
                | sg :: r => if ((sg =? 43) || (sg =? 45))%N then ([sg], r) else ([], s3')
                | [] => ([], s3')
                end in
              match take_digits s3'' with
              | ([], _) => ([], s3)
              | (es, rest) => (e :: sign ++ es, rest)
              end
            else ([], s3)
        | [] => ([], s3)
        end in
      match frac, expo with
      | [], [] =>
          if 4300 <? length int_ds then Raise ValueError
          else Ok (PInt (if neg then - digits_value int_ds else digits_value int_ds)%Z, s4)
      | _, _ =>
          Ok (PFloat ((if neg then [45%N] else []) ++ int_ds ++ frac ++ expo), s4)
      end
  end.

(** [s] starts with the literal [lit]: what follows it. *)
Fixpoint after_prefix (lit s : str) : option str :=
  match lit, s with
  | [], _ => Some s
  | a :: lit', b :: s' => if (a =? b)%N then after_prefix lit' s' else None
  | _ :: _, [] => None
  end.

Definition literals : list (str * pyval) :=
  [(py "null", PNone); (py "true", PBool true); (py "false", PBool false);
   (py "NaN", PFloat (py "NaN")); (py "Infinity", PFloat (py "Infinity"));
   (py "-Infinity", PFloat (py "-Infinity"))].

Fixpoint scan_literal (lits : list (str * pyval)) (s : str)
    : option (pyval * str) :=
  match lits with
  | [] => None
  | (lit, v) :: lits' =>
      match after_prefix lit s with
      | Some rest => Some (v, rest)
      | None => scan_literal lits' s
      end
  end.

(** One value at the head of [s], and the rest of the text. The members of
    an object and the items of an array are read by the two inner loops. *)
Fixpoint scan_value (fuel : nat) (s : str) : result (pyval * str) :=
  match fuel with
  | O => Raise JSONDecodeError
  | S fuel =>
      let fix members (n : nat) (s : str) (d : gmap str pyval)
          : result (pyval * str) :=
        match n with
        | O => Raise JSONDecodeError
        | S n =>
            match s with
            | 34%N :: s1 =>
                match scan_string (S (length s1)) s1 [] with
                | None => Raise JSONDecodeError
                | Some (key, s2) =>
                    match skip_ws s2 with
                    | 58%N :: s3 =>
                        match scan_value fuel (skip_ws s3) with
                        | Raise e => Raise e
                        | Ok (v, s4) =>
                            match skip_ws s4 with
                            | 125%N :: rest => Ok (PDict (<[key := v]> d), rest)
                            | 44%N :: s5 => members n (skip_ws s5) (<[key := v]> d)
                            | _ => Raise JSONDecodeError
                            end
                        end
                    | _ => Raise JSONDecodeError
                    end
                end
            | _ => Raise JSONDecodeError
            end
        end in
      let fix items (n : nat) (s : str) (acc : list pyval)
          : result (pyval * str) :=
        match n with
        | O => Raise JSONDecodeError
        | S n =>
            match scan_value fuel s with
            | Raise e => Raise e
            | Ok (v, s1) =>
                match skip_ws s1 with
                | 93%N :: rest => Ok (PList (rev (v :: acc)), rest)
                | 44%N :: s2 => items n (skip_ws s2) (v :: acc)
                | _ => Raise JSONDecodeError
                end
            end
        end in
      match s with
      | [] => Raise JSONDecodeError
      | 34%N :: s1 =>
          match scan_string (S (length s1)) s1 [] with
          | Some (t, rest) => Ok (PStr t, rest)
          | None => Raise JSONDecodeError
          end
      | 123%N :: s1 =>
          match skip_ws s1 with
          | 125%N :: rest => Ok (PDict ∅, rest)
          | s2 => members (S (length s2)) s2 ∅
          end
      | 91%N :: s1 =>
          match skip_ws s1 with
          | 93%N :: rest => Ok (PList [], rest)
          | s2 => items (S (length s2)) s2 []
          end
      | _ =>
          match scan_literal literals s with
          | Some r => Ok r
          | None => scan_number s
          end
      end
  end.

(** [json.loads(s)]: one value, with whitespace around it and nothing else. *)
Definition loads (s : str) : result pyval :=
  match scan_value (S (length s)) (skip_ws s) with
  | Ok (v, rest) =>
      match skip_ws rest with
      | [] => Ok v
      | _ => Raise JSONDecodeError
      end
  | Raise e => Raise e
  end.

(** [str(v)] for [None], a bool, an int and a str. A float and a
    container, which Python prints as their [repr], are not rendered. *)
Definition to_str (v : pyval) : str :=
  match v with
  | PNone => py "None"
  | PBool true => py "True"
  | PBool false => py "False"
  | PInt z => str_of_int z
  | PStr s => s
  | PFloat _ | PList _ | PDict _ => []
  end.

End JsonRef.

(** A world that answers the n-th process of the run with the n-th entry of
    a script, whatever the arguments, and with a plain success once the
    script is used up. The world is the number of processes started so far. *)
Module Scripted.

Definition exited (rc : Z) (out err : string) : CompletedProcess :=
  {| returncode := rc; stdout := py out; stderr := py err |}.

Definition spawn (script : list CompletedProcess) (w : nat) (argv : list str)
    : CompletedProcess * nat :=
  (nth w script (exited 0 "" ""), S w).

End Scripted.

(** A JSON text written with an apostrophe for each quotation mark. *)
Definition json_text (s : string) : str :=
  (λ c, if (c =? 39)%N then 34%N else c) <$> py s.
Arguments json_text s%_string.

(** A small model of the service behind [gh]: it numbers the milestones and
    the issues it creates, answers [gh api] with the JSON object of the new
    milestone, [gh issue create] with the URL of the new issue and
    [gh label create] with no output, and exits with code 1 on the requests
    that [refuse] selects. *)
Module Service.

Record state := {
  milestones_created : nat;
  issues_created : nat
}.

Definition initial : state := {| milestones_created := 0; issues_created := 0 |}.

Definition refused : CompletedProcess :=
  {| returncode := 1; stdout := [];
     stderr := py "HTTP 422: Validation Failed" ++ newline |}.

Definition spawn (refuse : list str → bool) (w : state) (argv : list str)
    : CompletedProcess * state :=
  if refuse argv then (refused, w)
  else if bool_decide (argv !! 1 = Some (py "api")) then
    let n := S (milestones_created w) in
    ({| returncode := 0;
        stdout := json_text "{'url': 'https://api.github.com/repos/DubiWork/maaser-tracker/milestones/"
                  ++ str_of_nat n ++ json_text "', 'number': " ++ str_of_nat n
                  ++ json_text ", 'state': 'open'}" ++ newline;
        stderr := [] |},
     {| milestones_created := n; issues_created := issues_created w |})
  else if bool_decide (argv !! 1 = Some (py "issue")) then
    let n := S (issues_created w) in
    ({| returncode := 0;
        stdout := py "https://github.com/DubiWork/maaser-tracker/issues/"
                  ++ str_of_nat n ++ newline;
        stderr := [] |},
     {| milestones_created := milestones_created w; issues_created := n |})
  else ({| returncode := 0; stdout := []; stderr := [] |}, w).

(** Refuse the label [bug], the milestone [v0.3.0 - Core Features] and the
    issue [Integrate React Query]. *)
Definition refuse_some (argv : list str) : bool :=
  bool_decide (argv !! 3 = Some (py "bug"))
  || bool_decide (argv !! 4 = Some (py "title=v0.3.0 - Core Features"))
  || bool_decide (argv !! 4 = Some (py "Integrate React Query")).

End Service.

(** ** The statements under study *)

(** The processes of a trace, as they exited, in order. *)
Fixpoint replies (t : list event) : list CompletedProcess :=
  match t with
  | EvSpawn _ p :: t' => p :: replies t'
  | _ :: t' => replies t'
  | [] => []
  end.

(** The line the error stream receives for a failed command. *)
Definition error_line (e_stderr : str) : str :=
  py "Error running gh command: " ++ e_stderr.

(** The error stream holds one line per failed process and nothing else. *)
Definition stderr_reports_failures (t : list event) : Prop :=
  printed_stderr t = error_line <$> failed_stderr t.

(** A reply to a milestone request that [create_milestones] can digest: a
    failure, an empty output, or a JSON object with a ["number"] member. *)
Definition digestible (json_loads : str → result pyval) (p : CompletedProcess)
    : bool :=
  if (returncode p =? 0)%Z then
    match strip (stdout p) with
    | [] => true
    | text =>
        match json_loads text with
        | Ok (PDict d) =>
            match d !! py "number" with
            | Some _ => true
            | None => false
            end
        | _ => false
        end
    end
  else true.

Section Statements.
Context {World : Type}.
Variable spawn : World → list str → CompletedProcess * World.
Variable json_loads : str → result pyval.
Variable py_str : pyval → str.
Variable LABELS : list LabelSpec.
Variable MILESTONES : list MilestoneSpec.
Variable ISSUES : list IssueSpec.

(** The command lines of the three phases, one per record, in declaration
    order. *)
Definition label_commands : list (list str) :=
  (λ label, [py "gh"] ++ label_args label) <$> LABELS.

Definition milestone_commands : list (list str) :=
  (λ milestone, [py "gh"] ++ milestone_args milestone) <$> MILESTONES.

Definition issue_commands (milestone_numbers : gmap str pyval)
    : list (list str) :=
  (λ issue, [py "gh"] ++ issue_args py_str milestone_numbers issue) <$> ISSUES.

(** The first line [main] prints, and the five it ends with. *)
Definition banner : str :=
  py "Setting up GitHub issues for " ++ owner_repo ++ newline.

Definition summary (issue_numbers : gmap str str) : list str :=
  [newline ++ white_check_mark ++ py " Setup complete!";
   py "   Created " ++ str_of_nat (length LABELS) ++ py " labels";
   py "   Created " ++ str_of_nat (length MILESTONES) ++ py " milestones";
   py "   Created " ++ str_of_nat (size issue_numbers) ++ py " issues";
   newline ++ py "View at: https://github.com/" ++ owner_repo ++ py "/issues"].


(** In the run from [w], the three phases run to their end one after the
    other and the summary is printed last. *)
Definition phases_then_summary (w : World) : Prop :=
  ∃ t1 w1 t2 w2 milestone_numbers t3 w3 issue_numbers,
    create_labels spawn LABELS w = (t1, w1, Ok tt)
    ∧ create_milestones spawn json_loads py_str MILESTONES w1
      = (t2, w2, Ok milestone_numbers)
    ∧ create_issues spawn py_str ISSUES milestone_numbers w2
      = (t3, w3, Ok issue_numbers)
    ∧ main spawn json_loads py_str LABELS MILESTONES ISSUES w
      = ([EvPrint banner] ++ t1 ++ t2 ++ t3 ++ (EvPrint <$> summary issue_numbers),
         w3, Ok tt).


End Statements.

(** ** Runs over the declared records *)

Module Runs.

(** Every request is served. *)
Definition served :=
  main (Service.spawn (λ _, false)) JsonRef.loads JsonRef.to_str
    Repo.LABELS Repo.MILESTONES Repo.ISSUES Service.initial.

(** One label, one milestone and one issue are refused. *)
Definition refused :=
  main (Service.spawn Service.refuse_some) JsonRef.loads JsonRef.to_str
    Repo.LABELS Repo.MILESTONES Repo.ISSUES Service.initial.

(** The fourteen labels are created, and the first milestone request exits
    with code 0 and prints [ok]. *)
Definition garbled_script : list CompletedProcess :=
  replicate 14 (Scripted.exited 0 "" "") ++ [Scripted.exited 0 "ok" ""].

Definition garbled :=
  main (Scripted.spawn garbled_script) JsonRef.loads JsonRef.to_str
    Repo.LABELS Repo.MILESTONES Repo.ISSUES 0.

(** The n-th declared record, counting from 0. *)
Definition nth_label (n : nat) : LabelSpec :=
  nth n Repo.LABELS (label "" "" "").

Definition nth_milestone (n : nat) : MilestoneSpec :=
  nth n Repo.MILESTONES (milestone "" "" None).

Definition nth_issue (n : nat) : IssueSpec :=
  nth n Repo.ISSUES (issue "" "" [] None).

(** Three replies: a new milestone numbered 7, a new issue numbered 42, and
    a refusal. *)
Definition milestone_7 : CompletedProcess :=
  {| returncode := 0;
     stdout := json_text "{'number': 7, 'title': 'v0.2.0 - Foundation', 'state': 'open'}"
               ++ newline;
     stderr := [] |}.

Definition issue_42 : CompletedProcess :=
  {| returncode := 0;
     stdout := py "https://github.com/DubiWork/maaser-tracker/issues/42"
               ++ newline;
     stderr := [] |}.

(** The fourteen labels are created, and the first milestone request is
    answered with an object whose ["number"] is a string holding U+0000. *)
Definition null_number_script : list CompletedProcess :=
  replicate 14 (Scripted.exited 0 "" "")
  ++ [{| returncode := 0;
         stdout := json_text "{'number': 'a\u0000b'}";
         stderr := [] |}].

Definition null_number :=
  main (Scripted.spawn null_number_script) JsonRef.loads JsonRef.to_str
    Repo.LABELS Repo.MILESTONES Repo.ISSUES 0.

(** The same with a ["number"] that is a lone surrogate. *)
Definition surrogate_number_script : list CompletedProcess :=
  replicate 14 (Scripted.exited 0 "" "")
  ++ [{| returncode := 0;
         stdout := json_text "{'number': '\ud800'}";
         stderr := [] |}].

Definition surrogate_number :=
  main (Scripted.spawn surrogate_number_script) JsonRef.loads JsonRef.to_str
    Repo.LABELS Repo.MILESTONES Repo.ISSUES 0.

End Runs.

(** ** Replies, and what the loops keep of them *)

(** Answering the commands [argvs] one after the other, each in the world
    the one before it left. *)
Fixpoint replay {World : Type}
    (spawn : World → list str → CompletedProcess * World)
    (w : World) (argvs : list (list str)) : list CompletedProcess * World :=
  match argvs with
  | [] => ([], w)
  | argv :: rest =>
      let '(p, w1) := spawn w argv in
      let '(ps, w2) := replay spawn w1 rest in
      (p :: ps, w2)
  end.

(** The processes of an outcome were started one at a time from [w], and
    the outcome's world is the one the last of them left. *)
Definition sequential {World A : Type}
    (spawn : World → list str → CompletedProcess * World)
    (w : World) (o : list event * World * result A) : Prop :=
  replay spawn w (spawned (events o)) = (replies (events o), world_after o).

(** The value the milestone loop stores for a reply, if any. *)
Definition decoded_number (json_loads : str → result pyval)
    (p : CompletedProcess) : option pyval :=
  if (returncode p =? 0)%Z then
    match strip (stdout p) with
    | [] => None
    | text =>
        match json_loads text with
        | Ok (PDict d) => d !! py "number"
        | _ => None
        end
    end
  else None.

(** The exception of the milestone loop on a reply it cannot digest. *)
Definition decode_error (json_loads : str → result pyval)
    (p : CompletedProcess) : exn :=
  match json_loads (strip (stdout p)) with
  | Raise e => e
  | Ok (PDict _) => KeyError (py "number")
  | Ok _ => TypeError
  end.

(** The identifier the issue loop stores for a reply, if any. *)
Definition recorded_identifier (p : CompletedProcess) : option str :=
  if (returncode p =? 0)%Z then
    match strip (stdout p) with
    | [] => None
    | text =>
        match getitem_last (split slash text) with
        | Ok issue_number => Some issue_number
        | Raise _ => None
        end
    end
  else None.

(** Among records paired with their replies, what the last pair of a
    [title] that stores something stores. *)
Definition last_stored {R V : Type} (title_of : R → str)
    (stored : CompletedProcess → option V) (title : str)
    (pairs : list (R * CompletedProcess)) : option V :=
  last (omap (λ rp, if decide (title_of rp.1 = title) then stored rp.2 else None)
             pairs).

(** The confirmation lines of the three loops. *)
Definition label_confirmation (label : LabelSpec) : str :=
  py "  " ++ check_mark ++ py " Created label: " ++ label_name label.

Definition milestone_confirmation (py_str : pyval → str)
    (milestone : MilestoneSpec) (number : pyval) : str :=
  py "  " ++ check_mark ++ py " Created milestone: " ++ milestone_title milestone
  ++ py " (#" ++ py_str number ++ py ")".

Definition issue_confirmation (issue : IssueSpec) (issue_number : str) : str :=
  py "  " ++ check_mark ++ py " Created issue #" ++ issue_number ++ py ": "
  ++ issue_title issue.

Arguments label_confirmation : simpl never.
Arguments milestone_confirmation : simpl never.
Arguments issue_confirmation : simpl never.

(** A command line of one of the three shapes the driver builds: the
    creation, with [--force], of a label, the creation of a milestone
    through the API, or the creation of an issue, each in the repository
    [DubiWork/maaser-tracker]. *)
Definition creates_in_repo (argv : list str) : bool :=
  bool_decide (take 3 argv = [py "gh"; py "label"; py "create"]
               ∧ length argv = 11
               ∧ drop 8 argv = [py "--repo"; py "DubiWork/maaser-tracker";
                                py "--force"])
  || bool_decide (take 3 argv = [py "gh"; py "api";
                                 py "/repos/DubiWork/maaser-tracker/milestones"]
                  ∧ length argv = 9
                  ∧ drop 7 argv = [py "-f"; py "state=open"])
  || bool_decide (take 3 argv = [py "gh"; py "issue"; py "create"]
                  ∧ take 2 (drop 9 argv)
                    = [py "--repo"; py "DubiWork/maaser-tracker"]
                  ∧ (length argv = 11
                     ∨ length argv = 13 ∧ argv !! 11 = Some (py "--milestone"))).

(** A color as the service expects it: six hexadecimal digits. *)
Definition is_hex_color (s : str) : bool :=
  (length s =? 6)
  && forallb (λ c, (48 <=? c) && (c <=? 57) || (97 <=? c) && (c <=? 102)
                   || (65 <=? c) && (c <=? 70))%N s.

(** ** Texts that can be passed and printed *)

(** A record all of whose texts are plain. *)
Definition plain_label (label : LabelSpec) : bool :=
  plain (label_name label) && plain (label_color label)
  && plain (label_description label).

Definition plain_milestone (milestone : MilestoneSpec) : bool :=
  plain (milestone_title milestone) && plain (milestone_description milestone).

Definition plain_issue (issue : IssueSpec) : bool :=
  plain (issue_title issue) && plain (issue_body issue)
  && forallb plain (issue_labels issue).



(** ** What one iteration does with its command *)

(** The outcome [o] of an iteration that runs the command [argv] from the
    world [w]. When an argument cannot be passed, the iteration raises
    [ValueError] and has done nothing. Otherwise it starts the process and
    no other, reports it to the error stream when it failed and writes
    nothing else there, and raises, if it does, only after a process that
    exited with code 0. *)
Definition one_command {World St : Type}
    (spawn : World → list str → CompletedProcess * World)
    (argv : list str) (w : World) (o : list event * World * result St) : Prop :=
  if forallb passable argv then
    ∃ t r, o = (EvSpawn argv (spawn w argv).1 :: t, (spawn w argv).2, r)
           ∧ spawned t = [] ∧ replies t = []
           ∧ printed_stderr t
             = (if (returncode (spawn w argv).1 =? 0)%Z then []
                else [error_line (stderr (spawn w argv).1)])
           ∧ (∀ e, r = Raise e → returncode (spawn w argv).1 = 0%Z)
  else o = ([], w, Raise ValueError).

(** Why a run that started the first [k] of the commands [argvs] ended
    with an exception: the next command could not be passed to a process,
    or the last process started had exited with code 0 and the exception
    came from what the driver did with its output. Never is it the failure
    of a process. *)
Definition stopped_at (argvs : list (list str)) (k : nat) (t : list event)
    : Prop :=
  (∃ argv, argvs !! k = Some argv ∧ forallb passable argv = false)
  ∨ (∃ p, last (replies t) = Some p ∧ returncode p = 0%Z).

(** The outcome [o] of a computation that runs the commands [argvs] in
    order: it started the first [k] of them, each of which could be passed,
    and received their replies; all of them when it returned, and when it
    raised, it stopped for one of the two reasons above. The error stream
    holds the reports of the processes that failed and nothing else. *)
Definition runs_commands {World A : Type} (argvs : list (list str))
    (o : list event * World * result A) : Prop :=
  ∃ k, k ≤ length argvs
    ∧ spawned (events o) = take k argvs
    ∧ forallb (forallb passable) (spawned (events o)) = true
    ∧ length (replies (events o)) = k
    ∧ stderr_reports_failures (events o)
    ∧ match value o with
      | Ok _ => k = length argvs
      | Raise _ => stopped_at argvs k (events o)
      end.

Section Runs_of_main.
Context {World : Type}.
Variable spawn : World → list str → CompletedProcess * World.
Variable json_loads : str → result pyval.
Variable py_str : pyval → str.
Variable LABELS : list LabelSpec.
Variable MILESTONES : list MilestoneSpec.
Variable ISSUES : list IssueSpec.

(** The command lines of a whole run, given the mapping the milestone phase
    returns. *)
Definition all_commands (milestone_numbers : gmap str pyval)
    : list (list str) :=
  label_commands LABELS ++ milestone_commands MILESTONES
  ++ issue_commands py_str ISSUES milestone_numbers.

(** The three phases of the run from [w], each from the world the one
    before it left; the issue phase with the mapping [milestone_numbers]. *)
Definition labels_phase (w : World) : list event * World * result unit :=
  create_labels spawn LABELS w.

Definition milestones_phase (w : World)
    : list event * World * result (gmap str pyval) :=
  create_milestones spawn json_loads py_str MILESTONES
    (world_after (labels_phase w)).

Definition issues_phase (milestone_numbers : gmap str pyval) (w : World)
    : list event * World * result (gmap str str) :=
  create_issues spawn py_str ISSUES milestone_numbers
    (world_after (milestones_phase w)).

(** In the run from [w] the labels phase returns and the milestone phase
    returns the mapping [milestone_numbers]. *)
Definition mapping_built (w : World) (milestone_numbers : gmap str pyval)
    : Prop :=
  value (labels_phase w) = Ok tt
  ∧ value (milestones_phase w) = Ok milestone_numbers.


End Runs_of_main.


(** ** The label store behind [gh label create] *)

(** Modelled from the spec: the force semantics of the external tool, which
    is no code of the repository. A world keeps labels, read by [label_of],
    and its tool honours [--force]: the command that creates a label with
    the flag exits with code 0 and leaves the label with the color and the
    description of the command, whether or not the name was there before. *)
Definition honours_force {World : Type}
    (spawn : World → list str → CompletedProcess * World)
    (label_of : World → str → option (str * str)) : Prop :=
  ∀ w name color description,
    returncode (spawn w [py "gh"; py "label"; py "create"; name;
                         py "--color"; color; py "--description"; description;
                         py "--repo"; py "DubiWork/maaser-tracker";
                         py "--force"]).1 = 0%Z
    ∧ label_of (spawn w [py "gh"; py "label"; py "create"; name;
                         py "--color"; color; py "--description"; description;
                         py "--repo"; py "DubiWork/maaser-tracker";
                         py "--force"]).2 name
      = Some (color, description).

Module LabelStore.

Definition created : CompletedProcess :=
  {| returncode := 0; stdout := []; stderr := [] |}.

Definition already_exists : CompletedProcess :=
  {| returncode := 1; stdout := [];
     stderr := py "label already exists; use `--force` to update its color and description"
               ++ newline |}.

Definition unknown : CompletedProcess :=
  {| returncode := 1; stdout := []; stderr := py "unknown command" ++ newline |}.

(** Modelled from the spec: the label store of the external tool, which is
    no code of the repository. Creating a label with the force flag creates
    it or, when the name already exists, replaces its color and description
    rather than erroring; without the flag a name that already exists is an
    error and the store is left as it was. *)
Definition spawn (labels : gmap str (str * str)) (argv : list str)
    : CompletedProcess * gmap str (str * str) :=
  match argv with
  | gh :: noun :: verb :: name :: color_flag :: color :: description_flag
    :: description :: repo_flag :: repo :: rest =>
      if bool_decide ([gh; noun; verb; color_flag; description_flag; repo_flag]
                      = [py "gh"; py "label"; py "create"; py "--color";
                         py "--description"; py "--repo"])
      then
        match rest with
        | [] =>
            match labels !! name with
            | Some _ => (already_exists, labels)
            | None => (created, <[name := (color, description)]> labels)
            end
        | [flag] =>
            if bool_decide (flag = py "--force")
            then (created, <[name := (color, description)]> labels)
            else (unknown, labels)
        | _ => (unknown, labels)
        end
      else (unknown, labels)
  | _ => (unknown, labels)
  end.

Definition label_of (labels : gmap str (str * str)) (name : str)
    : option (str * str) := labels !! name.

End LabelStore.

(** * Properties *)

(** ** Text *)







Lemma split_nonempty (sep : N) (s : str) : split sep s ≠ [].
Proof.
  destruct s as [|c s]; simpl; [done |].
  destruct (c =? sep)%N; [done |]. by destruct (split sep s).
Qed.

(** A text without the separator is its own single segment. *)
Lemma split_no_sep (sep : N) (s : str) : sep ∉ s → split sep s = [s].
Proof.
  induction s as [|c s IH]; intros Hs; simpl; [done |].
  apply not_elem_of_cons in Hs as [Hc Hs].
  destruct (N.eqb_spec c sep) as [-> | _]; [congruence |].
  by rewrite IH.
Qed.

(** The first segment ends at the first separator. *)
Lemma split_app (sep : N) (x s : str) :
  sep ∉ x → split sep (x ++ sep :: s) = x :: split sep s.
Proof.
  induction x as [|c x IH]; intros Hx; simpl.
  - by rewrite N.eqb_refl.
  - apply not_elem_of_cons in Hx as [Hc Hx].
    destruct (N.eqb_spec c sep) as [-> | _]; [congruence |].
    by rewrite IH.
Qed.

Lemma last_cons_nonempty {A} (x : A) (l : list A) :
  l ≠ [] → last (x :: l) = last l.
Proof. by destruct l. Qed.

(** Whatever precedes a separator does not change the last segment. *)
Lemma split_last_after_sep (sep : N) (pre seg : str) :
  last (split sep (pre ++ sep :: seg)) = last (split sep seg).
Proof.
  induction pre as [|c pre IH]; simpl.
  - rewrite N.eqb_refl. apply last_cons_nonempty, split_nonempty.
  - destruct (c =? sep)%N.
    + rewrite <- IH. apply last_cons_nonempty, split_nonempty.
    + rewrite <- IH.
      destruct (split sep (pre ++ sep :: seg)) as [|h t] eqn:E.
      { by apply split_nonempty in E. }
      destruct t as [|h' t]; [| done].
      exfalso. clear IH. revert h E.
      induction pre as [|a pre IHp]; simpl; intros h.
      * rewrite N.eqb_refl. intros [= _ E]. by apply split_nonempty in E.
      * destruct (a =? sep)%N.
        -- intros [= _ E]. by apply split_nonempty in E.
        -- destruct (split sep (pre ++ sep :: seg)) as [|h2 t2] eqn:E2;
             [by apply split_nonempty in E2 |].
           intros [= _ ->]. by eapply IHp.
Qed.

(** [text.split('/')[-1]] is the text after the last separator. *)
Lemma last_segment (sep : N) (pre seg : str) :
  sep ∉ seg → getitem_last (split sep (pre ++ sep :: seg)) = Ok seg.
Proof.
  intros Hseg. unfold getitem_last.
  by rewrite split_last_after_sep, split_no_sep.
Qed.

Lemma last_segment_whole (sep : N) (s : str) :
  sep ∉ s → getitem_last (split sep s) = Ok s.
Proof. intros Hs. unfold getitem_last. by rewrite split_no_sep. Qed.

Lemma getitem_last_split (sep : N) (s : str) :
  ∃ seg, getitem_last (split sep s) = Ok seg.
Proof.
  unfold getitem_last.
  destruct (last (split sep s)) as [seg|] eqn:E; [by exists seg |].
  apply last_None in E. by apply split_nonempty in E.
Qed.

(** Every text ends with a segment free of the separator that is the whole
    text or follows a separator. *)
Lemma last_sep_decompose (sep : N) (s : str) :
  ∃ pre seg, s = pre ++ seg ∧ (sep ∉ seg) ∧ (pre = [] ∨ last pre = Some sep).
Proof.
  induction s as [|c s (pre & seg & -> & Hseg & Hpre)].
  - exists [], []. split; [done |]. split; [apply not_elem_of_nil | by left].
  - destruct Hpre as [-> | Hlast].
    + destruct (decide (c = sep)) as [-> | Hc].
      * exists [sep], seg. split; [done |]. split; [done | by right].
      * exists [], (c :: seg). split; [done |].
        split; [by apply not_elem_of_cons | by left].
    + exists (c :: pre), seg. split; [done |]. split; [done |]. right.
      destruct pre; [done | done].
Qed.

(** Joining with a separator that no item contains loses nothing: splitting
    gives the items back, in their order and with their repetitions. *)
Lemma split_join (sep : N) (xs : list str) :
  xs ≠ [] → Forall (λ x, sep ∉ x) xs → split sep (join [sep] xs) = xs.
Proof.
  induction xs as [|x xs IH]; intros Hne Hall; [done |].
  apply Forall_cons in Hall as [Hx Hxs].
  destruct xs as [|y xs].
  - simpl. by apply split_no_sep.
  - change (join [sep] (x :: y :: xs)) with (x ++ sep :: join [sep] (y :: xs)).
    rewrite split_app by done. by rewrite IH.
Qed.

(** ** Traces *)

Lemma spawned_app (t1 t2 : list event) :
  spawned (t1 ++ t2) = spawned t1 ++ spawned t2.
Proof.
  induction t1 as [|[argv p| |] t1 IH]; simpl; [done | | done | done].
  by rewrite IH.
Qed.

Lemma replies_app (t1 t2 : list event) :
  replies (t1 ++ t2) = replies t1 ++ replies t2.
Proof.
  induction t1 as [|[argv p| |] t1 IH]; simpl; [done | | done | done].
  by rewrite IH.
Qed.

Lemma printed_stderr_app (t1 t2 : list event) :
  printed_stderr (t1 ++ t2) = printed_stderr t1 ++ printed_stderr t2.
Proof.
  induction t1 as [|[argv p| |] t1 IH]; simpl; [done | done | done |].
  by rewrite IH.
Qed.

Lemma failed_stderr_app (t1 t2 : list event) :
  failed_stderr (t1 ++ t2) = failed_stderr t1 ++ failed_stderr t2.
Proof.
  induction t1 as [|[argv p| |] t1 IH]; simpl; [done | | done | done].
  destruct (returncode p =? 0)%Z; simpl; by rewrite IH.
Qed.

Lemma spawned_prints (lines : list str) : spawned (EvPrint <$> lines) = [].
Proof. induction lines; simpl; done. Qed.

Lemma printed_stderr_prints (lines : list str) :
  printed_stderr (EvPrint <$> lines) = [].
Proof. induction lines; simpl; done. Qed.

Lemma failed_stderr_prints (lines : list str) :
  failed_stderr (EvPrint <$> lines) = [].
Proof. induction lines; simpl; done. Qed.

Lemma stderr_reports_failures_app (t1 t2 : list event) :
  stderr_reports_failures t1 → stderr_reports_failures t2 →
  stderr_reports_failures (t1 ++ t2).
Proof.
  unfold stderr_reports_failures. intros H1 H2.
  by rewrite printed_stderr_app, failed_stderr_app, fmap_app, H1, H2.
Qed.

Lemma enumerate_snd {A} (start : nat) (xs : list A) :
  snd <$> enumerate start xs = xs.
Proof.
  revert start. induction xs as [|x xs IH]; intros start; simpl; [done |].
  by rewrite IH.
Qed.

Lemma printed_app (t1 t2 : list event) :
  printed (t1 ++ t2) = printed t1 ++ printed t2.
Proof.
  induction t1 as [|[argv p| |] t1 IH]; simpl; [done | done | | done].
  by rewrite IH.
Qed.

Lemma failed_stderr_no_replies (t : list event) :
  replies t = [] → failed_stderr t = [].
Proof. induction t as [|[argv p| |] t IH]; simpl; by try done. Qed.

Lemma last_cons_or {A} (x : A) (l : list A) :
  last (x :: l) = match last l with Some y => Some y | None => Some x end.
Proof.
  destruct l as [|y l]; [done |]. simpl.
  destruct (last (y :: l)) eqn:E; [done |]. by apply last_None in E.
Qed.

Lemma returned_Ok {A} (default : A) (r : result A) :
  returned r = true → r = Ok (returned_value default r).
Proof. by destruct r. Qed.

(** ** Texts that can be passed and printed *)

Lemma plain_passable (s : str) : plain s = true → passable s = true.
Proof.
  unfold plain, passable. induction s as [|c s IH]; simpl; [done |].
  intros [[Hz Hs]%andb_true_iff Hrest]%andb_true_iff.
  by rewrite Hz, Hs, IH.
Qed.

Lemma plain_printable (s : str) : plain s = true → printable s = true.
Proof.
  unfold plain, printable. induction s as [|c s IH]; simpl; [done |].
  intros [[Hz Hs]%andb_true_iff Hrest]%andb_true_iff.
  by rewrite Hs, IH.
Qed.

Lemma plain_app (a b : str) : plain (a ++ b) = plain a && plain b.
Proof. apply forallb_app. Qed.

Lemma printable_app (a b : str) :
  printable (a ++ b) = printable a && printable b.
Proof. apply forallb_app. Qed.

(** An ASCII literal holds no surrogate, so neither does a decimal
    numeral. *)
Lemma printable_py (s : string) : printable (py s) = true.
Proof.
  unfold printable, py.
  induction (String.list_ascii_of_string s) as [|a l IH]; simpl; [done |].
  rewrite IH, andb_true_r. unfold is_surrogate.
  pose proof (N_ascii_bounded a) as Ha.
  apply negb_true_iff, andb_false_iff. left. apply N.leb_gt. lia.
Qed.

Lemma printable_str_of_nat (n : nat) : printable (str_of_nat n) = true.
Proof. apply printable_py. Qed.

Lemma plain_join (sep : str) (xs : list str) :
  plain sep = true → forallb plain xs = true → plain (join sep xs) = true.
Proof.
  intros Hsep. induction xs as [|x xs IH]; [done |].
  intros [Hx Hxs]%andb_true_iff.
  destruct xs as [|y xs]; [done |].
  change (join sep (x :: y :: xs)) with (x ++ sep ++ join sep (y :: xs)).
  by rewrite !plain_app, Hx, Hsep, IH.
Qed.

(** Printing a text without surrogates. *)
Lemma print_printable {World : Type} (text : str) (w : World) :
  printable text = true → print text w = ([EvPrint text], w, Ok tt).
Proof. unfold print. by intros ->. Qed.

(** ** Loops *)

Section Loops.
Context {World A St : Type}.
Variable spawn : World → list str → CompletedProcess * World.
Implicit Types (body : A → St → @M World St) (xs : list A).

Lemma for_each_cons body x xs s w :
  for_each (x :: xs) body s w =
  match body x s w with
  | (t1, w1, Ok s1) =>
      let '(t2, w2, r) := for_each xs body s1 w1 in (t1 ++ t2, w2, r)
  | (t1, w1, Raise e) => (t1, w1, Raise e)
  end.
Proof. reflexivity. Qed.

(** A loop whose body cannot raise on its records runs to its end. *)
Lemma for_each_returns body xs :
  (∀ x s w, x ∈ xs → ∃ s', value (body x s w) = Ok s') →
  ∀ s w, ∃ s', value (for_each xs body s w) = Ok s'.
Proof.
  induction xs as [|x xs IH]; intros Hbody s w.
  - by exists s.
  - rewrite for_each_cons.
    destruct (Hbody x s w) as [s1 H1]; [by left |].
    destruct (body x s w) as [[t1 w1] r1]. simpl in H1. subst r1.
    destruct (IH (λ y s w Hy, Hbody y s w (list_elem_of_further _ _ _ Hy)) s1 w1)
      as [s2 H2].
    destruct (for_each xs body s1 w1) as [[t2 w2] r2]. simpl in *.
    by exists s2.
Qed.

(** What holds of the events of every iteration and is kept by
    concatenation holds of the events of the loop. *)
Lemma for_each_events (P : list event → Prop) body xs :
  P [] → (∀ t1 t2, P t1 → P t2 → P (t1 ++ t2)) →
  (∀ x s w, P (events (body x s w))) →
  ∀ s w, P (events (for_each xs body s w)).
Proof.
  intros Hnil Happ Hbody.
  induction xs as [|x xs IH]; intros s w; [done |].
  rewrite for_each_cons. specialize (Hbody x s w).
  destruct (body x s w) as [[t1 w1] [s1|e]]; [| done].
  specialize (IH s1 w1).
  destruct (for_each xs body s1 w1) as [[t2 w2] r2]. by apply Happ.
Qed.



(** What the iterations keep of the loop state holds when the loop
    returns. *)
Lemma for_each_invariant (I : St → Prop) body xs :
  (∀ x s w s', x ∈ xs → I s → value (body x s w) = Ok s' → I s') →
  ∀ s w s', I s → value (for_each xs body s w) = Ok s' → I s'.
Proof.
  induction xs as [|x xs IH]; intros Hbody s w s' Hs.
  - by intros [= <-].
  - rewrite for_each_cons.
    pose proof (Hbody x s w) as Hx.
    destruct (body x s w) as [[t1 w1] [s1|e]]; unfold value in *; simpl in *;
      [| done].
    specialize (IH (λ y s w s' Hy, Hbody y s w s' (list_elem_of_further _ _ _ Hy))
                  s1 w1 s' (Hx s1 (list_elem_of_here _ _) Hs eq_refl)).
    by destruct (for_each xs body s1 w1) as [[t2 w2] r2].
Qed.

(** The loop state after a loop whose iterations each receive one reply and
    update the state by it is the fold of the updates over the records
    paired with the replies. *)
Lemma for_each_stores (upd : A → CompletedProcess → St → St) body xs :
  (∀ x s w s', value (body x s w) = Ok s' →
     ∃ p, replies (events (body x s w)) = [p] ∧ s' = upd x p s) →
  ∀ s w s', value (for_each xs body s w) = Ok s' →
    length (replies (events (for_each xs body s w))) = length xs
    ∧ s' = foldl (λ s rp, upd rp.1 rp.2 s) s
             (zip xs (replies (events (for_each xs body s w)))).
Proof.
  intros Hbody. induction xs as [|x xs IH]; intros s w s'.
  - by intros [= <-].
  - rewrite for_each_cons. specialize (Hbody x s w).
    destruct (body x s w) as [[t1 w1] [s1|e]]; unfold events, value in *;
      cbn [fst snd] in *; [| done].
    destruct (Hbody s1 eq_refl) as (p & Hp & ->).
    specialize (IH (upd x p s) w1 s').
    destruct (for_each xs body (upd x p s) w1) as [[t2 w2] r2].
    cbn [fst snd] in *. intros Hr. destruct (IH Hr) as [Hlen ->].
    rewrite replies_app, Hp. simpl. by rewrite Hlen.
Qed.

(** When every iteration runs the one command [cmd x], the loop runs the
    commands of its records in order. *)
Lemma for_each_commands (cmd : A → list str) body xs :
  (∀ x s w, one_command spawn (cmd x) w (body x s w)) →
  ∀ s w, runs_commands (cmd <$> xs) (for_each xs body s w).
Proof.
  intros Hbody. unfold runs_commands.
  induction xs as [|x xs IH]; intros s w.
  { exists 0. by repeat split. }
  rewrite for_each_cons. specialize (Hbody x s w). unfold one_command in Hbody.
  destruct (forallb passable (cmd x)) eqn:Hpass.
  - destruct Hbody as (t & r & -> & Hsp & Hrep & Herr & Hraise).
    set (p := (spawn w (cmd x)).1) in *. set (w1 := (spawn w (cmd x)).2) in *.
    assert (Hfail : failed_stderr t = []) by by apply failed_stderr_no_replies.
    destruct r as [s1|e].
    + destruct (IH s1 w1) as (k & Hk & Hspawned & Hall & Hlen & Hstderr & Hvalue).
      destruct (for_each xs body s1 w1) as [[t2 w2] r2].
      unfold events, value in *. cbn [fst snd] in *.
      exists (S k). split; [csimpl in *; lia |].
      split.
      { rewrite spawned_app. cbn [spawned]. by rewrite Hsp, Hspawned. }
      split.
      { rewrite spawned_app. cbn [spawned]. rewrite Hsp. cbn [app forallb].
        by rewrite Hpass, Hall. }
      split.
      { rewrite replies_app. cbn [replies]. rewrite Hrep. simpl. by rewrite Hlen. }
      split.
      { unfold stderr_reports_failures in *.
        rewrite printed_stderr_app, failed_stderr_app.
        cbn [printed_stderr failed_stderr]. rewrite Herr, Hfail, Hstderr.
        by destruct (returncode p =? 0)%Z. }
      destruct r2 as [s2|e2]; [csimpl in *; lia |].
      destruct Hvalue as [(argv & Hargv & Hno) | (q & Hlast & Hq)].
      * left. by exists argv.
      * right. exists q. split; [| done].
        rewrite replies_app. cbn [replies]. rewrite Hrep. cbn [app].
        rewrite last_cons_or. by rewrite Hlast.
    + unfold events, value. cbn [fst snd].
      exists 1. split; [csimpl; lia |].
      split; [cbn [spawned]; rewrite Hsp; csimpl; by rewrite take_0 |].
      split; [cbn [spawned]; rewrite Hsp; cbn [forallb]; by rewrite Hpass |].
      split; [cbn [replies length]; by rewrite Hrep |].
      split.
      { unfold stderr_reports_failures. cbn [printed_stderr failed_stderr].
        rewrite Herr, Hfail. by destruct (returncode p =? 0)%Z. }
      right. exists p. split; [| by eapply Hraise].
      cbn [replies]. by rewrite Hrep.
  - rewrite Hbody. unfold events, value. cbn [fst snd].
    exists 0. split; [csimpl; lia |]. split; [done |]. split; [done |].
    split; [done |]. split; [done |]. left. by exists (cmd x).
Qed.

End Loops.

(** Computations that run commands, one after the other. *)
Lemma runs_commands_app {World A B : Type} (a b : list (list str))
    (t1 t2 : list event) (w1 w2 : World) (x : A) (r : result B) :
  runs_commands a (t1, w1, Ok x) → runs_commands b (t2, w2, r) →
  runs_commands (a ++ b) (t1 ++ t2, w2, r).
Proof.
  unfold runs_commands, events, value. cbn [fst snd].
  intros (k1 & _ & Hs1 & Ha1 & Hl1 & He1 & ->)
         (k2 & Hk2 & Hs2 & Ha2 & Hl2 & He2 & Hv2).
  exists (length a + k2). rewrite length_app. split; [lia |].
  split.
  { rewrite spawned_app, Hs1, Hs2, firstn_all, take_app_ge by lia.
    f_equal. f_equal. lia. }
  split; [by rewrite spawned_app, forallb_app, Ha1, Ha2 |].
  split; [by rewrite replies_app, length_app, Hl1, Hl2 |].
  split; [by apply stderr_reports_failures_app |].
  destruct r as [y|e]; [lia |].
  destruct Hv2 as [(argv & Hargv & Hno) | (p & Hlast & Hp)].
  - left. exists argv. split; [| done].
    rewrite lookup_app_r by lia. by replace (length a + k2 - length a) with k2 by lia.
  - right. exists p. split; [| done].
    rewrite replies_app, last_app. by rewrite Hlast.
Qed.

Lemma runs_commands_raise {World A B : Type} (a b : list (list str))
    (t1 : list event) (w1 : World) (e : exn) :
  runs_commands a (t1, w1, @Raise A e) →
  runs_commands (a ++ b) (t1, w1, @Raise B e).
Proof.
  unfold runs_commands, events, value. cbn [fst snd].
  intros (k1 & Hk1 & Hs1 & Ha1 & Hl1 & He1 & Hv1).
  exists k1. rewrite length_app. split; [lia |].
  split; [by rewrite take_app_le by lia |].
  split; [done |]. split; [done |]. split; [done |].
  destruct Hv1 as [(argv & Hargv & Hno) | (p & Hlast & Hp)].
  - left. exists argv. split; [| done]. by apply lookup_app_l_Some.
  - right. by exists p.
Qed.

Lemma runs_commands_print {World A : Type} (argvs : list (list str))
    (line : str) (t : list event) (w : World) (r : result A) :
  runs_commands argvs (t, w, r) → runs_commands argvs (EvPrint line :: t, w, r).
Proof. done. Qed.

Lemma runs_commands_summary {World A B : Type} (argvs : list (list str))
    (lines : list str) (t : list event) (w : World) (x : A) (y : B) :
  runs_commands argvs (t, w, Ok x) →
  runs_commands argvs (t ++ (EvPrint <$> lines), w, Ok y).
Proof.
  unfold runs_commands, events, value. cbn [fst snd].
  intros (k & Hk & Hs & Ha & Hl & He & ->). exists (length argvs).
  split; [done |].
  split; [by rewrite spawned_app, spawned_prints, app_nil_r |].
  split; [by rewrite spawned_app, spawned_prints, app_nil_r |].
  split.
  { rewrite replies_app, length_app, Hl.
    assert (Hnone : replies (EvPrint <$> lines) = []) by by induction lines.
    by rewrite Hnone, Nat.add_0_r. }
  split; [| done].
  apply stderr_reports_failures_app; [done |].
  unfold stderr_reports_failures.
  by rewrite printed_stderr_prints, failed_stderr_prints.
Qed.


(** ** The command runner and the loop bodies *)

Section Steps.
Context {World : Type}.
Variable spawn : World → list str → CompletedProcess * World.
Variable json_loads : str → result pyval.
Variable py_str : pyval → str.

(** [run_gh_command] in one piece. *)
Lemma run_gh_command_eq (args : list str) (w : World) :
  run_gh_command spawn args w =
  if forallb passable ([py "gh"] ++ args) then
    let '(p, w') := spawn w ([py "gh"] ++ args) in
    if (returncode p =? 0)%Z
    then ([EvSpawn ([py "gh"] ++ args) p], w', Ok (Some (strip (stdout p))))
    else ([EvSpawn ([py "gh"] ++ args) p; EvPrintErr (error_line (stderr p))],
          w', Ok None)
  else ([], w, Raise ValueError).
Proof.
  unfold run_gh_command, try_except, bind, subprocess_run, ret, print_stderr.
  destruct (forallb passable ([py "gh"] ++ args)); [| done].
  destruct (spawn w ([py "gh"] ++ args)) as [p w'].
  by destruct (returncode p =? 0)%Z.
Qed.

Lemma create_label_eq (label : LabelSpec) (w : World) :
  create_label spawn label tt w =
  let argv := [py "gh"] ++ label_args label in
  if forallb passable argv then
    let '(p, w') := spawn w argv in
    if (returncode p =? 0)%Z then
      if printable (label_confirmation label)
      then ([EvSpawn argv p; EvPrint (label_confirmation label)], w', Ok tt)
      else ([EvSpawn argv p], w', Raise ValueError)
    else ([EvSpawn argv p; EvPrintErr (error_line (stderr p))], w', Ok tt)
  else ([], w, Raise ValueError).
Proof.
  unfold create_label, bind. rewrite run_gh_command_eq. cbv zeta.
  destruct (forallb passable ([py "gh"] ++ label_args label)); [| done].
  destruct (spawn w ([py "gh"] ++ label_args label)) as [p w'].
  destruct (returncode p =? 0)%Z; [| done].
  unfold is_not_none, print. fold (label_confirmation label).
  by destruct (printable (label_confirmation label)).
Qed.

Lemma create_milestone_eq (milestone : MilestoneSpec)
    (milestone_numbers : gmap str pyval) (w : World) :
  create_milestone spawn json_loads py_str milestone milestone_numbers w =
  let argv := [py "gh"] ++ milestone_args milestone in
  if forallb passable argv then
    let '(p, w') := spawn w argv in
    if (returncode p =? 0)%Z then
      match strip (stdout p) with
      | [] => ([EvSpawn argv p], w', Ok milestone_numbers)
      | text =>
          match json_loads text with
          | Raise e => ([EvSpawn argv p], w', Raise e)
          | Ok data =>
              match getitem data (py "number") with
              | Raise e => ([EvSpawn argv p], w', Raise e)
              | Ok number =>
                  if printable (milestone_confirmation py_str milestone number)
                  then ([EvSpawn argv p;
                         EvPrint (milestone_confirmation py_str milestone number)],
                        w',
                        Ok (<[milestone_title milestone := number]> milestone_numbers))
                  else ([EvSpawn argv p], w', Raise ValueError)
              end
          end
      end
    else ([EvSpawn argv p; EvPrintErr (error_line (stderr p))],
          w', Ok milestone_numbers)
  else ([], w, Raise ValueError).
Proof.
  unfold create_milestone, bind. rewrite run_gh_command_eq. cbv zeta.
  destruct (forallb passable ([py "gh"] ++ milestone_args milestone)); [| done].
  destruct (spawn w ([py "gh"] ++ milestone_args milestone)) as [p w'].
  destruct (returncode p =? 0)%Z; [| done].
  destruct (strip (stdout p)) as [|c text]; [done |].
  unfold lift. destruct (json_loads (c :: text)) as [data|e]; [| done].
  destruct (getitem data (py "number")) as [number|e]; [| done].
  unfold print. fold (milestone_confirmation py_str milestone number).
  by destruct (printable (milestone_confirmation py_str milestone number)).
Qed.

Lemma create_issue_eq (milestone_numbers : gmap str pyval) (i : nat)
    (issue : IssueSpec) (issue_numbers : gmap str str) (w : World) :
  create_issue spawn py_str milestone_numbers (i, issue) issue_numbers w =
  let argv := [py "gh"] ++ issue_args py_str milestone_numbers issue in
  if forallb passable argv then
    let '(p, w') := spawn w argv in
    if (returncode p =? 0)%Z then
      match strip (stdout p) with
      | [] => ([EvSpawn argv p], w', Ok issue_numbers)
      | text =>
          match getitem_last (split slash text) with
          | Raise e => ([EvSpawn argv p], w', Raise e)
          | Ok issue_number =>
              if printable (issue_confirmation issue issue_number)
              then ([EvSpawn argv p;
                     EvPrint (issue_confirmation issue issue_number)],
                    w', Ok (<[issue_title issue := issue_number]> issue_numbers))
              else ([EvSpawn argv p], w', Raise ValueError)
          end
      end
    else ([EvSpawn argv p; EvPrintErr (error_line (stderr p))],
          w', Ok issue_numbers)
  else ([], w, Raise ValueError).
Proof.
  unfold create_issue, bind. rewrite run_gh_command_eq. cbn [snd]. cbv zeta.
  destruct (forallb passable
              ([py "gh"] ++ issue_args py_str milestone_numbers issue)); [| done].
  destruct (spawn w ([py "gh"] ++ issue_args py_str milestone_numbers issue))
    as [p w'].
  destruct (returncode p =? 0)%Z; [| done].
  destruct (strip (stdout p)) as [|c text]; [done |].
  unfold lift.
  destruct (getitem_last (split slash (c :: text))) as [issue_number|e]; [| done].
  unfold print. fold (issue_confirmation issue issue_number).
  by destruct (printable (issue_confirmation issue issue_number)).
Qed.

(** Each body runs its one command. *)
Lemma create_label_command label u w :
  one_command spawn ([py "gh"] ++ label_args label) w
    (create_label spawn label u w).
Proof.
  destruct u. rewrite create_label_eq. unfold one_command. cbv zeta.
  destruct (forallb passable ([py "gh"] ++ label_args label)); [| done].
  destruct (spawn w ([py "gh"] ++ label_args label)) as [p w']. cbn [fst snd].
  destruct (returncode p =? 0)%Z eqn:Hrc.
  - apply Z.eqb_eq in Hrc.
    destruct (printable (label_confirmation label)); by eexists _, _.
  - by eexists _, _.
Qed.

Lemma create_milestone_command milestone milestone_numbers w :
  one_command spawn ([py "gh"] ++ milestone_args milestone) w
    (create_milestone spawn json_loads py_str milestone milestone_numbers w).
Proof.
  rewrite create_milestone_eq. unfold one_command. cbv zeta.
  destruct (forallb passable ([py "gh"] ++ milestone_args milestone)); [| done].
  destruct (spawn w ([py "gh"] ++ milestone_args milestone)) as [p w'].
  cbn [fst snd].
  destruct (returncode p =? 0)%Z eqn:Hrc; [| by eexists _, _].
  apply Z.eqb_eq in Hrc.
  destruct (strip (stdout p)) as [|c text]; [by eexists _, _ |].
  destruct (json_loads (c :: text)) as [data|e]; [| by eexists _, _].
  destruct (getitem data (py "number")) as [number|e]; [| by eexists _, _].
  destruct (printable (milestone_confirmation py_str milestone number));
    by eexists _, _.
Qed.

Lemma create_issue_command milestone_numbers i_issue issue_numbers w :
  one_command spawn ([py "gh"] ++ issue_args py_str milestone_numbers i_issue.2) w
    (create_issue spawn py_str milestone_numbers i_issue issue_numbers w).
Proof.
  destruct i_issue as [i issue]. rewrite create_issue_eq. unfold one_command.
  cbv zeta. cbn [snd].
  destruct (forallb passable
              ([py "gh"] ++ issue_args py_str milestone_numbers issue)); [| done].
  destruct (spawn w ([py "gh"] ++ issue_args py_str milestone_numbers issue))
    as [p w'].
  cbn [fst snd].
  destruct (returncode p =? 0)%Z eqn:Hrc; [| by eexists _, _].
  apply Z.eqb_eq in Hrc.
  destruct (strip (stdout p)) as [|c text]; [by eexists _, _ |].
  destruct (getitem_last (split slash (c :: text))) as [issue_number|e];
    [| by eexists _, _].
  destruct (printable (issue_confirmation issue issue_number)); by eexists _, _.
Qed.


(** What an iteration that returns has received and stored. *)
Lemma create_milestone_stores milestone milestone_numbers w milestone_numbers' :
  value (create_milestone spawn json_loads py_str milestone milestone_numbers w)
  = Ok milestone_numbers' →
  ∃ p, replies (events (create_milestone spawn json_loads py_str milestone
                          milestone_numbers w)) = [p]
       ∧ milestone_numbers'
         = match decoded_number json_loads p with
           | Some number => <[milestone_title milestone := number]> milestone_numbers
           | None => milestone_numbers
           end.
Proof.
  rewrite create_milestone_eq. cbv zeta.
  destruct (forallb passable ([py "gh"] ++ milestone_args milestone)); [| done].
  destruct (spawn w ([py "gh"] ++ milestone_args milestone)) as [p w'].
  intros Hv. exists p. revert Hv. unfold decoded_number.
  destruct (returncode p =? 0)%Z; [| by intros [= <-]].
  destruct (strip (stdout p)) as [|c text]; [by intros [= <-] |].
  destruct (json_loads (c :: text)) as [[| | | | | |d]|e]; try done.
  simpl. destruct (d !! py "number") as [number|]; [| done].
  destruct (printable (milestone_confirmation py_str milestone number));
    [by intros [= <-] | done].
Qed.

Lemma create_issue_stores milestone_numbers i_issue issue_numbers w issue_numbers' :
  value (create_issue spawn py_str milestone_numbers i_issue issue_numbers w)
  = Ok issue_numbers' →
  ∃ p, replies (events (create_issue spawn py_str milestone_numbers i_issue
                          issue_numbers w)) = [p]
       ∧ issue_numbers'
         = match recorded_identifier p with
           | Some issue_number => <[issue_title i_issue.2 := issue_number]> issue_numbers
           | None => issue_numbers
           end.
Proof.
  destruct i_issue as [i issue]. rewrite create_issue_eq. cbv zeta.
  destruct (forallb passable
              ([py "gh"] ++ issue_args py_str milestone_numbers issue)); [| done].
  destruct (spawn w ([py "gh"] ++ issue_args py_str milestone_numbers issue))
    as [p w'].
  intros Hv. exists p. revert Hv. unfold recorded_identifier.
  destruct (returncode p =? 0)%Z; [| by intros [= <-]].
  destruct (strip (stdout p)) as [|c text]; [by intros [= <-] |].
  destruct (getitem_last (split slash (c :: text))) as [issue_number|e];
    [| done].
  destruct (printable (issue_confirmation issue issue_number));
    [by intros [= <-] | done].
Qed.



Lemma passable_label_command (label : LabelSpec) :
  plain_label label = true →
  forallb passable ([py "gh"] ++ label_args label) = true.
Proof.
  unfold plain_label.
  intros [[Hn Hc]%andb_true_iff Hd]%andb_true_iff.
  apply plain_passable in Hn, Hc, Hd.
  unfold label_args. cbn [forallb app]. by rewrite Hn, Hc, Hd.
Qed.


Lemma passable_issue_command (milestone_numbers : gmap str pyval)
    (issue : IssueSpec) :
  plain_issue issue = true →
  forallb passable (milestone_arg py_str milestone_numbers issue) = true →
  forallb passable ([py "gh"] ++ issue_args py_str milestone_numbers issue)
  = true.
Proof.
  unfold plain_issue.
  intros [[Ht Hb]%andb_true_iff Hl]%andb_true_iff Hm.
  apply plain_passable in Ht, Hb.
  assert (Hj : passable (join comma (issue_labels issue)) = true).
  { by apply plain_passable, plain_join. }
  unfold issue_args, issue_base_args. rewrite app_assoc, forallb_app, Hm.
  cbn [forallb app]. by rewrite Ht, Hb, Hj.
Qed.

Lemma printable_label_confirmation (label : LabelSpec) :
  plain_label label = true → printable (label_confirmation label) = true.
Proof.
  unfold plain_label.
  intros [[Hn%plain_printable _]%andb_true_iff _]%andb_true_iff.
  unfold label_confirmation. by rewrite !printable_app, !printable_py, Hn.
Qed.



(** The iteration of a plain record returns: always for a label, and for a
    milestone or an issue when the reply is one the run survives. *)
Lemma create_label_returns label u w :
  plain_label label = true → value (create_label spawn label u w) = Ok tt.
Proof.
  intros Hplain. destruct u. rewrite create_label_eq. cbv zeta.
  rewrite passable_label_command, printable_label_confirmation by done.
  destruct (spawn w ([py "gh"] ++ label_args label)) as [p w'].
  by destruct (returncode p =? 0)%Z.
Qed.



End Steps.

(** ** The three phases and [main] *)

Section Phases.
Context {World : Type}.
Variable spawn : World → list str → CompletedProcess * World.
Variable json_loads : str → result pyval.
Variable py_str : pyval → str.
Variable LABELS : list LabelSpec.
Variable MILESTONES : list MilestoneSpec.
Variable ISSUES : list IssueSpec.

Lemma create_labels_eq (w : World) :
  create_labels spawn LABELS w =
  let '(t, w', r) := for_each LABELS (create_label spawn) tt w in
  (EvPrint (py "Creating labels...") :: t, w', r).
Proof. reflexivity. Qed.

Lemma create_milestones_eq (w : World) :
  create_milestones spawn json_loads py_str MILESTONES w =
  let '(t, w', r) :=
    for_each MILESTONES (create_milestone spawn json_loads py_str) ∅ w in
  (EvPrint (newline ++ py "Creating milestones...") :: t, w', r).
Proof. reflexivity. Qed.

Lemma create_issues_eq (milestone_numbers : gmap str pyval) (w : World) :
  create_issues spawn py_str ISSUES milestone_numbers w =
  let '(t, w', r) :=
    for_each (enumerate 1 ISSUES) (create_issue spawn py_str milestone_numbers)
      ∅ w in
  (EvPrint (newline ++ py "Creating issues...") :: t, w', r).
Proof. reflexivity. Qed.

(** Each phase runs the commands of its records, in order. *)
Lemma create_labels_runs (w : World) :
  runs_commands (label_commands LABELS) (create_labels spawn LABELS w).
Proof.
  rewrite create_labels_eq.
  pose proof (for_each_commands spawn (λ label, [py "gh"] ++ label_args label)
                (create_label spawn) LABELS (create_label_command spawn) tt w)
    as H.
  destruct (for_each LABELS (create_label spawn) tt w) as [[t w'] r].
  by apply runs_commands_print.
Qed.

Lemma create_milestones_runs (w : World) :
  runs_commands (milestone_commands MILESTONES)
    (create_milestones spawn json_loads py_str MILESTONES w).
Proof.
  rewrite create_milestones_eq.
  pose proof (for_each_commands spawn
                (λ milestone, [py "gh"] ++ milestone_args milestone)
                (create_milestone spawn json_loads py_str) MILESTONES
                (create_milestone_command spawn json_loads py_str) ∅ w) as H.
  destruct (for_each _ _ _ w) as [[t w'] r].
  by apply runs_commands_print.
Qed.

Lemma create_issues_runs (milestone_numbers : gmap str pyval) (w : World) :
  runs_commands (issue_commands py_str ISSUES milestone_numbers)
    (create_issues spawn py_str ISSUES milestone_numbers w).
Proof.
  rewrite create_issues_eq.
  pose proof (for_each_commands spawn
                (λ i_issue : nat * IssueSpec,
                   [py "gh"] ++ issue_args py_str milestone_numbers i_issue.2)
                (create_issue spawn py_str milestone_numbers)
                (enumerate 1 ISSUES)
                (create_issue_command spawn py_str milestone_numbers) ∅ w) as H.
  destruct (for_each _ _ _ w) as [[t w'] r].
  apply runs_commands_print. unfold issue_commands.
  rewrite <- (enumerate_snd 1 ISSUES) at 1. by rewrite <- list_fmap_compose.
Qed.

(** The phases return on plain records and on replies the run survives. *)
Lemma create_labels_returns (w : World) :
  forallb plain_label LABELS = true →
  value (create_labels spawn LABELS w) = Ok tt.
Proof.
  intros Hplain. rewrite create_labels_eq.
  destruct (for_each_returns (create_label spawn) LABELS) with (s := tt) (w := w)
    as [[] H].
  { intros x s w0 Hx. exists tt. apply create_label_returns.
    rewrite forallb_forall in Hplain. by apply Hplain, list_elem_of_In. }
  by destruct (for_each LABELS (create_label spawn) tt w) as [[t w'] r].
Qed.




(** The mapping a phase returns is the fold of its assignments over its
    records paired with its replies. *)
Lemma create_milestones_fold (w : World) (milestone_numbers : gmap str pyval) :
  let o := create_milestones spawn json_loads py_str MILESTONES w in
  value o = Ok milestone_numbers →
  length (replies (events o)) = length MILESTONES
  ∧ milestone_numbers
    = foldl (λ (m : gmap str pyval) (rp : MilestoneSpec * CompletedProcess),
               match decoded_number json_loads rp.2 with
               | Some number => <[milestone_title rp.1 := number]> m
               | None => m
               end)
            ∅ (zip MILESTONES (replies (events o))).
Proof.
  cbv zeta. rewrite create_milestones_eq.
  pose proof (for_each_stores
    (λ milestone p (m : gmap str pyval),
       match decoded_number json_loads p with
       | Some number => <[milestone_title milestone := number]> m
       | None => m
       end)
    (create_milestone spawn json_loads py_str) MILESTONES
    (create_milestone_stores spawn json_loads py_str) ∅ w milestone_numbers)
    as H.
  destruct (for_each _ _ _ w) as [[t w'] r].
  unfold events, value in *. cbn [fst snd] in *. exact H.
Qed.

Lemma create_issues_fold (milestone_numbers : gmap str pyval) (w : World)
    (issue_numbers : gmap str str) :
  let o := create_issues spawn py_str ISSUES milestone_numbers w in
  value o = Ok issue_numbers →
  length (replies (events o)) = length ISSUES
  ∧ issue_numbers
    = foldl (λ (m : gmap str str) (rp : nat * IssueSpec * CompletedProcess),
               match recorded_identifier rp.2 with
               | Some issue_number => <[issue_title rp.1.2 := issue_number]> m
               | None => m
               end)
            ∅ (zip (enumerate 1 ISSUES) (replies (events o))).
Proof.
  cbv zeta. rewrite create_issues_eq.
  pose proof (for_each_stores
    (λ (i_issue : nat * IssueSpec) p (m : gmap str str),
       match recorded_identifier p with
       | Some issue_number => <[issue_title i_issue.2 := issue_number]> m
       | None => m
       end)
    (create_issue spawn py_str milestone_numbers) (enumerate 1 ISSUES)
    (create_issue_stores spawn py_str milestone_numbers) ∅ w issue_numbers)
    as H.
  destruct (for_each _ _ _ w) as [[t w'] r].
  unfold events, value in *. cbn [fst snd replies] in *.
  intros Hr. destruct (H Hr) as [Hlen Hfold]. split; [| done].
  rewrite Hlen. rewrite <- (enumerate_snd 1 ISSUES) at 2.
  by rewrite length_fmap.
Qed.

(** [main] in terms of its phases: each runs from the world the one before
    it left, the issue phase with the mapping the milestone phase returned;
    an exception of a phase ends [main] there, and the summary follows the
    issue phase when it returned. *)
Lemma main_eq (w : World) :
  main spawn json_loads py_str LABELS MILESTONES ISSUES w =
  match create_labels spawn LABELS w with
  | (t1, w1, Raise e) => ([EvPrint banner] ++ t1, w1, Raise e)
  | (t1, w1, Ok _) =>
      match create_milestones spawn json_loads py_str MILESTONES w1 with
      | (t2, w2, Raise e) => ([EvPrint banner] ++ t1 ++ t2, w2, Raise e)
      | (t2, w2, Ok milestone_numbers) =>
          match create_issues spawn py_str ISSUES milestone_numbers w2 with
          | (t3, w3, Raise e) =>
              ([EvPrint banner] ++ t1 ++ t2 ++ t3, w3, Raise e)
          | (t3, w3, Ok issue_numbers) =>
              ([EvPrint banner] ++ t1 ++ t2 ++ t3
               ++ (EvPrint <$> summary LABELS MILESTONES issue_numbers),
               w3, Ok tt)
          end
      end
  end.
Proof.
  unfold main, bind at 1 2 3 4. unfold print at 1.
  change (printable (py "Setting up GitHub issues for " ++ owner_repo ++ newline))
    with true. cbv iota.
  destruct (create_labels spawn LABELS w) as [[t1 w1] [[]|e]]; [| done].
  destruct (create_milestones spawn json_loads py_str MILESTONES w1)
    as [[t2 w2] [milestone_numbers|e]]; [| done].
  destruct (create_issues spawn py_str ISSUES milestone_numbers w2)
    as [[t3 w3] [issue_numbers|e]]; [| done].
  unfold bind, print.
  rewrite !printable_app, !printable_str_of_nat, !printable_py.
  reflexivity.
Qed.

End Phases.

(** ** The run of [main] *)

Section Run.
Context {World : Type}.
Variable spawn : World → list str → CompletedProcess * World.
Variable json_loads : str → result pyval.
Variable py_str : pyval → str.
Variable LABELS : list LabelSpec.
Variable MILESTONES : list MilestoneSpec.
Variable ISSUES : list IssueSpec.

#[local] Abbreviation main_run := (main spawn json_loads py_str LABELS MILESTONES ISSUES).
#[local] Abbreviation labels := (labels_phase spawn LABELS).
#[local] Abbreviation milestones := (milestones_phase spawn json_loads py_str LABELS MILESTONES).
#[local] Abbreviation issues := (issues_phase spawn json_loads py_str LABELS MILESTONES ISSUES).
#[local] Abbreviation built := (mapping_built spawn json_loads py_str LABELS MILESTONES).

Lemma runs_commands_all {A : Type} (argvs : list (list str))
    (o : list event * World * result A) (x : A) :
  runs_commands argvs o → value o = Ok x → spawned (events o) = argvs.
Proof.
  intros (k & _ & Hs & _ & _ & _ & Hv) Hx. rewrite Hx in Hv. subst k.
  by rewrite Hs, firstn_all.
Qed.

(** A run in which the first two phases return, in terms of the third. *)
Lemma main_after_mapping (w : World) (milestone_numbers : gmap str pyval) :
  built w milestone_numbers →
  main_run w
  = ([EvPrint banner] ++ events (labels w) ++ events (milestones w)
     ++ events (issues milestone_numbers w)
     ++ match value (issues milestone_numbers w) with
        | Ok issue_numbers => EvPrint <$> summary LABELS MILESTONES issue_numbers
        | Raise _ => []
        end,
     world_after (issues milestone_numbers w),
     match value (issues milestone_numbers w) with
     | Ok _ => Ok tt
     | Raise e => Raise e
     end)
  ∧ spawned (events (labels w)) = label_commands LABELS
  ∧ spawned (events (milestones w)) = milestone_commands MILESTONES.
Proof.
  unfold mapping_built, issues_phase, milestones_phase, labels_phase.
  intros [Hl Hm].
  pose proof (runs_commands_all _ _ _ (create_labels_runs spawn LABELS w) Hl)
    as Hls.
  pose proof (runs_commands_all _ _ _
                (create_milestones_runs spawn json_loads py_str MILESTONES _) Hm)
    as Hms.
  split; [| by split].
  rewrite main_eq.
  destruct (create_labels spawn LABELS w) as [[t1 w1] r1].
  unfold value, events, world_after in *. cbn [fst snd] in *. subst r1.
  destruct (create_milestones spawn json_loads py_str MILESTONES w1)
    as [[t2 w2] r2].
  cbn [fst snd] in *. subst r2.
  destruct (create_issues spawn py_str ISSUES milestone_numbers w2)
    as [[t3 w3] [issue_numbers|e]]; cbn [fst snd]; [done |].
  by rewrite app_nil_r.
Qed.

(** A run in which one of the first two phases raises ends there. *)
Lemma main_without_mapping (w : World) :
  (∀ milestone_numbers, ¬ built w milestone_numbers) →
  ∃ e, value (main_run w) = Raise e
       ∧ ∀ milestone_numbers,
           runs_commands (all_commands py_str LABELS MILESTONES ISSUES
                            milestone_numbers) (main_run w).
Proof.
  unfold mapping_built, milestones_phase, labels_phase. intros Hnone.
  rewrite main_eq.
  pose proof (create_labels_runs spawn LABELS w) as Hl.
  destruct (create_labels spawn LABELS w) as [[t1 w1] [[]|e]];
    unfold value, world_after in *; cbn [fst snd] in *.
  - pose proof (create_milestones_runs spawn json_loads py_str MILESTONES w1)
      as Hm.
    destruct (create_milestones spawn json_loads py_str MILESTONES w1)
      as [[t2 w2] [m|e]]; cbn [fst snd] in *.
    { by destruct (Hnone m). }
    exists e. split; [done |]. intros m. unfold all_commands.
    apply runs_commands_print.
    eapply runs_commands_app; [exact Hl |].
    eapply runs_commands_raise. exact Hm.
  - exists e. split; [done |]. intros m. unfold all_commands.
    apply runs_commands_print. eapply runs_commands_raise. exact Hl.
Qed.

(** In every run [main] runs the commands of the records, in order and
    phase after phase, those of the issues built with the mapping of the
    milestone phase. *)
Lemma main_runs (w : World) :
  ∃ milestone_numbers,
    (∀ m, built w m → m = milestone_numbers)
    ∧ (value (main_run w) = Ok tt → built w milestone_numbers)
    ∧ runs_commands (all_commands py_str LABELS MILESTONES ISSUES
                       milestone_numbers) (main_run w).
Proof.
  destruct (value (labels w)) as [[]|e1] eqn:Hl.
  - destruct (value (milestones w)) as [m|e2] eqn:Hm.
    + exists m. assert (Hb : built w m) by done.
      split; [intros m' [_ Hm']; congruence |]. split; [done |].
      destruct (main_after_mapping w m Hb) as (-> & Hls & Hms).
      pose proof (create_labels_runs spawn LABELS w) as Hlr.
      pose proof (create_milestones_runs spawn json_loads py_str MILESTONES
                    (world_after (labels w))) as Hmr.
      pose proof (create_issues_runs spawn py_str ISSUES m
                    (world_after (milestones w))) as Hir.
      fold (labels w) in Hlr. fold (milestones w) in Hmr.
      fold (issues m w) in Hir.
      destruct (labels w) as [[t1 w1] r1]. destruct (milestones w) as [[t2 w2] r2].
      unfold value, events, world_after in *. cbn [fst snd] in *. subst r1 r2.
      unfold all_commands. apply runs_commands_print.
      eapply runs_commands_app; [exact Hlr |].
      destruct (issues m w) as [[t3 w3] [n|e]]; cbn [fst snd].
      * rewrite app_assoc. eapply runs_commands_summary.
        eapply runs_commands_app; [exact Hmr | exact Hir].
      * rewrite app_nil_r. eapply runs_commands_app; [exact Hmr | exact Hir].
    + exists ∅.
      destruct (main_without_mapping w) as (e & He & Hruns).
      { intros m [_ Hm']. congruence. }
      split; [intros m [_ Hm']; congruence |].
      split; [congruence | apply Hruns].
  - exists ∅.
    destruct (main_without_mapping w) as (e & He & Hruns).
    { intros m [Hl' _]. congruence. }
    split; [intros m [Hl' _]; congruence |].
    split; [congruence | apply Hruns].
Qed.


End Run.

(** ** Dicts filled by a loop *)

(** A dict filled by a fold of assignments holds, for a key, what the last
    assignment to that key stored, and else what it held before. *)
Lemma foldl_insert_lookup {R V : Type} (title_of : R → str)
    (stored : CompletedProcess → option V)
    (pairs : list (R * CompletedProcess)) (acc : gmap str V) (title : str) :
  foldl (λ m rp, match stored rp.2 with
                 | Some v => <[title_of rp.1 := v]> m
                 | None => m
                 end) acc pairs !! title
  = match last_stored title_of stored title pairs with
    | Some v => Some v
    | None => acc !! title
    end.
Proof.
  unfold last_stored. revert acc.
  induction pairs as [|[r p] pairs IH]; intros acc; [done |].
  cbn [foldl omap list_omap fst snd]. rewrite IH.
  destruct (decide (title_of r = title)) as [Heq|Hne].
  - destruct (stored p) as [v|]; [| done].
    rewrite last_cons_or.
    destruct (last _); [done |]. subst title. by rewrite lookup_insert_eq.
  - destruct (last _); [done |].
    destruct (stored p) as [v|]; [| done]. by rewrite lookup_insert_ne.
Qed.

(** Such a dict grows by at most one entry per assignment, and by exactly
    one when the keys assigned are new and pairwise distinct. *)
Lemma foldl_insert_size {R V : Type} (title_of : R → str)
    (stored : CompletedProcess → option V)
    (pairs : list (R * CompletedProcess)) (acc : gmap str V) :
  let m := foldl (λ m rp, match stored rp.2 with
                          | Some v => <[title_of rp.1 := v]> m
                          | None => m
                          end) acc pairs in
  size m ≤ size acc + length (omap (λ rp, stored rp.2) pairs)
  ∧ (NoDup (title_of <$> pairs.*1) →
     (∀ r, r ∈ pairs.*1 → acc !! title_of r = None) →
     size m = size acc + length (omap (λ rp, stored rp.2) pairs)).
Proof.
  cbv zeta. revert acc.
  induction pairs as [|[r p] pairs IH]; intros acc.
  - simpl. split; [lia |]. intros _ _. lia.
  - cbn [foldl omap list_omap fst snd].
    destruct (stored p) as [v|].
    + destruct (IH (<[title_of r := v]> acc)) as [Hle Heq]. split.
      * rewrite map_size_insert in Hle. simpl.
        destruct (acc !! title_of r); simpl in Hle; lia.
      * csimpl. intros [Hr Hnd]%NoDup_cons Hnew.
        rewrite Heq; [| done |].
        -- rewrite map_size_insert, (Hnew r); [simpl; lia | by left].
        -- intros r' Hr'. rewrite lookup_insert_ne; [apply Hnew; by right |].
           intros Heq'. apply Hr. rewrite Heq'.
           by apply list_elem_of_fmap_2.
    + destruct (IH acc) as [Hle Heq]. split; [done |].
      csimpl. intros [Hr Hnd]%NoDup_cons Hnew.
      apply Heq; [done |]. intros r' Hr'. apply Hnew. by right.
Qed.

Lemma length_omap_zip_snd {A B C} (f : B → option C) (xs : list A) (ps : list B) :
  length ps = length xs →
  length (omap (λ rp : A * B, f rp.2) (zip xs ps)) = length (omap f ps).
Proof.
  revert ps. induction xs as [|x xs IH]; intros [|p ps] Hlen; try done.
  cbn [zip zip_with omap list_omap snd].
  injection Hlen as Hlen. destruct (f p); simpl; by rewrite IH.
Qed.

Lemma length_omap_le {A B} (f : A → option B) (l : list A) :
  length (omap f l) ≤ length l.
Proof.
  induction l as [|x l IH]; [done |]. cbn [omap list_omap].
  destruct (f x); simpl; lia.
Qed.

(** The index [enumerate] adds plays no part in a fold that does not read
    it. *)
Lemma foldl_zip_enumerate {A B St} (f : St → A → B → St) (n : nat)
    (xs : list A) (ps : list B) (acc : St) :
  foldl (λ s (rp : nat * A * B), f s rp.1.2 rp.2) acc (zip (enumerate n xs) ps)
  = foldl (λ s (rp : A * B), f s rp.1 rp.2) acc (zip xs ps).
Proof.
  revert n ps acc. induction xs as [|x xs IH]; intros n [|p ps] acc; try done.
  cbn [enumerate zip zip_with foldl fst snd]. apply IH.
Qed.

(** When the titles are pairwise distinct, the last pair of a title is its
    only pair. *)
Lemma last_stored_NoDup {R V : Type} (title_of : R → str)
    (stored : CompletedProcess → option V)
    (xs : list R) (ps : list CompletedProcess) (k : nat) (x : R)
    (p : CompletedProcess) :
  NoDup (title_of <$> xs) → xs !! k = Some x → ps !! k = Some p →
  last_stored title_of stored (title_of x) (zip xs ps) = stored p.
Proof.
  unfold last_stored. revert ps k.
  induction xs as [|x0 xs IH]; intros [|p0 ps] k Hdistinct Hx Hp;
    try (by rewrite lookup_nil in Hx); try (by rewrite lookup_nil in Hp).
  csimpl in Hdistinct. apply NoDup_cons in Hdistinct as [Hx0 Hnd].
  cbn [zip zip_with omap list_omap fst snd].
  change (zip_with pair xs ps) with (zip xs ps).
  destruct k as [|k]; cbn in Hx, Hp.
  - injection Hx as ->. injection Hp as ->.
    rewrite decide_True by done.
    assert (Hrest : omap (λ rp : R * CompletedProcess,
                            if decide (title_of rp.1 = title_of x)
                            then stored rp.2 else None) (zip xs ps) = []).
    { clear IH Hnd. revert ps. induction xs as [|y xs IHx]; intros [|q ps];
        try done.
      cbn [zip zip_with omap list_omap fst snd].
      change (zip_with pair xs ps) with (zip xs ps).
      csimpl in Hx0. apply not_elem_of_cons in Hx0 as [Hy Hx0].
      rewrite decide_False by done. by apply IHx. }
    rewrite Hrest. by destruct (stored p).
  - rewrite decide_False.
    + by eapply IH.
    + intros Heq. apply Hx0. rewrite Heq.
      apply list_elem_of_fmap_2. by eapply list_elem_of_lookup_2.
Qed.

Lemma last_stored_is_Some {R V : Type} (title_of : R → str)
    (stored : CompletedProcess → option V) (title : str)
    (xs : list R) (ps : list CompletedProcess) :
  length ps = length xs →
  title ∈ title_of <$> xs →
  forallb (λ p, match stored p with Some _ => true | None => false end) ps
  = true →
  is_Some (last_stored title_of stored title (zip xs ps)).
Proof.
  unfold last_stored. revert ps.
  induction xs as [|x xs IH]; intros [|p ps] Hlen Hin Hall; try done.
  { by apply elem_of_nil in Hin. }
  injection Hlen as Hlen. csimpl in Hin. simpl in Hall.
  apply andb_true_iff in Hall as [Hp Hall].
  cbn [zip zip_with omap list_omap fst snd].
  change (zip_with pair xs ps) with (zip xs ps).
  destruct (decide (title_of x = title)) as [Heq|Hne].
  - destruct (stored p) as [v|]; [| done].
    rewrite last_cons_or. by destruct (last _).
  - apply elem_of_cons in Hin as [Hin|Hin]; [congruence |]. by apply IH.
Qed.

(** The identifier recorded for a reply that exited with code 0 and printed
    something: the last item of the output split at ['/']. *)
Lemma recorded_identifier_last_segment (p : CompletedProcess) :
  returncode p = 0%Z → strip (stdout p) ≠ [] →
  ∃ issue_number,
    recorded_identifier p = Some issue_number
    ∧ getitem_last (split slash (strip (stdout p))) = Ok issue_number
    ∧ (slash ∉ issue_number)
    ∧ (∃ pre, strip (stdout p) = pre ++ issue_number
              ∧ (pre = [] ∨ last pre = Some slash))
    ∧ (∀ pre, strip (stdout p) = pre ++ py "/issues/42" →
              issue_number = py "42").
Proof.
  intros Hrc Htext.
  destruct (last_sep_decompose slash (strip (stdout p)))
    as (pre & seg & Hs & Hseg & Hpre).
  assert (Hlast : getitem_last (split slash (strip (stdout p))) = Ok seg).
  { rewrite Hs. destruct Hpre as [-> | Hl].
    - by apply last_segment_whole.
    - apply last_Some in Hl as [pre' ->]. rewrite <- app_assoc.
      by apply last_segment. }
  exists seg. split.
  { unfold recorded_identifier. apply Z.eqb_eq in Hrc. rewrite Hrc.
    destruct (strip (stdout p)) as [|c text]; [done |]. by rewrite Hlast. }
  split; [done |]. split; [done |]. split; [by exists pre |].
  intros pre' Hpre'. rewrite Hpre' in Hlast.
  change (pre' ++ py "/issues/42")
    with (pre' ++ [slash] ++ py "issues" ++ slash :: py "42") in Hlast.
  rewrite !app_assoc in Hlast.
  rewrite last_segment in Hlast; [congruence |].
  vm_compute. intros H. repeat (apply elem_of_cons in H as [H|H]; [done |]).
  by apply elem_of_nil in H.
Qed.

(** ** Only creations, only in the one repository *)

Lemma forallb_fmap_true {A B} (f : B → bool) (g : A → B) (l : list A) :
  (∀ x, f (g x) = true) → forallb f (g <$> l) = true.
Proof.
  intros H. induction l as [|x l IH]; csimpl; [done |]. by rewrite H, IH.
Qed.

Lemma forallb_take_true {A} (f : A → bool) (n : nat) (l : list A) :
  forallb f l = true → forallb f (take n l) = true.
Proof.
  revert n. induction l as [|x l IH]; intros [|n]; simpl; try done.
  intros [Hx Hl]%andb_true_iff. by rewrite Hx, IH.
Qed.

Lemma label_command_creates_in_repo (label : LabelSpec) :
  creates_in_repo ([py "gh"] ++ label_args label) = true.
Proof.
  unfold creates_in_repo. apply orb_true_iff. left. apply orb_true_iff. left.
  by apply bool_decide_eq_true.
Qed.

Lemma milestone_command_creates_in_repo (milestone : MilestoneSpec) :
  creates_in_repo ([py "gh"] ++ milestone_args milestone) = true.
Proof.
  unfold creates_in_repo. apply orb_true_iff. left. apply orb_true_iff. right.
  by apply bool_decide_eq_true.
Qed.

Lemma issue_command_creates_in_repo (py_str : pyval → str)
    (milestone_numbers : gmap str pyval) (issue : IssueSpec) :
  creates_in_repo ([py "gh"] ++ issue_args py_str milestone_numbers issue)
  = true.
Proof.
  unfold creates_in_repo. apply orb_true_iff. right.
  apply bool_decide_eq_true. unfold issue_args, milestone_arg.
  destruct (issue_milestone issue) as [title|];
    [destruct (milestone_numbers !! title) |];
    (split; [done | split; [done |]]);
    [right; by split | by left | by left].
Qed.

(** * The claims *)


(** C9. For every issue record the argument after [--label] is the
    record's label names joined with commas: the iteration hands [gh issue
    create] with that argument to [subprocess.run], which starts the
    process with exactly these arguments, or raises without starting
    anything when one of them cannot be passed. The join keeps the names as
    they are declared: when no name contains a comma, splitting the argument
    at the commas gives the list of the record back, in its order and with
    its repetitions. Nothing but the record's own list enters the
    argument. *)
Theorem issue_labels_argument {World : Type}
    (spawn : World → list str → CompletedProcess * World)
    (py_str : pyval → str) (milestone_numbers : gmap str pyval)
    (i : nat) (issue : IssueSpec) (issue_numbers : gmap str str) (w : World) :
  let argv := [py "gh"; py "issue"; py "create";
               py "--title"; issue_title issue;
               py "--body"; issue_body issue;
               py "--label"; join (py ",") (issue_labels issue);
               py "--repo"; py "DubiWork/maaser-tracker"]
              ++ milestone_arg py_str milestone_numbers issue in
  (if forallb passable argv
   then ∃ p t w' r,
          create_issue spawn py_str milestone_numbers (i, issue) issue_numbers w
          = (EvSpawn argv p :: t, w', r)
   else create_issue spawn py_str milestone_numbers (i, issue) issue_numbers w
        = ([], w, Raise ValueError))
  ∧ (issue_labels issue ≠ [] →
     Forall (λ name, 44%N ∉ name) (issue_labels issue) →
     split 44 (join (py ",") (issue_labels issue)) = issue_labels issue).
Proof.
  cbv zeta. split.
  - rewrite create_issue_eq. cbv zeta.
    change ([py "gh"] ++ issue_args py_str milestone_numbers issue)
      with ([py "gh"; py "issue"; py "create";
             py "--title"; issue_title issue;
             py "--body"; issue_body issue;
             py "--label"; join (py ",") (issue_labels issue);
             py "--repo"; py "DubiWork/maaser-tracker"]
            ++ milestone_arg py_str milestone_numbers issue).
    destruct (forallb passable _); [| done].
    destruct (spawn w _) as [p w'].
    destruct (returncode p =? 0)%Z; [| by eexists p, _, w', _].
    destruct (strip (stdout p)) as [|c text]; [by eexists p, _, w', _ |].
    destruct (getitem_last (split slash (c :: text))) as [issue_number|e];
      [| by eexists p, _, w', _].
    destruct (printable (issue_confirmation issue issue_number));
      by eexists p, _, w', _.
  - intros Hne Hall. by apply (split_join 44).
Qed.

(** C10. When a process is started, exits with code 0 and its output,
    stripped, is empty: the label iteration goes on to print its
    confirmation all the same, and the line is written unless the label name
    holds a surrogate that standard output cannot encode; while the
    milestone iteration and the issue iteration print nothing and return
    their mapping unchanged. A command with an argument that cannot be
    passed starts no process. *)
Theorem empty_success_label_vs_mapping {World : Type}
    (spawn : World → list str → CompletedProcess * World)
    (json_loads : str → result pyval) (py_str : pyval → str)
    (label : LabelSpec) (milestone : MilestoneSpec)
    (milestone_numbers : gmap str pyval)
    (i : nat) (issue : IssueSpec) (issue_numbers : gmap str str)
    (w w' : World) (p : CompletedProcess) :
  returncode p = 0%Z →
  strip (stdout p) = [] →
  (spawn w ([py "gh"] ++ label_args label) = (p, w') →
   create_label spawn label tt w
   = (if forallb passable ([py "gh"] ++ label_args label) then
        if printable (py "  " ++ check_mark ++ py " Created label: "
                      ++ label_name label)
        then ([EvSpawn ([py "gh"] ++ label_args label) p;
               EvPrint (py "  " ++ check_mark ++ py " Created label: "
                        ++ label_name label)],
              w', Ok tt)
        else ([EvSpawn ([py "gh"] ++ label_args label) p], w', Raise ValueError)
      else ([], w, Raise ValueError)))
  ∧ (spawn w ([py "gh"] ++ milestone_args milestone) = (p, w') →
     create_milestone spawn json_loads py_str milestone milestone_numbers w
     = (if forallb passable ([py "gh"] ++ milestone_args milestone)
        then ([EvSpawn ([py "gh"] ++ milestone_args milestone) p], w',
              Ok milestone_numbers)
        else ([], w, Raise ValueError)))
  ∧ (spawn w ([py "gh"] ++ issue_args py_str milestone_numbers issue) = (p, w') →
     create_issue spawn py_str milestone_numbers (i, issue) issue_numbers w
     = (if forallb passable ([py "gh"] ++ issue_args py_str milestone_numbers issue)
        then ([EvSpawn ([py "gh"] ++ issue_args py_str milestone_numbers issue) p],
              w', Ok issue_numbers)
        else ([], w, Raise ValueError))).
Proof.
  intros Hrc Htext. apply Z.eqb_eq in Hrc.
  split; [| split]; intros Hspawn.
  - rewrite create_label_eq. cbv zeta. rewrite Hspawn. by rewrite Hrc.
  - rewrite create_milestone_eq. cbv zeta. by rewrite Hspawn, Hrc, Htext.
  - rewrite create_issue_eq. cbv zeta. by rewrite Hspawn, Hrc, Htext.
Qed.


(** C5. Every iteration of the milestone loop whose process exits with
    code 0 and prints a text, not empty once stripped, that [json.loads]
    decodes to a dict with a ["number"] key adds the entry from the record's
    title to the value under that key (for [{"number": 7, ...}], the entry
    title -> 7) and prints the confirmation; an iteration whose process
    exits with another code returns the mapping as it was. And the phase
    keeps what its iterations add: when it returns, it has started the
    command of every milestone record, in order, and received one reply for
    each, and the mapping it returns is the empty mapping after these steps,
    one per record and in order. With pairwise distinct titles, as declared,
    the mapping so holds under each title what the reply to that record's
    command carried, and nothing when the request failed. *)
Theorem create_milestones_records_numbers {World : Type}
    (spawn : World → list str → CompletedProcess * World)
    (json_loads : str → result pyval) (py_str : pyval → str)
    (MILESTONES : list MilestoneSpec) (w : World)
    (milestone_numbers : gmap str pyval) :
  let o := create_milestones spawn json_loads py_str MILESTONES w in
  (∀ milestone m0 w0 w1 p,
     spawn w0 ([py "gh"] ++ milestone_args milestone) = (p, w1) →
     forallb passable ([py "gh"] ++ milestone_args milestone) = true →
     (returncode p = 0%Z → strip (stdout p) ≠ [] →
      ∀ d number,
        json_loads (strip (stdout p)) = Ok (PDict d) →
        d !! py "number" = Some number →
        printable (milestone_confirmation py_str milestone number) = true →
        create_milestone spawn json_loads py_str milestone m0 w0
        = ([EvSpawn ([py "gh"] ++ milestone_args milestone) p;
            EvPrint (py "  " ++ check_mark ++ py " Created milestone: "
                     ++ milestone_title milestone ++ py " (#" ++ py_str number
                     ++ py ")")],
           w1, Ok (<[milestone_title milestone := number]> m0)))
     ∧ (returncode p ≠ 0%Z →
        create_milestone spawn json_loads py_str milestone m0 w0
        = ([EvSpawn ([py "gh"] ++ milestone_args milestone) p;
            EvPrintErr (error_line (stderr p))],
           w1, Ok m0)))
  ∧ (value o = Ok milestone_numbers →
     spawned (events o) = milestone_commands MILESTONES
     ∧ length (replies (events o)) = length MILESTONES
     ∧ milestone_numbers
       = foldl (λ (m : gmap str pyval) (rp : MilestoneSpec * CompletedProcess),
                  match decoded_number json_loads rp.2 with
                  | Some number => <[milestone_title rp.1 := number]> m
                  | None => m
                  end)
               ∅ (zip MILESTONES (replies (events o)))
     ∧ (∀ p d number,
          returncode p = 0%Z → strip (stdout p) ≠ [] →
          json_loads (strip (stdout p)) = Ok (PDict d) →
          d !! py "number" = Some number →
          decoded_number json_loads p = Some number)
     ∧ (∀ p, returncode p ≠ 0%Z → decoded_number json_loads p = None)
     ∧ (NoDup (milestone_title <$> MILESTONES) →
        ∀ k milestone p,
          MILESTONES !! k = Some milestone → replies (events o) !! k = Some p →
          milestone_numbers !! milestone_title milestone
          = decoded_number json_loads p)).
Proof.
  cbv zeta. split.
  { intros milestone m0 w0 w1 p Hspawn Hpass.
    rewrite create_milestone_eq. cbv zeta. rewrite Hpass, Hspawn. split.
    - intros Hrc Htext d number Hload Hnumber Hprint.
      apply Z.eqb_eq in Hrc. rewrite Hrc.
      destruct (strip (stdout p)) as [|c text]; [done |].
      rewrite Hload. cbn [getitem]. by rewrite Hnumber, Hprint.
    - intros Hrc. apply Z.eqb_neq in Hrc. by rewrite Hrc. }
  intros Hok.
  destruct (create_milestones_fold spawn json_loads py_str MILESTONES w
              milestone_numbers Hok) as [Hlen Hfold].
  split.
  { eapply runs_commands_all; [apply create_milestones_runs | exact Hok]. }
  split; [done |]. split; [done |]. split.
  { intros p d number Hrc Htext Hload Hnumber. unfold decoded_number.
    apply Z.eqb_eq in Hrc. rewrite Hrc.
    destruct (strip (stdout p)) as [|c text]; [done |]. by rewrite Hload. }
  split.
  { intros p Hrc. unfold decoded_number.
    apply Z.eqb_neq in Hrc. by rewrite Hrc. }
  intros Hdistinct k milestone p Hk Hp. rewrite Hfold at 1.
  rewrite (foldl_insert_lookup milestone_title (decoded_number json_loads)).
  rewrite (last_stored_NoDup _ _ _ _ k milestone p) by done.
  by destruct (decoded_number json_loads p).
Qed.

(** C6. Every iteration of the issue loop whose process exits with code 0
    and prints something records, under the record's title, the identifier
    of the reply, and prints it in the confirmation. That identifier is the
    last item of the stripped output split at ['/']: it contains no ['/'],
    and it is the end of the output, either all of it or what follows a
    ['/']; for an output that ends with [/issues/42] it is the text [42].
    And the phase keeps what its iterations record: when it returns, it has
    started the command of every issue record, in order, and received one
    reply for each, and the mapping it returns is the empty mapping after
    these steps, one per record and in order. With pairwise distinct titles,
    as declared, the mapping holds under each title the identifier of the
    reply to that record's command. *)
Theorem create_issues_records_last_segment {World : Type}
    (spawn : World → list str → CompletedProcess * World)
    (py_str : pyval → str) (ISSUES : list IssueSpec)
    (milestone_numbers : gmap str pyval) (w : World)
    (issue_numbers : gmap str str) :
  let o := create_issues spawn py_str ISSUES milestone_numbers w in
  (∀ p, returncode p = 0%Z → strip (stdout p) ≠ [] →
     ∃ issue_number,
       recorded_identifier p = Some issue_number
       ∧ getitem_last (split slash (strip (stdout p))) = Ok issue_number
       ∧ (slash ∉ issue_number)
       ∧ (∃ pre, strip (stdout p) = pre ++ issue_number
                 ∧ (pre = [] ∨ last pre = Some slash))
       ∧ (∀ pre, strip (stdout p) = pre ++ py "/issues/42" →
                 issue_number = py "42")
       ∧ ∀ i issue n0 w0 w1,
           spawn w0 ([py "gh"] ++ issue_args py_str milestone_numbers issue)
           = (p, w1) →
           forallb passable
             ([py "gh"] ++ issue_args py_str milestone_numbers issue) = true →
           printable (issue_confirmation issue issue_number) = true →
           create_issue spawn py_str milestone_numbers (i, issue) n0 w0
           = ([EvSpawn ([py "gh"] ++ issue_args py_str milestone_numbers issue) p;
               EvPrint (py "  " ++ check_mark ++ py " Created issue #"
                        ++ issue_number ++ py ": " ++ issue_title issue)],
              w1, Ok (<[issue_title issue := issue_number]> n0)))
  ∧ (value o = Ok issue_numbers →
     spawned (events o) = issue_commands py_str ISSUES milestone_numbers
     ∧ length (replies (events o)) = length ISSUES
     ∧ issue_numbers
       = foldl (λ (m : gmap str str) (rp : IssueSpec * CompletedProcess),
                  match recorded_identifier rp.2 with
                  | Some issue_number => <[issue_title rp.1 := issue_number]> m
                  | None => m
                  end)
               ∅ (zip ISSUES (replies (events o)))
     ∧ (NoDup (issue_title <$> ISSUES) →
        ∀ k issue p,
          ISSUES !! k = Some issue → replies (events o) !! k = Some p →
          issue_numbers !! issue_title issue = recorded_identifier p)).
Proof.
  cbv zeta. split.
  { intros p Hrc Htext.
    destruct (recorded_identifier_last_segment p Hrc Htext)
      as (issue_number & Hrec & Hlast & Hfree & Hend & H42).
    exists issue_number. repeat (split; [done |]).
    intros i issue n0 w0 w1 Hspawn Hpass Hprint.
    rewrite create_issue_eq. cbv zeta. rewrite Hpass, Hspawn.
    apply Z.eqb_eq in Hrc. rewrite Hrc.
    destruct (strip (stdout p)) as [|c text]; [done |].
    by rewrite Hlast, Hprint. }
  intros Hok.
  destruct (create_issues_fold spawn py_str ISSUES milestone_numbers w
              issue_numbers Hok) as [Hlen Hfold].
  rewrite (foldl_zip_enumerate
             (λ (m : gmap str str) (issue : IssueSpec) (p : CompletedProcess),
                match recorded_identifier p with
                | Some issue_number => <[issue_title issue := issue_number]> m
                | None => m
                end)) in Hfold.
  split.
  { eapply runs_commands_all; [apply create_issues_runs | exact Hok]. }
  split; [done |]. split; [done |].
  intros Hdistinct k issue p Hk Hp. rewrite Hfold at 1.
  rewrite (foldl_insert_lookup issue_title recorded_identifier).
  rewrite (last_stored_NoDup _ _ _ _ k issue p) by done.
  by destruct (recorded_identifier p).
Qed.

(** C8. For every label record the argument list is [label create], the
    name, [--color] and the color, [--description] and the description,
    [--repo] and the repository, and last the flag [--force]. So, where the
    tool honours the flag and the texts of the records are plain: the labels
    phase over two records of one name starts both commands and returns;
    both processes exit with code 0, nothing is written to the error stream
    and both confirmations are printed, so the second creation is no error;
    and the label is left with the color and the description of the second
    record. *)
Theorem create_labels_force_replaces {World : Type}
    (spawn : World → list str → CompletedProcess * World)
    (label_of : World → str → option (str * str))
    (first again : LabelSpec) (w : World) :
  honours_force spawn label_of →
  plain_label first = true → plain_label again = true →
  label_name again = label_name first →
  let o := create_labels spawn [first; again] w in
  (∀ label,
     label_args label
     = [py "label"; py "create"; label_name label;
        py "--color"; label_color label;
        py "--description"; label_description label;
        py "--repo"; py "DubiWork/maaser-tracker"; py "--force"])
  ∧ value o = Ok tt
  ∧ spawned (events o)
    = [[py "gh"] ++ label_args first; [py "gh"] ++ label_args again]
  ∧ Forall (λ p, returncode p = 0%Z) (replies (events o))
  ∧ printed_stderr (events o) = []
  ∧ printed (events o)
    = [py "Creating labels...";
       py "  " ++ check_mark ++ py " Created label: " ++ label_name first;
       py "  " ++ check_mark ++ py " Created label: " ++ label_name again]
  ∧ label_of (world_after o) (label_name first)
    = Some (label_color again, label_description again).
Proof.
  intros Hforce Hfirst Hagain Hname. cbv zeta. split; [done |].
  destruct (Hforce w (label_name first) (label_color first)
              (label_description first)) as [Hrc1 _].
  change [py "gh"; py "label"; py "create"; label_name first; py "--color";
          label_color first; py "--description"; label_description first;
          py "--repo"; py "DubiWork/maaser-tracker"; py "--force"]
    with ([py "gh"] ++ label_args first) in Hrc1.
  rewrite create_labels_eq, for_each_cons, create_label_eq. cbv zeta.
  rewrite passable_label_command, printable_label_confirmation by done.
  destruct (spawn w ([py "gh"] ++ label_args first)) as [p1 w1].
  cbn [fst] in Hrc1. rewrite Hrc1. cbn [Z.eqb].
  destruct (Hforce w1 (label_name again) (label_color again)
              (label_description again)) as [Hrc2 Hlabel].
  change [py "gh"; py "label"; py "create"; label_name again; py "--color";
          label_color again; py "--description"; label_description again;
          py "--repo"; py "DubiWork/maaser-tracker"; py "--force"]
    with ([py "gh"] ++ label_args again) in Hrc2, Hlabel.
  rewrite for_each_cons, create_label_eq. cbv zeta.
  rewrite passable_label_command, printable_label_confirmation by done.
  destruct (spawn w1 ([py "gh"] ++ label_args again)) as [p2 w2].
  cbn [fst snd] in Hrc2, Hlabel. rewrite Hrc2. cbn [Z.eqb].
  unfold value, events, world_after. cbn [fst snd for_each ret app].
  split; [done |]. split; [done |].
  split; [by repeat constructor |]. split; [done |]. split; [done |].
  by rewrite <- Hname.
Qed.



(** C7, as amended. In every run [main] prints its banner and runs the
    labels phase; when that phase returns, having started the command of
    every label record, the milestone phase runs from the world it left;
    when that phase returns, having started the command of every milestone
    record, the issue phase runs from the world it left, with the mapping it
    returned; and when that phase returns, having started the command of
    every issue record, the five summary lines are printed, with the length
    of the label list, the length of the milestone list and the size of the
    mapping the issue phase returned, and [main] returns. A process that
    fails ends no phase. But an exception that escapes a phase ends [main]
    there: the later phases do not run and no summary is printed. *)
Theorem main_phases_in_order {World : Type}
    (spawn : World → list str → CompletedProcess * World)
    (json_loads : str → result pyval) (py_str : pyval → str)
    (LABELS : list LabelSpec) (MILESTONES : list MilestoneSpec)
    (ISSUES : list IssueSpec) (w : World) :
  let banner_line :=
    EvPrint (py "Setting up GitHub issues for DubiWork/maaser-tracker" ++ newline) in
  ∃ t1 w1 r1,
    create_labels spawn LABELS w = (t1, w1, r1)
    ∧ match r1 with
      | Raise e =>
          main spawn json_loads py_str LABELS MILESTONES ISSUES w
          = ([banner_line] ++ t1, w1, Raise e)
      | Ok _ =>
          spawned t1 = label_commands LABELS
          ∧ ∃ t2 w2 r2,
              create_milestones spawn json_loads py_str MILESTONES w1
              = (t2, w2, r2)
              ∧ match r2 with
                | Raise e =>
                    main spawn json_loads py_str LABELS MILESTONES ISSUES w
                    = ([banner_line] ++ t1 ++ t2, w2, Raise e)
                | Ok milestone_numbers =>
                    spawned t2 = milestone_commands MILESTONES
                    ∧ ∃ t3 w3 r3,
                        create_issues spawn py_str ISSUES milestone_numbers w2
                        = (t3, w3, r3)
                        ∧ match r3 with
                          | Raise e =>
                              main spawn json_loads py_str LABELS MILESTONES
                                ISSUES w
                              = ([banner_line] ++ t1 ++ t2 ++ t3, w3, Raise e)
                          | Ok issue_numbers =>
                              spawned t3
                              = issue_commands py_str ISSUES milestone_numbers
                              ∧ phases_then_summary spawn json_loads py_str
                                  LABELS MILESTONES ISSUES w
                              ∧ main spawn json_loads py_str LABELS MILESTONES
                                  ISSUES w
                                = ([banner_line] ++ t1 ++ t2 ++ t3
                                   ++ [EvPrint (newline ++ white_check_mark
                                                ++ py " Setup complete!");
                                       EvPrint (py "   Created "
                                                ++ str_of_nat (length LABELS)
                                                ++ py " labels");
                                       EvPrint (py "   Created "
                                                ++ str_of_nat (length MILESTONES)
                                                ++ py " milestones");
                                       EvPrint (py "   Created "
                                                ++ str_of_nat (size issue_numbers)
                                                ++ py " issues");
                                       EvPrint (newline
                                                ++ py "View at: https://github.com/DubiWork/maaser-tracker/issues")],
                                   w3, Ok tt)
                          end
                end
      end.
Proof.
  cbv zeta. rewrite main_eq.
  pose proof (create_labels_runs spawn LABELS w) as Hl.
  destruct (create_labels spawn LABELS w) as [[t1 w1] [[]|e1]] eqn:E1;
    exists t1, w1; eexists; (split; [reflexivity |]); [| done].
  split; [by eapply (runs_commands_all _ _ tt Hl) |].
  pose proof (create_milestones_runs spawn json_loads py_str MILESTONES w1) as Hm.
  destruct (create_milestones spawn json_loads py_str MILESTONES w1)
    as [[t2 w2] [m|e2]] eqn:E2;
    exists t2, w2; eexists; (split; [reflexivity |]); [| done].
  split; [by eapply (runs_commands_all _ _ m Hm) |].
  pose proof (create_issues_runs spawn py_str ISSUES m w2) as Hi.
  destruct (create_issues spawn py_str ISSUES m w2) as [[t3 w3] [n|e3]] eqn:E3;
    exists t3, w3; eexists; (split; [reflexivity |]); [| done].
  split; [by eapply (runs_commands_all _ _ n Hi) |].
  split; [| done].
  exists t1, w1, t2, w2, m, t3, w3, n. rewrite main_eq, E1, E2, E3. done.
Qed.

(** ** The claims on the runs over the declared records *)



(** C7, as stated, fails in the garbled run: the issue phase and the
    summary never come. *)
Lemma garbled_run_prints_no_summary :
  ¬ phases_then_summary (Scripted.spawn Runs.garbled_script)
      JsonRef.loads JsonRef.to_str Repo.LABELS Repo.MILESTONES Repo.ISSUES 0.
Proof.
  intros (t1 & w1 & t2 & w2 & m & t3 & w3 & n & _ & _ & _ & H).
  apply (f_equal value) in H. vm_compute in H. discriminate.
Qed.



(** C5 on the declared milestones, when the first request is answered with
    ["number": 7] and the second is refused: the first title is bound to 7
    and the second is no key. *)
Lemma create_milestones_records_numbers_witness :
  let o := create_milestones (Scripted.spawn [Runs.milestone_7; Service.refused])
             JsonRef.loads JsonRef.to_str Repo.MILESTONES 0 in
  let milestone_numbers := returned_value ∅ (value o) in
  value o = Ok milestone_numbers
  ∧ milestone_numbers !! py "v0.2.0 - Foundation" = Some (PInt 7)
  ∧ milestone_numbers !! py "v0.3.0 - Core Features" = None.
Proof.
  intros o milestone_numbers.
  assert (Hv : value o = Ok milestone_numbers).
  { apply returned_Ok. vm_compute. reflexivity. }
  destruct (create_milestones_records_numbers
              (Scripted.spawn [Runs.milestone_7; Service.refused])
              JsonRef.loads JsonRef.to_str Repo.MILESTONES 0 milestone_numbers)
    as [_ Hphase].
  destruct (Hphase Hv) as (_ & _ & _ & _ & _ & Hlookup).
  assert (Hdistinct : NoDup (milestone_title <$> Repo.MILESTONES)).
  { apply (bool_decide_unpack _). vm_compute. exact I. }
  split; [exact Hv |]. split.
  - change (py "v0.2.0 - Foundation")
      with (milestone_title (Runs.nth_milestone 0)).
    rewrite (Hlookup Hdistinct 0 (Runs.nth_milestone 0) Runs.milestone_7);
      [| reflexivity | vm_compute; reflexivity].
    vm_compute. reflexivity.
  - change (py "v0.3.0 - Core Features")
      with (milestone_title (Runs.nth_milestone 1)).
    rewrite (Hlookup Hdistinct 1 (Runs.nth_milestone 1) Service.refused);
      [| reflexivity | vm_compute; reflexivity].
    vm_compute. reflexivity.
Defined.

(** C6 on the declared issues, when the first request is answered with the
    URL of issue 42 and the second is refused: the first title is bound to
    the text [42] and the second is no key. *)
Lemma create_issues_records_last_segment_witness :
  let o := create_issues (Scripted.spawn [Runs.issue_42; Service.refused])
             JsonRef.to_str Repo.ISSUES ∅ 0 in
  let issue_numbers := returned_value ∅ (value o) in
  value o = Ok issue_numbers
  ∧ issue_numbers !! issue_title (Runs.nth_issue 0) = Some (py "42")
  ∧ issue_numbers !! issue_title (Runs.nth_issue 1) = None.
Proof.
  intros o issue_numbers.
  assert (Hv : value o = Ok issue_numbers).
  { apply returned_Ok. vm_compute. reflexivity. }
  destruct (create_issues_records_last_segment
              (Scripted.spawn [Runs.issue_42; Service.refused])
              JsonRef.to_str Repo.ISSUES ∅ 0 issue_numbers)
    as [_ Hphase].
  destruct (Hphase Hv) as (_ & _ & _ & Hlookup).
  assert (Hdistinct : NoDup (issue_title <$> Repo.ISSUES)).
  { apply (bool_decide_unpack _). vm_compute. exact I. }
  split; [exact Hv |]. split.
  - rewrite (Hlookup Hdistinct 0 (Runs.nth_issue 0) Runs.issue_42);
      [| reflexivity | vm_compute; reflexivity].
    vm_compute. reflexivity.
  - rewrite (Hlookup Hdistinct 1 (Runs.nth_issue 1) Service.refused);
      [| reflexivity | vm_compute; reflexivity].
    vm_compute. reflexivity.
Defined.

(** The label store honours the flag. *)
Lemma label_store_honours_force :
  honours_force LabelStore.spawn LabelStore.label_of.
Proof.
  intros labels name color description. split; [reflexivity |].
  apply lookup_insert_eq.
Qed.

(** C8 in the label store: the declared label [bug], then a label of that
    name with another color and description. *)
Lemma create_labels_force_replaces_witness :
  let first := label "bug" "d73a4a" "Something is not working" in
  let again := label "bug" "0000ff" "A defect" in
  let o := create_labels LabelStore.spawn [first; again] ∅ in
  value o = Ok tt
  ∧ printed_stderr (events o) = []
  ∧ LabelStore.label_of (world_after o) (py "bug")
    = Some (py "0000ff", py "A defect").
Proof.
  intros first again o.
  destruct (create_labels_force_replaces LabelStore.spawn LabelStore.label_of
              first again ∅ label_store_honours_force eq_refl eq_refl eq_refl)
    as (_ & Hv & _ & _ & Herr & _ & Hlabel).
  split; [exact Hv |]. split; [exact Herr | exact Hlabel].
Defined.

(** C9 at the first declared issue: its four labels come back from the
    argument. *)
Lemma issue_labels_argument_witness :
  join (py ",") (issue_labels (Runs.nth_issue 0))
  = py "epic,P0-critical,backend,infrastructure"
  ∧ split 44 (join (py ",") (issue_labels (Runs.nth_issue 0)))
    = [py "epic"; py "P0-critical"; py "backend"; py "infrastructure"].
Proof.
  split; [vm_compute; reflexivity |].
  destruct (issue_labels_argument (Scripted.spawn []) JsonRef.to_str ∅ 1
              (Runs.nth_issue 0) ∅ 0) as [_ Hsplit].
  rewrite Hsplit; [vm_compute; reflexivity | vm_compute; discriminate |].
  apply (bool_decide_unpack _). vm_compute. exact I.
Defined.

(** C10 in a world that answers every process with code 0 and no output. *)
Lemma empty_success_label_vs_mapping_witness :
  let silent := Scripted.exited 0 "" "" in
  create_label (Scripted.spawn []) (Runs.nth_label 0) tt 0
  = ([EvSpawn ([py "gh"] ++ label_args (Runs.nth_label 0)) silent;
      EvPrint (py "  " ++ check_mark ++ py " Created label: " ++ py "epic")],
     1, Ok tt)
  ∧ create_milestone (Scripted.spawn []) JsonRef.loads JsonRef.to_str
      (Runs.nth_milestone 0) ∅ 0
    = ([EvSpawn ([py "gh"] ++ milestone_args (Runs.nth_milestone 0)) silent],
       1, Ok ∅)
  ∧ create_issue (Scripted.spawn []) JsonRef.to_str ∅ (1, Runs.nth_issue 0) ∅ 0
    = ([EvSpawn ([py "gh"] ++ issue_args JsonRef.to_str ∅ (Runs.nth_issue 0))
          silent],
       1, Ok ∅).
Proof.
  destruct (empty_success_label_vs_mapping (Scripted.spawn []) JsonRef.loads
              JsonRef.to_str (Runs.nth_label 0) (Runs.nth_milestone 0) ∅ 1
              (Runs.nth_issue 0) ∅ 0 1 (Scripted.exited 0 "" "")
              eq_refl eq_refl) as (Hlabel & Hmilestone & Hissue).
  split; [exact (Hlabel eq_refl) |].
  split; [exact (Hmilestone eq_refl) | exact (Hissue eq_refl)].
Defined.


(** ** The runs *)

(** When every request is served the script exits with status 0, after 44
    processes, with 4 milestones and 26 issues created and nothing on the
    error stream. *)
Example served_run :
  exit_status (value Runs.served) = 0%Z
  ∧ length (spawned (events Runs.served)) = 44
  ∧ world_after Runs.served
    = {| Service.milestones_created := 4; Service.issues_created := 26 |}
  ∧ printed_stderr (events Runs.served) = []
  ∧ last (printed (events Runs.served))
    = Some (newline ++ py "View at: https://github.com/DubiWork/maaser-tracker/issues").
Proof. vm_compute. done. Qed.

(** When a label, a milestone and an issue are refused the script still
    starts its 44 processes and exits with status 0; the three refusals are
    on the error stream; the summary counts the 14 and 4 declared records
    and the 25 issues recorded. The first issue is sent with the number of
    its milestone; the tenth, whose milestone was refused, is sent without a
    milestone argument. *)
Example refused_run :
  exit_status (value Runs.refused) = 0%Z
  ∧ length (spawned (events Runs.refused)) = 44
  ∧ printed_stderr (events Runs.refused)
    = replicate 3 (error_line (stderr Service.refused))
  ∧ drop 46 (printed (events Runs.refused))
    = [py "   Created 14 labels"; py "   Created 4 milestones";
       py "   Created 25 issues";
       newline ++ py "View at: https://github.com/DubiWork/maaser-tracker/issues"]
  ∧ spawned (events Runs.refused) !! 18
    = Some ([py "gh"] ++ issue_base_args (Runs.nth_issue 0)
            ++ [py "--milestone"; py "1"])
  ∧ issue_milestone (Runs.nth_issue 9) = Some (py "v0.3.0 - Core Features")
  ∧ spawned (events Runs.refused) !! 27
    = Some ([py "gh"] ++ issue_base_args (Runs.nth_issue 9)).
Proof. vm_compute. done. Qed.

(** In the garbled run fifteen processes are started, none fails, and the
    exception of the decoder ends the script with status 1. *)
Example garbled_run :
  value Runs.garbled = Raise JSONDecodeError
  ∧ exit_status (value Runs.garbled) = 1%Z
  ∧ failed_stderr (events Runs.garbled) = []
  ∧ spawned (events Runs.garbled)
    = label_commands Repo.LABELS ++ take 1 (milestone_commands Repo.MILESTONES)
  ∧ printed_stderr (events Runs.garbled) = []
  ∧ last (printed (events Runs.garbled))
    = Some (newline ++ py "Creating milestones...").
Proof. vm_compute. done. Qed.

(** When the first milestone is answered with a ["number"] that is a string
    holding U+0000, every reply is digestible and no process fails; the
    four milestone requests are made, and the first issue, which names the
    first milestone, cannot be started: [ValueError] ends the script with
    status 1 after 18 processes, and no summary is printed. *)
Example null_number_run :
  value Runs.null_number = Raise ValueError
  ∧ exit_status (value Runs.null_number) = 1%Z
  ∧ forallb (digestible JsonRef.loads) (replies (events Runs.null_number)) = true
  ∧ failed_stderr (events Runs.null_number) = []
  ∧ spawned (events Runs.null_number)
    = label_commands Repo.LABELS ++ milestone_commands Repo.MILESTONES
  ∧ last (printed (events Runs.null_number))
    = Some (newline ++ py "Creating issues...").
Proof. vm_compute. done. Qed.

(** When that ["number"] is a lone surrogate, the confirmation of the first
    milestone cannot be printed: [ValueError] ends the script in the
    milestone phase, after 15 processes. *)
Example surrogate_number_run :
  value Runs.surrogate_number = Raise ValueError
  ∧ exit_status (value Runs.surrogate_number) = 1%Z
  ∧ spawned (events Runs.surrogate_number)
    = label_commands Repo.LABELS ++ take 1 (milestone_commands Repo.MILESTONES)
  ∧ last (printed (events Runs.surrogate_number))
    = Some (newline ++ py "Creating milestones...").
Proof. vm_compute. done. Qed.

(** Without the flag the label store refuses a name it holds, and keeps
    its color and description. *)
Example label_store_without_force :
  let labels : gmap str (str * str) := {[ py "bug" := (py "d73a4a", py "old") ]} in
  LabelStore.spawn labels
    [py "gh"; py "label"; py "create"; py "bug"; py "--color"; py "0000ff";
     py "--description"; py "new"; py "--repo"; py "DubiWork/maaser-tracker"]
  = (LabelStore.already_exists, labels).
Proof. reflexivity. Qed.

(** The decoder on the texts of the runs. *)
Example loads_number_7 :
  match JsonRef.loads (json_text "{'number': 7, 'state': 'open'}") with
  | Ok data => getitem data (py "number") = Ok (PInt 7)
  | Raise _ => False
  end.
Proof. vm_compute. done. Qed.

Example loads_ok : JsonRef.loads (py "ok") = Raise JSONDecodeError.
Proof. reflexivity. Qed.

Example loads_list :
  match JsonRef.loads (json_text "[{'number': 7}]") with
  | Ok data => getitem data (py "number") = Raise TypeError
  | Raise _ => False
  end.
Proof. vm_compute. done. Qed.

Example loads_no_number :
  match JsonRef.loads (json_text "{'message': 'Not Found'}") with
  | Ok data => getitem data (py "number") = Raise (KeyError (py "number"))
  | Raise _ => False
  end.
Proof. vm_compute. done. Qed.

Example loads_null_number :
  match JsonRef.loads (json_text "{'number': 'a\u0000b'}") with
  | Ok data => getitem data (py "number") = Ok (PStr [97; 0; 98]%N)
  | Raise _ => False
  end.
Proof. vm_compute. done. Qed.

Example loads_long_int :
  JsonRef.loads (json_text "{'number': " ++ replicate 4301 49%N ++ py "}")
  = Raise ValueError.
Proof. vm_compute. reflexivity. Qed.

(** The text functions on examples. *)
Example strip_example :
  strip (py "  https://github.com/o/r/issues/42" ++ newline)
  = py "https://github.com/o/r/issues/42".
Proof. reflexivity. Qed.

Example split_example :
  split slash (py "a//b/42") = [py "a"; []; py "b"; py "42"].
Proof. reflexivity. Qed.

Example join_keeps_repetitions :
  join comma [py "story"; py "story"; py "no-such-label"]
  = py "story,story,no-such-label".
Proof. reflexivity. Qed.

Example passable_examples :
  passable [97; 0; 98]%N = false
  ∧ passable [55296]%N = false
  ∧ passable [56448]%N = true
  ∧ printable [56448]%N = false
  ∧ printable [97; 0; 98]%N = true.
Proof. done. Qed.

(** * Further properties of the driver *)

(** ** One process at a time *)

Section Sequential.
Context {World : Type}.
Variable spawn : World → list str → CompletedProcess * World.

Lemma replay_app (w : World) (a b : list (list str)) :
  replay spawn w (a ++ b) =
  let '(ps, w1) := replay spawn w a in
  let '(qs, w2) := replay spawn w1 b in
  (ps ++ qs, w2).
Proof.
  revert w. induction a as [|argv a IH]; intros w; simpl.
  - by destruct (replay spawn w b).
  - destruct (spawn w argv) as [p w1]. rewrite IH.
    destruct (replay spawn w1 a) as [ps w2].
    by destruct (replay spawn w2 b).
Qed.

Lemma sequential_app {A B} (w w1 w2 : World) (t1 t2 : list event)
    (r1 : result A) (r2 : result B) :
  sequential spawn w (t1, w1, r1) → sequential spawn w1 (t2, w2, r2) →
  sequential spawn w (t1 ++ t2, w2, r2).
Proof.
  unfold sequential, events, world_after. cbn [fst snd]. intros H1 H2.
  by rewrite spawned_app, replay_app, H1, H2, replies_app.
Qed.

Lemma sequential_bind {A B} (m : M A) (k : A → M B) (w : World) :
  sequential spawn w (m w) → (∀ a w1, sequential spawn w1 (k a w1)) →
  sequential spawn w (bind m k w).
Proof.
  unfold bind. intros Hm Hk.
  destruct (m w) as [[t1 w1] [a|e]]; [| done].
  specialize (Hk a w1). destruct (k a w1) as [[t2 w2] r].
  by eapply sequential_app.
Qed.

Lemma sequential_silent {A} (t : list event) (w : World) (r : result A) :
  spawned t = [] → replies t = [] → sequential spawn w (t, w, r).
Proof.
  unfold sequential, events, world_after. cbn [fst snd]. by intros -> ->.
Qed.

Lemma sequential_print (text : str) (w : World) :
  sequential spawn w (print text w).
Proof. unfold print. destruct (printable text); by apply sequential_silent. Qed.

Lemma sequential_for_each {A St} (body : A → St → M St) (xs : list A) :
  (∀ x s w, sequential spawn w (body x s w)) →
  ∀ s w, sequential spawn w (for_each xs body s w).
Proof.
  intros Hbody. induction xs as [|x xs IH]; intros s w.
  - by apply sequential_silent.
  - apply sequential_bind; [apply Hbody | intros; apply IH].
Qed.

Lemma sequential_run_gh_command (args : list str) (w : World) :
  sequential spawn w (run_gh_command spawn args w).
Proof.
  rewrite run_gh_command_eq. unfold sequential, events, world_after.
  destruct (forallb passable ([py "gh"] ++ args)); [| done].
  destruct (spawn w ([py "gh"] ++ args)) as [p w'] eqn:E.
  destruct (returncode p =? 0)%Z; simpl in *; by rewrite E.
Qed.

Lemma sequential_create_label label u w :
  sequential spawn w (create_label spawn label u w).
Proof.
  apply sequential_bind; [apply sequential_run_gh_command |].
  intros result w1.
  destruct (is_not_none result);
    [apply sequential_print | by apply sequential_silent].
Qed.

Lemma sequential_create_milestone json_loads py_str milestone milestone_numbers w :
  sequential spawn w
    (create_milestone spawn json_loads py_str milestone milestone_numbers w).
Proof.
  apply sequential_bind; [apply sequential_run_gh_command |].
  intros [[|c text]|] w1; try by apply sequential_silent.
  apply sequential_bind; [by apply sequential_silent |]. intros data w2.
  apply sequential_bind; [by apply sequential_silent |]. intros number w3.
  apply sequential_bind; [apply sequential_print |].
  by intros; apply sequential_silent.
Qed.

Lemma sequential_create_issue py_str milestone_numbers i_issue issue_numbers w :
  sequential spawn w
    (create_issue spawn py_str milestone_numbers i_issue issue_numbers w).
Proof.
  apply sequential_bind; [apply sequential_run_gh_command |].
  intros [[|c text]|] w1; try by apply sequential_silent.
  apply sequential_bind; [by apply sequential_silent |]. intros number w2.
  apply sequential_bind; [apply sequential_print |].
  by intros; apply sequential_silent.
Qed.

End Sequential.

(** In every run, whether [main] returns or is ended by an exception,
    the replies it received are those of answering the commands it started
    one after the other from the initial world, each in the world the one
    before it left, and the world the run ends in is the one the last
    process left: no process is started before the previous one exited, none
    is started twice, and nothing else acts on the world. *)
Theorem main_one_process_at_a_time {World : Type}
    (spawn : World → list str → CompletedProcess * World)
    (json_loads : str → result pyval) (py_str : pyval → str)
    (LABELS : list LabelSpec) (MILESTONES : list MilestoneSpec)
    (ISSUES : list IssueSpec) (w : World) :
  let o := main spawn json_loads py_str LABELS MILESTONES ISSUES w in
  replay spawn w (spawned (events o)) = (replies (events o), world_after o).
Proof.
  cbv zeta. change (sequential spawn w
    (main spawn json_loads py_str LABELS MILESTONES ISSUES w)).
  unfold main.
  apply sequential_bind; [apply sequential_print |]. intros _ w0.
  apply sequential_bind.
  { apply sequential_bind; [apply sequential_print |]. intros _ w1.
    apply sequential_for_each. apply sequential_create_label. }
  intros _ w1. apply sequential_bind.
  { apply sequential_bind; [apply sequential_print |]. intros _ w2.
    apply sequential_for_each. apply sequential_create_milestone. }
  intros milestone_numbers w2. apply sequential_bind.
  { apply sequential_bind; [apply sequential_print |]. intros _ w3.
    apply sequential_for_each. apply sequential_create_issue. }
  intros issue_numbers w3.
  repeat (apply sequential_bind; [apply sequential_print |]; intros _ ?).
  apply sequential_print.
Qed.

(** X1. Every process [main] starts, in every run, is [gh] with one of three
    command lines: [label create] with eight more arguments that end with
    [--repo DubiWork/maaser-tracker --force]; [api] on the milestones of
    that repository, ending with [-f state=open]; or [issue create] with
    [--repo DubiWork/maaser-tracker] as its ninth and tenth arguments and at
    most a [--milestone] argument after them. The script starts nothing
    else: it deletes nothing and touches no other repository. *)
Theorem main_only_creates_in_repo {World : Type}
    (spawn : World → list str → CompletedProcess * World)
    (json_loads : str → result pyval) (py_str : pyval → str)
    (LABELS : list LabelSpec) (MILESTONES : list MilestoneSpec)
    (ISSUES : list IssueSpec) (w : World) :
  forallb creates_in_repo
    (spawned (events (main spawn json_loads py_str LABELS MILESTONES ISSUES w)))
  = true.
Proof.
  destruct (main_runs spawn json_loads py_str LABELS MILESTONES ISSUES w)
    as (m & _ & _ & k & _ & -> & _).
  apply forallb_take_true. unfold all_commands. rewrite !forallb_app.
  unfold label_commands, milestone_commands, issue_commands.
  rewrite !forallb_fmap_true; [done | | |].
  - intros issue. apply issue_command_creates_in_repo.
  - apply milestone_command_creates_in_repo.
  - apply label_command_creates_in_repo.
Qed.

(** ** What the loops print and keep *)

Section Outcomes.
Context {World : Type}.
Variable spawn : World → list str → CompletedProcess * World.

(** The labels loop, when it returns: one reply per record, a confirmation
    per reply with code 0, and one line, on one stream or the other, per
    record. *)
Lemma for_each_create_label (xs : list LabelSpec) (w : World) :
  let o := for_each xs (create_label spawn) tt w in
  value o = Ok tt →
  length (replies (events o)) = length xs
  ∧ printed (events o)
    = omap (λ rp, if (returncode rp.2 =? 0)%Z
                  then Some (label_confirmation rp.1) else None)
           (zip xs (replies (events o)))
  ∧ length (printed (events o)) + length (printed_stderr (events o))
    = length xs.
Proof.
  cbv zeta. revert w. induction xs as [|x xs IH]; intros w; [done |].
  rewrite for_each_cons, create_label_eq. cbv zeta.
  destruct (forallb passable ([py "gh"] ++ label_args x)); [| done].
  destruct (spawn w ([py "gh"] ++ label_args x)) as [p w1].
  specialize (IH w1).
  destruct (returncode p =? 0)%Z eqn:Hrc;
    [destruct (printable (label_confirmation x)); [| done] |];
    destruct (for_each xs (create_label spawn) tt w1) as [[t2 w2] r2];
    unfold events, value in *; cbn [fst snd] in *;
    intros Hok; destruct (IH Hok) as (Hlen & Hprinted & Hsum);
    cbn [app replies printed printed_stderr length zip zip_with omap list_omap
         fst snd];
    change (zip_with pair xs (replies t2)) with (zip xs (replies t2));
    rewrite Hrc, Hlen, <- Hprinted;
    (split; [done |]); (split; [done |]); simpl; lia.
Qed.

End Outcomes.

(** X2. When the label records are plain, as declared, the labels phase
    returns. When it returns, it has received one reply per label record
    and has printed, after its heading, exactly one confirmation for each
    record whose process exited with code 0, in declaration order and with
    the record's name, whatever that process printed. Every record got one
    line: its confirmation on standard output or the report of its failure
    on the error stream. *)
Theorem create_labels_one_line_per_label {World : Type}
    (spawn : World → list str → CompletedProcess * World)
    (LABELS : list LabelSpec) (w : World) :
  let t := events (create_labels spawn LABELS w) in
  (forallb plain_label LABELS = true →
   value (create_labels spawn LABELS w) = Ok tt)
  ∧ (value (create_labels spawn LABELS w) = Ok tt →
     length (replies t) = length LABELS
     ∧ printed t
       = py "Creating labels..."
         :: omap (λ rp, if (returncode rp.2 =? 0)%Z
                        then Some (py "  " ++ check_mark ++ py " Created label: "
                                   ++ label_name rp.1)
                        else None)
                 (zip LABELS (replies t))
     ∧ length (printed t) + length (printed_stderr t) = S (length LABELS)).
Proof.
  cbv zeta. split; [apply create_labels_returns |].
  rewrite create_labels_eq.
  pose proof (for_each_create_label spawn LABELS w) as H. cbv zeta in H.
  destruct (for_each LABELS (create_label spawn) tt w) as [[t w'] r].
  unfold events, value in *. cbn [fst snd] in *.
  intros Hok. destruct (H Hok) as (Hlen & Hprinted & Hsum).
  split; [done |]. split; [simpl; by rewrite Hprinted |]. simpl. lia.
Qed.

(** X3. When the milestone phase returns, it has received one reply per
    milestone record, and its mapping holds for a title the value under
    ["number"] of the last reply for a record of that title that exited with
    code 0 with a text that [json.loads] decodes to a dict with that key; a
    title with no such reply is no key of the mapping. So a later record
    overwrites an earlier one of the same title, and a failed or silent
    request leaves an earlier entry in place. *)
Theorem create_milestones_mapping {World : Type}
    (spawn : World → list str → CompletedProcess * World)
    (json_loads : str → result pyval) (py_str : pyval → str)
    (MILESTONES : list MilestoneSpec) (w : World)
    (milestone_numbers : gmap str pyval) :
  let o := create_milestones spawn json_loads py_str MILESTONES w in
  value o = Ok milestone_numbers →
  length (replies (events o)) = length MILESTONES
  ∧ ∀ title,
      milestone_numbers !! title
      = last_stored milestone_title (decoded_number json_loads) title
          (zip MILESTONES (replies (events o))).
Proof.
  cbv zeta. intros Hok.
  destruct (create_milestones_fold spawn json_loads py_str MILESTONES w
              milestone_numbers Hok) as [Hlen Hfold].
  split; [done |]. intros title. rewrite Hfold at 1.
  rewrite (foldl_insert_lookup milestone_title (decoded_number json_loads)).
  by destruct (last_stored _ _ _ _).
Qed.

(** X4. When the issue phase returns, it has received one reply per issue
    record, and its mapping holds for a title the identifier of the last
    reply for a record of that title that exited with code 0 and printed
    something; a title with no such reply is no key of the mapping. *)
Theorem create_issues_mapping {World : Type}
    (spawn : World → list str → CompletedProcess * World)
    (py_str : pyval → str) (ISSUES : list IssueSpec)
    (milestone_numbers : gmap str pyval) (w : World)
    (issue_numbers : gmap str str) :
  let o := create_issues spawn py_str ISSUES milestone_numbers w in
  value o = Ok issue_numbers →
  length (replies (events o)) = length ISSUES
  ∧ ∀ title,
      issue_numbers !! title
      = last_stored issue_title recorded_identifier title
          (zip ISSUES (replies (events o))).
Proof.
  cbv zeta. intros Hok.
  destruct (create_issues_fold spawn py_str ISSUES milestone_numbers w
              issue_numbers Hok) as [Hlen Hfold].
  rewrite (foldl_zip_enumerate
             (λ (m : gmap str str) (issue : IssueSpec) (p : CompletedProcess),
                match recorded_identifier p with
                | Some issue_number => <[issue_title issue := issue_number]> m
                | None => m
                end)) in Hfold.
  split; [done |]. intros title. rewrite Hfold at 1.
  rewrite (foldl_insert_lookup issue_title recorded_identifier).
  by destruct (last_stored _ _ _ _).
Qed.

(** X5. The number of issues the issue phase returns, which [main] prints
    in its summary, is at most the number of issue processes that exited
    with code 0 and printed something, itself at most the number of issue
    records; and it is that number of processes when the titles of the
    issue records are pairwise distinct. *)
Theorem create_issues_count {World : Type}
    (spawn : World → list str → CompletedProcess * World)
    (py_str : pyval → str) (ISSUES : list IssueSpec)
    (milestone_numbers : gmap str pyval) (w : World)
    (issue_numbers : gmap str str) :
  let o := create_issues spawn py_str ISSUES milestone_numbers w in
  value o = Ok issue_numbers →
  size issue_numbers ≤ length (omap recorded_identifier (replies (events o)))
  ∧ length (omap recorded_identifier (replies (events o))) ≤ length ISSUES
  ∧ (NoDup (issue_title <$> ISSUES) →
     size issue_numbers
     = length (omap recorded_identifier (replies (events o)))).
Proof.
  cbv zeta. intros Hok.
  destruct (create_issues_fold spawn py_str ISSUES milestone_numbers w
              issue_numbers Hok) as [Hlen Hfold].
  set (ps := replies (events (create_issues spawn py_str ISSUES
                                milestone_numbers w))) in *.
  assert (Hlen' : length ps = length (enumerate 1 ISSUES)).
  { rewrite Hlen. rewrite <- (enumerate_snd 1 ISSUES) at 1.
    by rewrite length_fmap. }
  destruct (foldl_insert_size (λ i_issue : nat * IssueSpec, issue_title i_issue.2)
              recorded_identifier (zip (enumerate 1 ISSUES) ps) ∅)
    as [Hle Heq].
  cbv zeta in Hle, Heq. rewrite <- Hfold in Hle, Heq.
  rewrite map_size_empty in Hle, Heq.
  rewrite (length_omap_zip_snd recorded_identifier) in Hle, Heq by done.
  split; [simpl in Hle; lia |]. split.
  { rewrite <- Hlen. apply length_omap_le. }
  intros Hnd. simpl in Heq. apply Heq.
  - rewrite fst_zip by lia.
    rewrite <- (enumerate_snd 1 ISSUES) in Hnd.
    by rewrite <- list_fmap_compose in Hnd.
  - intros r _. apply lookup_empty.
Qed.

(** ** Replies the loops do not check *)

(** X6. When a milestone process exits with code 0 and prints something the
    loop cannot digest, the iteration has started that one process, prints
    nothing, returns no mapping and raises: the exception of [json.loads]
    when it refuses the output, [TypeError] when it decodes it to something
    that is no dict, and [KeyError] for ["number"] when it decodes it to a
    dict without that key. A command with an argument that cannot be passed
    starts no process and receives no reply. *)
Theorem create_milestone_decode_error {World : Type}
    (spawn : World → list str → CompletedProcess * World)
    (json_loads : str → result pyval) (py_str : pyval → str)
    (milestone : MilestoneSpec) (milestone_numbers : gmap str pyval)
    (w w' : World) (p : CompletedProcess) :
  spawn w ([py "gh"] ++ milestone_args milestone) = (p, w') →
  digestible json_loads p = false →
  returncode p = 0%Z
  ∧ strip (stdout p) ≠ []
  ∧ create_milestone spawn json_loads py_str milestone milestone_numbers w
    = (if forallb passable ([py "gh"] ++ milestone_args milestone)
       then ([EvSpawn ([py "gh"] ++ milestone_args milestone) p], w',
             Raise (match json_loads (strip (stdout p)) with
                    | Raise e => e
                    | Ok (PDict _) => KeyError (py "number")
                    | Ok _ => TypeError
                    end))
       else ([], w, Raise ValueError)).
Proof.
  intros Hspawn. rewrite create_milestone_eq. cbv zeta. rewrite Hspawn.
  unfold digestible.
  destruct (Z.eqb_spec (returncode p) 0) as [Hrc|]; [| done].
  destruct (strip (stdout p)) as [|c text]; [done |].
  destruct (json_loads (c :: text)) as [[| | | | | |d]|e]; try done.
  cbn [getitem]. by destruct (d !! py "number").
Qed.

(** X7. The identifier of an issue is not checked to be a number, or to be
    anything. When the issue phase returns and the titles are pairwise
    distinct, every record whose process exited with code 0 and printed
    something has its title as a key of the mapping: an output without
    ['/'] is recorded whole, and an output that ends with ['/'] is recorded
    as the empty text. *)
Theorem create_issues_unchecked_identifier {World : Type}
    (spawn : World → list str → CompletedProcess * World)
    (py_str : pyval → str) (ISSUES : list IssueSpec)
    (milestone_numbers : gmap str pyval) (w : World)
    (issue_numbers : gmap str str) :
  let o := create_issues spawn py_str ISSUES milestone_numbers w in
  value o = Ok issue_numbers →
  NoDup (issue_title <$> ISSUES) →
  ∀ k issue p,
    ISSUES !! k = Some issue → replies (events o) !! k = Some p →
    returncode p = 0%Z → strip (stdout p) ≠ [] →
    is_Some (issue_numbers !! issue_title issue)
    ∧ (slash ∉ strip (stdout p) →
       issue_numbers !! issue_title issue = Some (strip (stdout p)))
    ∧ (∀ pre, strip (stdout p) = pre ++ [slash] →
       issue_numbers !! issue_title issue = Some []).
Proof.
  cbv zeta. intros Hok Hdistinct k issue p Hk Hp Hrc Htext.
  destruct (create_issues_fold spawn py_str ISSUES milestone_numbers w
              issue_numbers Hok) as [Hlen Hfold].
  rewrite (foldl_zip_enumerate
             (λ (m : gmap str str) (issue : IssueSpec) (p : CompletedProcess),
                match recorded_identifier p with
                | Some issue_number => <[issue_title issue := issue_number]> m
                | None => m
                end)) in Hfold.
  assert (Hlookup : issue_numbers !! issue_title issue = recorded_identifier p).
  { rewrite Hfold at 1.
    rewrite (foldl_insert_lookup issue_title recorded_identifier).
    rewrite (last_stored_NoDup _ _ _ _ k issue p) by done.
    by destruct (recorded_identifier p). }
  rewrite Hlookup. unfold recorded_identifier.
  apply Z.eqb_eq in Hrc. rewrite Hrc.
  destruct (strip (stdout p)) as [|c text] eqn:E; [done |].
  split.
  { destruct (getitem_last_split slash (c :: text)) as [seg ->]. by eexists. }
  split.
  - intros Hslash. by rewrite last_segment_whole.
  - intros pre Hpre. rewrite Hpre. rewrite last_segment; [done |].
    apply not_elem_of_nil.
Qed.

(** ** From the milestone replies to the issue commands *)

(** The processes of a run in which the first two phases return. *)
Lemma main_spawned_after_mapping {World : Type}
    (spawn : World → list str → CompletedProcess * World)
    (json_loads : str → result pyval) (py_str : pyval → str)
    (LABELS : list LabelSpec) (MILESTONES : list MilestoneSpec)
    (ISSUES : list IssueSpec) (w : World) (milestone_numbers : gmap str pyval) :
  mapping_built spawn json_loads py_str LABELS MILESTONES w milestone_numbers →
  let o := main spawn json_loads py_str LABELS MILESTONES ISSUES w in
  ∃ k, k ≤ length ISSUES
    ∧ spawned (events o)
      = label_commands LABELS ++ milestone_commands MILESTONES
        ++ take k (issue_commands py_str ISSUES milestone_numbers)
    ∧ (value o = Ok tt → k = length ISSUES).
Proof.
  intros Hbuilt. cbv zeta.
  destruct (main_after_mapping spawn json_loads py_str LABELS MILESTONES ISSUES
              w milestone_numbers Hbuilt) as (-> & Hl & Hm).
  destruct (create_issues_runs spawn py_str ISSUES milestone_numbers
              (world_after (milestones_phase spawn json_loads py_str LABELS
                              MILESTONES w)))
    as (k & Hk & Hs & _ & _ & _ & Hv).
  fold (issues_phase spawn json_loads py_str LABELS MILESTONES ISSUES
          milestone_numbers w) in Hs, Hv.
  unfold issue_commands in Hk, Hv. rewrite length_fmap in Hk, Hv.
  exists k. split; [done |]. split.
  - unfold events at 1. cbn [fst].
    rewrite !spawned_app, Hl, Hm, Hs. cbn [spawned app].
    destruct (value _);
      [by rewrite spawned_prints, app_nil_r | by rewrite app_nil_r].
  - unfold value at 1. cbn [snd]. by destruct (value _).
Qed.


(** X9. In a run in which the first two phases return and every reply of
    the milestone phase carried a ["number"]: every declared milestone title
    is a key of the mapping; the processes [main] starts are those of the
    labels, of the milestones, and of the issue records in order, as far as
    the issue phase gets and of all of them when [main] returns; and the
    command of every issue record that names a declared title ends with
    [--milestone] and [str] of the number the mapping holds for it. *)
Theorem all_milestones_created_all_issues_assigned {World : Type}
    (spawn : World → list str → CompletedProcess * World)
    (json_loads : str → result pyval) (py_str : pyval → str)
    (LABELS : list LabelSpec) (MILESTONES : list MilestoneSpec)
    (ISSUES : list IssueSpec) (w : World)
    (milestone_numbers : gmap str pyval) :
  mapping_built spawn json_loads py_str LABELS MILESTONES w milestone_numbers →
  forallb (λ p, match decoded_number json_loads p with
                | Some _ => true
                | None => false
                end)
    (replies (events (milestones_phase spawn json_loads py_str LABELS
                        MILESTONES w))) = true →
  let o := main spawn json_loads py_str LABELS MILESTONES ISSUES w in
  (∀ title, title ∈ milestone_title <$> MILESTONES →
            is_Some (milestone_numbers !! title))
  ∧ (∃ k, k ≤ length ISSUES
       ∧ spawned (events o)
         = label_commands LABELS ++ milestone_commands MILESTONES
           ++ take k ((λ issue, [py "gh"] ++ issue_base_args issue
                                ++ milestone_arg py_str milestone_numbers issue)
                      <$> ISSUES)
       ∧ (value o = Ok tt → k = length ISSUES))
  ∧ (∀ issue title,
       issue_milestone issue = Some title →
       title ∈ milestone_title <$> MILESTONES →
       ∃ number,
         milestone_numbers !! title = Some number
         ∧ milestone_arg py_str milestone_numbers issue
           = [py "--milestone"; py_str number]).
Proof.
  intros Hbuilt Hall. cbv zeta.
  assert (Hkeys : ∀ title, title ∈ milestone_title <$> MILESTONES →
                           is_Some (milestone_numbers !! title)).
  { intros title Htitle. destruct Hbuilt as [_ Hm].
    destruct (create_milestones_fold spawn json_loads py_str MILESTONES _ _ Hm)
      as [Hlen Hfold].
    destruct (last_stored_is_Some milestone_title (decoded_number json_loads)
                title MILESTONES _ Hlen Htitle Hall) as [number Hlast].
    exists number. rewrite Hfold at 1.
    rewrite (foldl_insert_lookup milestone_title (decoded_number json_loads)).
    by rewrite Hlast. }
  split; [exact Hkeys |]. split.
  { apply (main_spawned_after_mapping spawn json_loads py_str LABELS MILESTONES
             ISSUES w milestone_numbers Hbuilt). }
  intros issue title Hissue Htitle.
  destruct (Hkeys title Htitle) as [number Hnumber].
  exists number. split; [done |]. unfold milestone_arg.
  by rewrite Hissue, Hnumber.
Qed.

(** ** The declared records *)

(** X10. The records the script declares are consistent with one another:
    the label names, the milestone titles and the issue titles are each
    pairwise distinct, so no dict entry is overwritten and no label is
    forced twice; every label color is six hexadecimal digits; and every
    issue has at least one label, names only declared labels, and names a
    declared milestone. *)
Theorem declared_records_consistent :
  NoDup (label_name <$> Repo.LABELS)
  ∧ NoDup (milestone_title <$> Repo.MILESTONES)
  ∧ NoDup (issue_title <$> Repo.ISSUES)
  ∧ Forall (λ label, is_hex_color (label_color label) = true) Repo.LABELS
  ∧ Forall (λ issue,
              issue_labels issue ≠ []
              ∧ issue_labels issue ⊆ label_name <$> Repo.LABELS
              ∧ ∃ title, issue_milestone issue = Some title
                         ∧ title ∈ milestone_title <$> Repo.MILESTONES)
           Repo.ISSUES.
Proof.
  split; [apply (bool_decide_unpack _); vm_compute; exact I |].
  split; [apply (bool_decide_unpack _); vm_compute; exact I |].
  split; [apply (bool_decide_unpack _); vm_compute; exact I |].
  split; [apply (bool_decide_unpack _); vm_compute; exact I |].
  unfold Repo.ISSUES.
  repeat (apply Forall_cons; split;
    [split; [discriminate |];
     split; [apply (bool_decide_unpack _); vm_compute; exact I |];
     eexists; split; [reflexivity |];
     apply (bool_decide_unpack _); vm_compute; exact I |]).
  apply Forall_nil_2.
Qed.

(** The texts of the declared records are plain. *)
Lemma declared_records_plain :
  forallb plain_label Repo.LABELS = true
  ∧ forallb plain_milestone Repo.MILESTONES = true
  ∧ forallb plain_issue Repo.ISSUES = true.
Proof. repeat split; vm_compute; reflexivity. Qed.

(** X12. Over the records the script declares, whose texts hold neither
    U+0000 nor a surrogate, the labels phase returns in every world,
    whatever the processes exit with and print: it starts one process per
    declared label, in order, 14 in all, and raises nothing. The first
    command a run can fail to start is that of an issue, for the text of a
    milestone number. *)
Theorem declared_labels_phase_returns {World : Type}
    (spawn : World → list str → CompletedProcess * World) (w : World) :
  let o := create_labels spawn Repo.LABELS w in
  value o = Ok tt
  ∧ spawned (events o) = label_commands Repo.LABELS
  ∧ length (replies (events o)) = 14
  ∧ forallb (forallb passable)
      (label_commands Repo.LABELS ++ milestone_commands Repo.MILESTONES) = true
  ∧ ∀ issue, issue ∈ Repo.ISSUES →
      forallb passable ([py "gh"] ++ issue_base_args issue) = true.
Proof.
  cbv zeta. destruct declared_records_plain as (Hlabels & _ & Hissues).
  pose proof (create_labels_returns spawn Repo.LABELS w Hlabels) as Hv.
  pose proof (runs_commands_all _ _ tt (create_labels_runs spawn Repo.LABELS w) Hv)
    as Hs.
  destruct (create_labels_runs spawn Repo.LABELS w)
    as (k & _ & _ & _ & Hlen & _ & Hk).
  rewrite Hv in Hk. rewrite Hk in Hlen.
  split; [done |]. split; [done |].
  split; [by rewrite Hlen |]. split; [vm_compute; reflexivity |].
  intros issue Hissue. rewrite forallb_forall in Hissues.
  assert (Hnone : milestone_arg (λ _ : pyval, []) ∅ issue = []).
  { unfold milestone_arg. destruct (issue_milestone issue); [| done].
    by rewrite lookup_empty. }
  pose proof (passable_issue_command (λ _, []) ∅ issue
                (Hissues issue (proj1 (list_elem_of_In _ _) Hissue))) as Hpass.
  unfold issue_args in Hpass. rewrite Hnone, app_nil_r in Hpass.
  by apply Hpass.
Qed.

(** ** A run in which nothing is created *)

(** A loop whose iterations each start a process that fails, and leave the
    loop state as it was: it returns that state when every command can be
    passed, and raises [ValueError] otherwise. *)
Lemma for_each_all_fail {World A St : Type}
    (spawn : World → list str → CompletedProcess * World)
    (cmd : A → list str) (body : A → St → @M World St) (xs : list A) :
  (∀ x s w,
     body x s w
     = if forallb passable (cmd x)
       then ([EvSpawn (cmd x) (spawn w (cmd x)).1;
              EvPrintErr (error_line (stderr (spawn w (cmd x)).1))],
             (spawn w (cmd x)).2, Ok s)
       else ([], w, Raise ValueError)) →
  ∀ s w,
    if forallb (forallb passable) (cmd <$> xs)
    then ∃ t w', for_each xs body s w = (t, w', Ok s)
                 ∧ printed t = [] ∧ length (printed_stderr t) = length xs
    else ∃ t w', for_each xs body s w = (t, w', Raise ValueError).
Proof.
  intros Hbody. induction xs as [|x xs IH]; intros s w.
  - by exists [], w.
  - rewrite for_each_cons, Hbody. csimpl.
    destruct (forallb passable (cmd x)); cbn [andb]; [| by eexists _, _].
    specialize (IH s (spawn w (cmd x)).2).
    destruct (forallb (forallb passable) (cmd <$> xs)).
    + destruct IH as (t2 & w2 & -> & Hp2 & He2).
      eexists _, _. split; [reflexivity |].
      cbn [app printed printed_stderr length]. by rewrite Hp2, He2.
    + destruct IH as (t2 & w2 & ->). by eexists _, _.
Qed.

(** X11. When every process exits with a non-zero code, [main] returns, so
    the script exits with status 0, exactly when every command built from
    the records alone can be passed to a process, as those of the declared
    records can. It has then written one report per declared record to the
    error stream and no confirmation, and the last lines it prints announce
    the setup as complete with the number of declared labels and of declared
    milestones as created, and 0 issues. *)
Theorem main_when_every_process_fails {World : Type}
    (spawn : World → list str → CompletedProcess * World)
    (json_loads : str → result pyval) (py_str : pyval → str)
    (LABELS : list LabelSpec) (MILESTONES : list MilestoneSpec)
    (ISSUES : list IssueSpec) (w : World) :
  (∀ w0 argv, returncode (spawn w0 argv).1 ≠ 0%Z) →
  let o := main spawn json_loads py_str LABELS MILESTONES ISSUES w in
  let commands := label_commands LABELS ++ milestone_commands MILESTONES
                  ++ issue_commands py_str ISSUES ∅ in
  exit_status (value o)
  = (if forallb (forallb passable) commands then 0 else 1)%Z
  ∧ (forallb (forallb passable) commands = true →
     length (printed_stderr (events o))
     = length LABELS + length MILESTONES + length ISSUES
     ∧ printed (events o)
       = [py "Setting up GitHub issues for DubiWork/maaser-tracker" ++ newline;
          py "Creating labels...";
          newline ++ py "Creating milestones...";
          newline ++ py "Creating issues...";
          newline ++ white_check_mark ++ py " Setup complete!";
          py "   Created " ++ str_of_nat (length LABELS) ++ py " labels";
          py "   Created " ++ str_of_nat (length MILESTONES) ++ py " milestones";
          py "   Created 0 issues";
          newline ++ py "View at: https://github.com/DubiWork/maaser-tracker/issues"]).
Proof.
  intros Hfail. cbv zeta.
  assert (Hrc : ∀ w0 argv, (returncode (spawn w0 argv).1 =? 0)%Z = false).
  { intros w0 argv. apply Z.eqb_neq, Hfail. }
  assert (Hlabel : ∀ x s w0,
    create_label spawn x s w0
    = if forallb passable ([py "gh"] ++ label_args x)
      then ([EvSpawn ([py "gh"] ++ label_args x)
               (spawn w0 ([py "gh"] ++ label_args x)).1;
             EvPrintErr (error_line
                           (stderr (spawn w0 ([py "gh"] ++ label_args x)).1))],
            (spawn w0 ([py "gh"] ++ label_args x)).2, Ok s)
      else ([], w0, Raise ValueError)).
  { intros x [] w0. rewrite create_label_eq. cbv zeta.
    destruct (forallb passable _); [| done].
    specialize (Hrc w0 ([py "gh"] ++ label_args x)).
    destruct (spawn w0 ([py "gh"] ++ label_args x)) as [p w1].
    cbn [fst] in Hrc. by rewrite Hrc. }
  assert (Hmilestone : ∀ x s w0,
    create_milestone spawn json_loads py_str x s w0
    = if forallb passable ([py "gh"] ++ milestone_args x)
      then ([EvSpawn ([py "gh"] ++ milestone_args x)
               (spawn w0 ([py "gh"] ++ milestone_args x)).1;
             EvPrintErr (error_line
                           (stderr (spawn w0 ([py "gh"] ++ milestone_args x)).1))],
            (spawn w0 ([py "gh"] ++ milestone_args x)).2, Ok s)
      else ([], w0, Raise ValueError)).
  { intros x s w0. rewrite create_milestone_eq. cbv zeta.
    destruct (forallb passable _); [| done].
    specialize (Hrc w0 ([py "gh"] ++ milestone_args x)).
    destruct (spawn w0 ([py "gh"] ++ milestone_args x)) as [p w1].
    cbn [fst] in Hrc. by rewrite Hrc. }
  assert (Hissue : ∀ (x : nat * IssueSpec) s w0,
    create_issue spawn py_str ∅ x s w0
    = if forallb passable ([py "gh"] ++ issue_args py_str ∅ x.2)
      then ([EvSpawn ([py "gh"] ++ issue_args py_str ∅ x.2)
               (spawn w0 ([py "gh"] ++ issue_args py_str ∅ x.2)).1;
             EvPrintErr
               (error_line
                  (stderr (spawn w0 ([py "gh"] ++ issue_args py_str ∅ x.2)).1))],
            (spawn w0 ([py "gh"] ++ issue_args py_str ∅ x.2)).2, Ok s)
      else ([], w0, Raise ValueError)).
  { intros [i x] s w0. rewrite create_issue_eq. cbv zeta. cbn [snd].
    destruct (forallb passable _); [| done].
    specialize (Hrc w0 ([py "gh"] ++ issue_args py_str ∅ x)).
    destruct (spawn w0 ([py "gh"] ++ issue_args py_str ∅ x)) as [p w1].
    cbn [fst] in Hrc. by rewrite Hrc. }
  assert (Hcommands :
    (λ x : nat * IssueSpec, [py "gh"] ++ issue_args py_str ∅ x.2)
      <$> enumerate 1 ISSUES
    = issue_commands py_str ISSUES ∅).
  { unfold issue_commands. rewrite <- (enumerate_snd 1 ISSUES) at 2.
    by rewrite <- list_fmap_compose. }
  rewrite !forallb_app, main_eq, create_labels_eq.
  pose proof (for_each_all_fail spawn _ _ LABELS Hlabel tt w) as Hl.
  fold (label_commands LABELS) in Hl.
  destruct (forallb (forallb passable) (label_commands LABELS));
    [| destruct Hl as (t1 & w1 & ->); by split].
  destruct Hl as (t1 & w1 & -> & Hp1 & He1).
  rewrite create_milestones_eq.
  pose proof (for_each_all_fail spawn _ _ MILESTONES Hmilestone ∅ w1) as Hm.
  fold (milestone_commands MILESTONES) in Hm.
  destruct (forallb (forallb passable) (milestone_commands MILESTONES));
    [| destruct Hm as (t2 & w2 & ->); by split].
  destruct Hm as (t2 & w2 & -> & Hp2 & He2).
  rewrite create_issues_eq.
  pose proof (for_each_all_fail spawn _ _ (enumerate 1 ISSUES) Hissue ∅ w2)
    as Hi.
  rewrite Hcommands in Hi.
  destruct (forallb (forallb passable) (issue_commands py_str ISSUES ∅));
    [| destruct Hi as (t3 & w3 & ->); by split].
  destruct Hi as (t3 & w3 & -> & Hp3 & He3).
  unfold events, value. cbn [fst snd andb]. split; [done |]. intros _.
  split.
  - rewrite !printed_stderr_app, !length_app, printed_stderr_prints.
    cbn [printed_stderr length app]. rewrite He1, He2, He3.
    rewrite <- (enumerate_snd 1 ISSUES) at 2. rewrite length_fmap. simpl. lia.
  - rewrite !printed_app. cbn [printed app]. rewrite Hp1, Hp2, Hp3.
    reflexivity.
Qed.

(** ** The further properties on the runs over the declared records *)

(** X2 on the declared labels, when the label [bug] is refused: the phase
    returns, with one reply for each of the 14 records and 15 lines in
    all. *)
Lemma create_labels_one_line_per_label_witness :
  let o := create_labels (Service.spawn Service.refuse_some) Repo.LABELS
             Service.initial in
  value o = Ok tt
  ∧ length (replies (events o)) = 14
  ∧ length (printed (events o)) + length (printed_stderr (events o)) = 15.
Proof.
  intros o.
  destruct (create_labels_one_line_per_label
              (Service.spawn Service.refuse_some) Repo.LABELS Service.initial)
    as [Hreturns Hlines].
  assert (Hv : value o = Ok tt) by (apply Hreturns; vm_compute; reflexivity).
  destruct (Hlines Hv) as (Hlen & _ & Hsum).
  split; [exact Hv |]. split; [exact Hlen | exact Hsum].
Defined.

(** X3 on the milestone phase when the second milestone is refused: the
    phase returns a mapping that binds the three other titles to 1, 2
    and 3. *)
Lemma create_milestones_mapping_witness :
  let o := create_milestones (Service.spawn Service.refuse_some) JsonRef.loads
             JsonRef.to_str Repo.MILESTONES Service.initial in
  let milestone_numbers :=
    returned_value ∅ (value o) in
  value o = Ok milestone_numbers
  ∧ milestone_numbers !! py "v0.2.0 - Foundation" = Some (PInt 1)
  ∧ milestone_numbers !! py "v0.3.0 - Core Features" = None
  ∧ milestone_numbers !! py "v0.4.0 - Cloud & Analytics" = Some (PInt 2)
  ∧ milestone_numbers !! py "v1.0.0 - Production Release" = Some (PInt 3).
Proof.
  intros o milestone_numbers.
  assert (Hv : value o = Ok milestone_numbers).
  { apply returned_Ok. vm_compute. reflexivity. }
  destruct (create_milestones_mapping (Service.spawn Service.refuse_some)
              JsonRef.loads JsonRef.to_str Repo.MILESTONES Service.initial
              milestone_numbers Hv) as [_ Hmap].
  split; [exact Hv |]. rewrite !Hmap. vm_compute. repeat split.
Defined.

(** X4 on the issue phase when the issue [Integrate React Query] is
    refused: the first title is bound to the text [1], and the refused one
    is no key. *)
Lemma create_issues_mapping_witness :
  let o := create_issues (Service.spawn Service.refuse_some) JsonRef.to_str
             Repo.ISSUES ∅ Service.initial in
  let issue_numbers := returned_value ∅ (value o) in
  value o = Ok issue_numbers
  ∧ issue_numbers !! issue_title (Runs.nth_issue 0) = Some (py "1")
  ∧ issue_numbers !! py "Integrate React Query" = None.
Proof.
  intros o issue_numbers.
  assert (Hv : value o = Ok issue_numbers).
  { apply returned_Ok. vm_compute. reflexivity. }
  destruct (create_issues_mapping (Service.spawn Service.refuse_some)
              JsonRef.to_str Repo.ISSUES ∅ Service.initial issue_numbers Hv)
    as [_ Hmap].
  split; [exact Hv |]. rewrite !Hmap. vm_compute. repeat split.
Defined.

(** X5 on the issue phase when one issue is refused: the titles are
    distinct and 25 issues are counted. *)
Lemma create_issues_count_witness :
  let o := create_issues (Service.spawn Service.refuse_some) JsonRef.to_str
             Repo.ISSUES ∅ Service.initial in
  let issue_numbers := returned_value ∅ (value o) in
  value o = Ok issue_numbers ∧ size issue_numbers = 25.
Proof.
  intros o issue_numbers.
  assert (Hv : value o = Ok issue_numbers).
  { apply returned_Ok. vm_compute. reflexivity. }
  destruct (create_issues_count (Service.spawn Service.refuse_some)
              JsonRef.to_str Repo.ISSUES ∅ Service.initial issue_numbers Hv)
    as (_ & _ & Heq).
  split; [exact Hv |].
  rewrite Heq; [vm_compute; reflexivity |].
  apply (bool_decide_unpack _). vm_compute. exact I.
Defined.

(** X6 on three replies to the first milestone request: a text that is no
    JSON, a JSON list, and a JSON object without ["number"]. *)
Lemma create_milestone_decode_error_witness :
  value (create_milestone (Scripted.spawn [Scripted.exited 0 "ok" ""])
           JsonRef.loads JsonRef.to_str (Runs.nth_milestone 0) ∅ 0)
  = Raise JSONDecodeError
  ∧ value (create_milestone
             (Scripted.spawn [{| returncode := 0;
                                 stdout := json_text "[{'number': 7}]";
                                 stderr := [] |}])
             JsonRef.loads JsonRef.to_str (Runs.nth_milestone 0) ∅ 0)
    = Raise TypeError
  ∧ value (create_milestone
             (Scripted.spawn [{| returncode := 0;
                                 stdout := json_text "{'message': 'Not Found'}";
                                 stderr := [] |}])
             JsonRef.loads JsonRef.to_str (Runs.nth_milestone 0) ∅ 0)
    = Raise (KeyError (py "number")).
Proof.
  split; [| split].
  - destruct (create_milestone_decode_error
                (Scripted.spawn [Scripted.exited 0 "ok" ""])
                JsonRef.loads JsonRef.to_str (Runs.nth_milestone 0) ∅ 0 1
                (Scripted.exited 0 "ok" "") eq_refl eq_refl)
      as (_ & _ & ->).
    reflexivity.
  - destruct (create_milestone_decode_error
                (Scripted.spawn [{| returncode := 0;
                                    stdout := json_text "[{'number': 7}]";
                                    stderr := [] |}])
                JsonRef.loads JsonRef.to_str (Runs.nth_milestone 0) ∅ 0 1
                {| returncode := 0; stdout := json_text "[{'number': 7}]";
                   stderr := [] |} eq_refl eq_refl)
      as (_ & _ & ->).
    reflexivity.
  - destruct (create_milestone_decode_error
                (Scripted.spawn [{| returncode := 0;
                                    stdout := json_text "{'message': 'Not Found'}";
                                    stderr := [] |}])
                JsonRef.loads JsonRef.to_str (Runs.nth_milestone 0) ∅ 0 1
                {| returncode := 0;
                   stdout := json_text "{'message': 'Not Found'}";
                   stderr := [] |} eq_refl eq_refl)
      as (_ & _ & ->).
    reflexivity.
Defined.

(** X7 on the declared issues, when the first request is answered with the
    word [created] and the second with a URL that ends with ['/']: the
    first title is bound to that word and the second to the empty text. *)
Lemma create_issues_unchecked_identifier_witness :
  let word := Scripted.exited 0 "created" "" in
  let open_url :=
    Scripted.exited 0 "https://github.com/DubiWork/maaser-tracker/issues/" "" in
  let o := create_issues (Scripted.spawn [word; open_url]) JsonRef.to_str
             Repo.ISSUES ∅ 0 in
  let issue_numbers := returned_value ∅ (value o) in
  value o = Ok issue_numbers
  ∧ issue_numbers !! issue_title (Runs.nth_issue 0) = Some (py "created")
  ∧ issue_numbers !! issue_title (Runs.nth_issue 1) = Some [].
Proof.
  intros word open_url o issue_numbers.
  assert (Hv : value o = Ok issue_numbers).
  { apply returned_Ok. vm_compute. reflexivity. }
  assert (Hdistinct : NoDup (issue_title <$> Repo.ISSUES)).
  { apply (bool_decide_unpack _). vm_compute. exact I. }
  pose proof (create_issues_unchecked_identifier (Scripted.spawn [word; open_url])
                JsonRef.to_str Repo.ISSUES ∅ 0 issue_numbers Hv Hdistinct)
    as Hrecorded.
  split; [exact Hv |]. split.
  - destruct (Hrecorded 0 (Runs.nth_issue 0) word) as (_ & Hwhole & _);
      [reflexivity | vm_compute; reflexivity | reflexivity
      | vm_compute; discriminate |].
    apply Hwhole. apply (bool_decide_unpack _). vm_compute. exact I.
  - destruct (Hrecorded 1 (Runs.nth_issue 1) open_url) as (_ & _ & Hslash);
      [reflexivity | vm_compute; reflexivity | reflexivity
      | vm_compute; discriminate |].
    apply (Hslash (py "https://github.com/DubiWork/maaser-tracker/issues")).
    vm_compute. reflexivity.
Defined.


(** X9 on the run in which every request is served: every declared title
    is a key, and the tenth issue carries the number of its milestone. *)
Lemma all_milestones_created_all_issues_assigned_witness :
  let spawn := Service.spawn (λ _, false) in
  let milestones :=
    milestones_phase spawn JsonRef.loads JsonRef.to_str Repo.LABELS
      Repo.MILESTONES Service.initial in
  let milestone_numbers := returned_value ∅ (value milestones) in
  mapping_built spawn JsonRef.loads JsonRef.to_str Repo.LABELS Repo.MILESTONES
    Service.initial milestone_numbers
  ∧ ∃ number,
      milestone_numbers !! py "v0.3.0 - Core Features" = Some number
      ∧ milestone_arg JsonRef.to_str milestone_numbers (Runs.nth_issue 9)
        = [py "--milestone"; JsonRef.to_str number].
Proof.
  intros spawn milestones milestone_numbers.
  assert (Hbuilt : mapping_built spawn JsonRef.loads JsonRef.to_str Repo.LABELS
                     Repo.MILESTONES Service.initial milestone_numbers).
  { split; [vm_compute; reflexivity |]. apply returned_Ok. vm_compute. reflexivity. }
  split; [exact Hbuilt |].
  destruct (all_milestones_created_all_issues_assigned spawn JsonRef.loads
              JsonRef.to_str Repo.LABELS Repo.MILESTONES Repo.ISSUES
              Service.initial milestone_numbers Hbuilt)
    as (_ & _ & Hassigned).
  { vm_compute. reflexivity. }
  apply Hassigned; [reflexivity |].
  apply (bool_decide_unpack _). vm_compute. exact I.
Defined.

(** X11 on the declared records, in a world that refuses every request. *)
Lemma main_when_every_process_fails_witness :
  let o := main (Service.spawn (λ _, true)) JsonRef.loads JsonRef.to_str
             Repo.LABELS Repo.MILESTONES Repo.ISSUES Service.initial in
  exit_status (value o) = 0%Z
  ∧ length (printed_stderr (events o)) = 44
  ∧ drop 5 (printed (events o))
    = [py "   Created 14 labels"; py "   Created 4 milestones";
       py "   Created 0 issues";
       newline ++ py "View at: https://github.com/DubiWork/maaser-tracker/issues"].
Proof.
  destruct (main_when_every_process_fails (Service.spawn (λ _, true))
              JsonRef.loads JsonRef.to_str Repo.LABELS Repo.MILESTONES
              Repo.ISSUES Service.initial) as (Hexit & Hlines).
  { intros w0 argv. unfold Service.spawn. simpl. discriminate. }
  assert (Hpass : forallb (forallb passable)
                    (label_commands Repo.LABELS
                     ++ milestone_commands Repo.MILESTONES
                     ++ issue_commands JsonRef.to_str Repo.ISSUES ∅) = true).
  { vm_compute. reflexivity. }
  destruct (Hlines Hpass) as (Herr & Hout).
  rewrite Hpass in Hexit.
  cbv zeta. split; [exact Hexit |]. split; [exact Herr |].
  rewrite Hout. reflexivity.
Defined.
